(** * sevenzip-ffi: the 7z container writer, the volume source, the AES
    helpers and the read path, embedded from the C sources.

    Conventions of the embedding.
    - A C byte is a [Z] in [0, 256); a buffer is a [list Z].  The cast
      [(Byte)e] is [Byte e], reduction modulo 256.
    - [uint64_t] and [size_t] values are [Z]; shifts and masks are
      [Z.shiftr], [Z.shiftl], [Z.land], [Z.lor].
    - A function that advances an output pointer ([Byte** buf]) returns the
      bytes it appended.
    - [fwrite(&x, 8, 1, f)] of an integer stores it in host byte order; the
      embedding fixes a little-endian host ([le_bytes]).
    - Allocation never fails.
    - A call that writes past the end of a buffer has no defined behaviour
      in C; the writers that can do so return an [option], [None] standing
      for such a run. *)

From Stdlib Require Import ZArith Lia List Bool Ascii.
From stdpp Require Import base list strings gmap pretty.

Local Open Scope Z_scope.

(** ** Bytes and little-endian integers *)

Definition Byte (z : Z) : Z := z mod 256.

(** The [n] low-order bytes of [v], least significant first. *)
Fixpoint le_bytes (n : nat) (v : Z) : list Z :=
  match n with
  | O => []
  | S n' => Byte v :: le_bytes n' (Z.shiftr v 8)
  end.

(** The value of a little-endian byte string. *)
Fixpoint le_value (bs : list Z) : Z :=
  match bs with
  | [] => 0
  | b :: bs' => b + 256 * le_value bs'
  end.

Definition is_byte (b : Z) : Prop := 0 <= b < 256.

(** ** Error codes (include/7z_ffi.h) *)

Inductive SevenZipErrorCode : Set :=
| SEVENZIP_OK
| SEVENZIP_ERROR_OPEN_FILE
| SEVENZIP_ERROR_INVALID_ARCHIVE
| SEVENZIP_ERROR_MEMORY
| SEVENZIP_ERROR_EXTRACT
| SEVENZIP_ERROR_COMPRESS
| SEVENZIP_ERROR_INVALID_PARAM
| SEVENZIP_ERROR_NOT_IMPLEMENTED
| SEVENZIP_ERROR_UNKNOWN.

(** Result codes of the LZMA SDK (7zTypes.h), as far as the sources name
    them. *)
Inductive SRes : Set :=
| SZ_OK
| SZ_ERROR_DATA
| SZ_ERROR_MEM
| SZ_ERROR_READ
| SZ_ERROR_WRITE
| SZ_ERROR_PARAM
| SZ_ERROR_FAIL.

(** ** 7z format constants *)

Definition k7zSignature : list Z := [0x37; 0x7A; 0xBC; 0xAF; 0x27; 0x1C].
Definition k7zMajorVersion : Z := 0.

Definition k7zIdEnd : Z := 0x00.
Definition k7zIdHeader : Z := 0x01.
Definition k7zIdMainStreamsInfo : Z := 0x04.
Definition k7zIdFilesInfo : Z := 0x05.
Definition k7zIdPackInfo : Z := 0x06.
Definition k7zIdUnpackInfo : Z := 0x07.
Definition k7zIdSubStreamsInfo : Z := 0x08.
Definition k7zIdSize : Z := 0x09.
Definition k7zIdCRC : Z := 0x0A.
Definition k7zIdFolder : Z := 0x0B.
Definition k7zIdCodersUnpackSize : Z := 0x0C.
Definition k7zIdNumUnpackStream : Z := 0x0D.
Definition k7zIdEmptyStream : Z := 0x0E.
Definition k7zIdName : Z := 0x11.
Definition k7zIdMTime : Z := 0x14.
Definition k7zIdWinAttrib : Z := 0x15.

(** [uint64_t] arithmetic wraps. *)
Definition u64 (z : Z) : Z := z mod 2 ^ 64.

(** ** CRC-32

    Modelled from the spec: [CrcCalc], [CrcUpdate], [CRC_INIT_VAL] and
    [CRC_GET_DIGEST] belong to the LZMA SDK (7zCrc.h), which is not part of
    the sources.  Section 4.2: the IEEE 802.3 polynomial, initial value
    0xFFFFFFFF, final XOR 0xFFFFFFFF, least-significant bit first. *)

Definition crc_bit (c : Z) : Z :=
  if Z.testbit c 0 then Z.lxor (Z.shiftr c 1) 0xEDB88320 else Z.shiftr c 1.

Definition crc_byte (c b : Z) : Z := Nat.iter 8 crc_bit (Z.lxor c b).

Definition CRC_INIT_VAL : Z := 0xFFFFFFFF.
Definition CRC_GET_DIGEST (c : Z) : Z := Z.lxor c 0xFFFFFFFF.
Definition CrcUpdate (c : Z) (data : list Z) : Z := fold_left crc_byte data c.
Definition CrcCalc (data : list Z) : Z :=
  CRC_GET_DIGEST (CrcUpdate CRC_INIT_VAL data).

(** ** A stdio stream opened for writing

    The bytes of the file and the position of the next write.  Every write
    in the sources lands inside the file or at its end. *)
Record FILE : Type := { f_data : list Z; f_pos : nat }.

Definition fopen_wb : FILE := {| f_data := []; f_pos := 0 |}.

Definition fwrite (bs : list Z) (f : FILE) : FILE :=
  {| f_data := take (f_pos f) (f_data f) ++ bs
               ++ drop (f_pos f + length bs) (f_data f);
     f_pos := f_pos f + length bs |}.

Definition ftell (f : FILE) : Z := Z.of_nat (f_pos f).

Definition fseek_set (f : FILE) (pos : Z) : FILE :=
  {| f_data := f_data f; f_pos := Z.to_nat pos |}.

(** ** C strings *)

(** The bytes of a C string, without the terminator. *)
Definition string_bytes (s : string) : list Z :=
  map (fun c => Z.of_nat (Ascii.nat_of_ascii c)) (String.list_ascii_of_string s).

(** Each character as a UTF-16LE unit with a zero high byte, then a two-byte
    terminator. *)
Definition write_name_utf16 (name : string) : list Z :=
  flat_map (fun b => [Byte b; 0]) (string_bytes name) ++ [0; 0].

Definition strlen (s : string) : Z := Z.of_nat (String.length s).

(** ** The LZMA2 encoder of the LZMA SDK

    The encoder is outside the sources; the writers only need what they
    call.  [Lzma2Enc_SetProps] may refuse the properties,
    [Lzma2Enc_WriteProperties] gives the property byte for the header and
    [Lzma2Enc_Encode2] turns a whole input into the packed stream or
    fails.  [Lzma2Enc_Encode2_stream] is the same call working on an input
    stream, which it reads to its end, and an output stream: it gives the
    result code and the buffers it handed to the [Write] callback, in
    order. *)
Record CLzma2EncProps : Type := {
  lzma_level : Z;
  lzma_dictSize : Z;
  lzma_numThreads : Z;
  numBlockThreads_Max : Z;
  numTotalThreads : Z;
  blockSize : Z
}.

Class Lzma2Enc : Type := {
  Lzma2EncProps_Init : CLzma2EncProps;
  Lzma2EncProps_Normalize : CLzma2EncProps -> CLzma2EncProps;
  Lzma2Enc_SetProps : CLzma2EncProps -> bool;
  Lzma2Enc_WriteProperties : CLzma2EncProps -> Z;
  Lzma2Enc_Encode2 : CLzma2EncProps -> list Z -> option (list Z);
  Lzma2Enc_Encode2_stream : CLzma2EncProps -> list Z -> SRes * list (list Z)
}.

(** ** What the writers find on disk

    A directory entry as [stat], [opendir]/[readdir] and [fopen]/[fread]
    present it: its name in the directory, [st_mode], [st_mtime], and the
    bytes of a regular file or the entries of a directory in [readdir]
    order.  [S_ISREG] and [S_ISDIR] are the constructor; [st_size] of a
    regular file is the length of its content. *)
#[warnings="-register-all"]
Inductive node : Type :=
| Reg (d_name : string) (st_mode st_mtime : Z) (content : list Z)
| Dir (d_name : string) (st_mode st_mtime : Z) (entries : list node)
| Special (d_name : string) (st_mode st_mtime : Z).

Definition d_name (n : node) : string :=
  match n with
  | Reg nm _ _ _ | Dir nm _ _ _ | Special nm _ _ => nm
  end.

Definition st_mode (n : node) : Z :=
  match n with
  | Reg _ m _ _ | Dir _ m _ _ | Special _ m _ => m
  end.

Definition st_mtime (n : node) : Z :=
  match n with
  | Reg _ _ t _ | Dir _ _ t _ | Special _ _ t => t
  end.

(** An input path and what [stat] finds there ([None]: [stat] fails). *)
Definition input : Type := string * option node.

Definition u32 (z : Z) : Z := z mod 2 ^ 32.

(** [(uint64_t)t * 10000000ULL + 116444736000000000ULL] *)
Definition unix_to_filetime (t : Z) : Z :=
  u64 (u64 t * 10000000 + 116444736000000000).

(** What follows the last [c] in [s]: [strrchr(s, c) + 1], or [None] when
    [c] does not occur. *)
Fixpoint after_last (c : Ascii.ascii) (s : string) : option string :=
  match s with
  | EmptyString => None
  | String a rest =>
      match after_last c rest with
      | Some t => Some t
      | None => if Ascii.eqb a c then Some rest else None
      end
  end.

(** The last segment of a path: after the last slash, else after the last
    backslash, else the whole path. *)
Definition basename (path : string) : string :=
  match after_last "/"%char path with
  | Some t => t
  | None => default path (after_last "\"%char path)
  end.

(** Skipping the slashes at the start of a relative path. *)
Fixpoint skip_slashes (s : string) : string :=
  match s with
  | String a rest => if Ascii.eqb a "/"%char then skip_slashes rest else s
  | EmptyString => s
  end.

Definition drop_chars (n : nat) (s : string) : string :=
  String.substring n (String.length s - n) s.

Definition is_dot_entry (nm : string) : bool :=
  String.eqb nm "." || String.eqb nm "..".

(** ** Options (include/7z_ffi.h) *)

Record SevenZipCompressOptions : Type := {
  co_num_threads : Z;
  co_dict_size : Z;
  co_solid : Z;
  co_password : option string
}.

Record SevenZipStreamOptions : Type := {
  so_num_threads : Z;
  so_dict_size : Z;
  so_solid : Z;
  so_password : option string;
  so_split_size : Z;
  so_chunk_size : Z;
  so_temp_dir : option string;
  so_delete_temp_on_error : Z
}.

Definition SEVENZIP_LEVEL_STORE : Z := 0.
Definition SEVENZIP_LEVEL_FASTEST : Z := 1.
Definition SEVENZIP_LEVEL_FAST : Z := 3.
Definition SEVENZIP_LEVEL_NORMAL : Z := 5.
Definition SEVENZIP_LEVEL_MAXIMUM : Z := 7.
Definition SEVENZIP_LEVEL_ULTRA : Z := 9.

(** The files a call leaves on disk, by path. *)
Abbreviation outputs := (gmap string (list Z)).

(** A loop over directory entries or input paths that returns at the first
    error. *)
Section TryEach.
Context {A S : Type} (step : A -> S -> SevenZipErrorCode * S).

Fixpoint try_each (xs : list A) (s : S) : SevenZipErrorCode * S :=
  match xs with
  | [] => (SEVENZIP_OK, s)
  | x :: rest =>
      match step x s with
      | (SEVENZIP_OK, s') => try_each rest s'
      | (err, s') => (err, s')
      end
  end.

End TryEach.

(** ** Volume numbers

    [%03d] of [snprintf]: decimal, zero-padded to three characters. *)
Definition fmt_03d (i : Z) : string :=
  let s := pretty i in
  String.concat "" (replicate (3 - String.length s) "0") +:+ s.

(** The files a reader finds on disk, by path: [fopen(path, "rb")] succeeds
    exactly on the paths of the map. *)
Abbreviation disk := (gmap string (list Z)).

(** Modelled from the spec: the number decoder.  The repository only
    writes numbers; reading is done by the LZMA SDK's ReadNumber, which is
    not part of the sources.  Following section 4.1: the first byte has a
    prefix of [k] set bits followed by a zero bit, [k] is the number of
    additional bytes (0 to 8), the remaining low bits of the first byte are
    the high bits of the value and the additional bytes carry the rest in
    little-endian order.  The decoder returns the value and the number of
    bytes consumed, and fails on a truncated input.  With at most eight
    additional bytes no input can exceed 64 bits. *)
Module Varint.

(** Number of set bits at the top of [b], looking at bits [n-1 .. 0]. *)
Fixpoint leading_ones (n : nat) (b : Z) : nat :=
  match n with
  | O => O
  | S n' => if Z.testbit b (Z.of_nat n') then S (leading_ones n' b) else O
  end.

Definition decode (bs : list Z) : option (Z * nat) :=
  match bs with
  | [] => None
  | first :: rest =>
      let k := leading_ones 8 first in
      if (length rest <? k)%nat then None
      else
        let high := Z.land first (Z.shiftr 0x7F (Z.of_nat k)) in
        Some (le_value (take k rest) + high * 2 ^ (8 * Z.of_nat k), S k)
  end.

End Varint.
(** ** The 7z number encoding *)

(** [WriteNumber] of archive_create.c (the copy in
    archive_create_multivolume.c is textually the same). *)
Module ArchiveCreate.

Definition WriteNumber (value : Z) : list Z :=
  if value <? 0x80 then
    [Byte value]
  else if value <? Z.shiftl 1 14 then
    [Byte (Z.lor 0x80 (Z.shiftr value 8));
     Byte (Z.land value 0xFF)]
  else if value <? Z.shiftl 1 21 then
    [Byte (Z.lor 0xC0 (Z.land (Z.shiftr value 16) 0x1F));
     Byte (Z.land value 0xFF);
     Byte (Z.land (Z.shiftr value 8) 0xFF)]
  else if value <? Z.shiftl 1 28 then
    [Byte (Z.lor 0xE0 (Z.land (Z.shiftr value 24) 0x0F));
     Byte (Z.land value 0xFF);
     Byte (Z.land (Z.shiftr value 8) 0xFF);
     Byte (Z.land (Z.shiftr value 16) 0xFF)]
  else if value <? Z.shiftl 1 35 then
    [Byte (Z.lor 0xF0 (Z.land (Z.shiftr value 32) 0x07));
     Byte (Z.land value 0xFF);
     Byte (Z.land (Z.shiftr value 8) 0xFF);
     Byte (Z.land (Z.shiftr value 16) 0xFF);
     Byte (Z.land (Z.shiftr value 24) 0xFF)]
  else if value <? Z.shiftl 1 42 then
    [Byte (Z.lor 0xF8 (Z.land (Z.shiftr value 40) 0x03));
     Byte (Z.land value 0xFF);
     Byte (Z.land (Z.shiftr value 8) 0xFF);
     Byte (Z.land (Z.shiftr value 16) 0xFF);
     Byte (Z.land (Z.shiftr value 24) 0xFF);
     Byte (Z.land (Z.shiftr value 32) 0xFF)]
  else if value <? Z.shiftl 1 49 then
    [Byte (Z.lor 0xFC (Z.land (Z.shiftr value 48) 0x01));
     Byte (Z.land value 0xFF);
     Byte (Z.land (Z.shiftr value 8) 0xFF);
     Byte (Z.land (Z.shiftr value 16) 0xFF);
     Byte (Z.land (Z.shiftr value 24) 0xFF);
     Byte (Z.land (Z.shiftr value 32) 0xFF);
     Byte (Z.land (Z.shiftr value 40) 0xFF)]
  else if value <? Z.shiftl 1 56 then
    [0xFE;
     Byte (Z.land value 0xFF);
     Byte (Z.land (Z.shiftr value 8) 0xFF);
     Byte (Z.land (Z.shiftr value 16) 0xFF);
     Byte (Z.land (Z.shiftr value 24) 0xFF);
     Byte (Z.land (Z.shiftr value 32) 0xFF);
     Byte (Z.land (Z.shiftr value 40) 0xFF);
     Byte (Z.land (Z.shiftr value 48) 0xFF)]
  else
    [0xFF;
     Byte (Z.land value 0xFF);
     Byte (Z.land (Z.shiftr value 8) 0xFF);
     Byte (Z.land (Z.shiftr value 16) 0xFF);
     Byte (Z.land (Z.shiftr value 24) 0xFF);
     Byte (Z.land (Z.shiftr value 32) 0xFF);
     Byte (Z.land (Z.shiftr value 40) 0xFF);
     Byte (Z.land (Z.shiftr value 48) 0xFF);
     Byte (Z.land (Z.shiftr value 56) 0xFF)].

(** *** The compressibility test

    [freq[data[i]]++] over the first [sample_size] bytes. *)
Definition count_frequencies (sample : list Z) (freq : list Z) : list Z :=
  fold_left (fun fr b => alter Z.succ (Z.to_nat b) fr) sample freq.

(** [for (i = 0; i < 256; i++) if (freq[i] > threshold) unique_bytes++]. *)
Definition count_unique (freq : list Z) (threshold : Z) : Z :=
  fold_left (fun unique (i : nat) =>
               if threshold <? freq !!! i then unique + 1 else unique)
            (seq 0 256) 0.

(** [is_data_compressible(data, size)]; [size] is the length of [data]. *)
Definition is_data_compressible (data : list Z) : bool :=
  let size := Z.of_nat (length data) in
  if size <? 1024 then true
  else
    let sample_size := if size <? 65536 then size else 65536 in
    let freq := count_frequencies (take (Z.to_nat sample_size) data)
                                  (replicate 256 0) in
    let threshold := sample_size / 512 in
    count_unique freq threshold <? 220.

(** *** The builder

    [data] is the file's buffer ([None] for a NULL pointer: directories and
    entries that are not regular files); when present it holds exactly
    [size] bytes, what [fread] delivered. *)
Record SevenZFile : Type := {
  name : string;
  size : Z;
  pack_size : Z;
  mtime : Z;
  attrib : Z;
  crc : Z;
  data : option (list Z);
  is_dir : bool
}.

Record SevenZArchiveBuilder : Type := {
  files : list SevenZFile;
  props : CLzma2EncProps;
  lzma2_prop_byte : Z;
  use_copy_codec : bool
}.

Definition has_data (f : SevenZFile) : bool :=
  negb (is_dir f) && bool_decide (is_Some (data f)).

Definition file_bytes (f : SevenZFile) : list Z := default [] (data f).

(** *** [compress_all_files] *)

(** First loop: the total input size. *)
Definition total_input_size (fs : list SevenZFile) : Z :=
  fold_left (fun total f => if has_data f then total + size f else total) fs 0.

(** Second loop: the buffers one after the other. *)
Definition combined (fs : list SevenZFile) : list Z :=
  flat_map (fun f => if has_data f then file_bytes f else []) fs.

(** Second loop: [files[i].crc = CrcCalc(files[i].data, files[i].size)]. *)
Definition set_crc (f : SevenZFile) : SevenZFile :=
  if has_data f then
    {| name := name f; size := size f; pack_size := pack_size f;
       mtime := mtime f; attrib := attrib f; crc := CrcCalc (file_bytes f);
       data := data f; is_dir := is_dir f |}
  else f.

Definition with_codec (b : SevenZArchiveBuilder) (fs : list SevenZFile)
    (copy : bool) (prop : Z) : SevenZArchiveBuilder :=
  {| files := fs; props := props b; lzma2_prop_byte := prop;
     use_copy_codec := copy |}.

(** The result: the error code, the builder as the call leaves it, and the
    packed stream ([None] for the NULL output of an empty input). *)
Definition compress_all_files `{Lzma2Enc} (b : SevenZArchiveBuilder)
    : SevenZipErrorCode * SevenZArchiveBuilder * option (list Z) :=
  let total := total_input_size (files b) in
  if total =? 0 then (SEVENZIP_OK, b, None)
  else
    let input := combined (files b) in
    let fs := map set_crc (files b) in
    if use_copy_codec b
       || ((1024 * 1024 <? total) && negb (is_data_compressible input))
    then (SEVENZIP_OK, with_codec b fs true 0, Some input)
    else
      if negb (Lzma2Enc_SetProps (props b))
      then (SEVENZIP_ERROR_COMPRESS, with_codec b fs false (lzma2_prop_byte b), None)
      else
        let prop := Lzma2Enc_WriteProperties (props b) in
        match Lzma2Enc_Encode2 (props b) input with
        | None => (SEVENZIP_ERROR_COMPRESS, with_codec b fs false prop, None)
        | Some out => (SEVENZIP_OK, with_codec b fs false prop, Some out)
        end.

(** *** The header block, as [write_7z_archive] builds it in memory *)

Definition pack_info (pack_size : Z) : list Z :=
  [k7zIdPackInfo] ++ WriteNumber 0 ++ WriteNumber 1
  ++ [k7zIdSize] ++ WriteNumber pack_size ++ [k7zIdEnd].

Definition coder_spec (b : SevenZArchiveBuilder) : list Z :=
  if use_copy_codec b then [0x01; 0x00]
  else [0x21; 0x21] ++ WriteNumber 1 ++ [Byte (lzma2_prop_byte b)].

Definition total_unpack_size (fs : list SevenZFile) : Z :=
  fold_left (fun total f => if is_dir f then total else u64 (total + size f)) fs 0.

Definition unpack_info (b : SevenZArchiveBuilder) : list Z :=
  [k7zIdUnpackInfo; k7zIdFolder]
  ++ WriteNumber 1 ++ WriteNumber 0 ++ WriteNumber 1
  ++ coder_spec b
  ++ [k7zIdCodersUnpackSize] ++ WriteNumber (total_unpack_size (files b))
  ++ [k7zIdEnd].

(** Count of the entries that are not directories. *)
Definition num_files (fs : list SevenZFile) : Z :=
  fold_left (fun n f => if is_dir f then n else n + 1) fs 0.

(** The loop under "Individual file sizes (all but last - last is
    implied)": it runs while [written < num_files - 1]. *)
Fixpoint write_sizes (fs : list SevenZFile) (written n : Z) : list Z :=
  match fs with
  | [] => []
  | f :: rest =>
      if written <? n - 1 then
        if is_dir f then write_sizes rest written n
        else WriteNumber (size f) ++ write_sizes rest (written + 1) n
      else []
  end.

Definition sizes_group (fs : list SevenZFile) : list Z :=
  if 1 <? num_files fs then [k7zIdSize] ++ write_sizes fs 0 (num_files fs)
  else [].

Definition crc_values (fs : list SevenZFile) : list Z :=
  flat_map (fun f => if is_dir f then [] else le_bytes 4 (crc f)) fs.

Definition substreams_info (fs : list SevenZFile) : list Z :=
  [k7zIdSubStreamsInfo; k7zIdNumUnpackStream] ++ WriteNumber (num_files fs)
  ++ sizes_group fs
  ++ [k7zIdCRC; 1] ++ crc_values fs
  ++ [k7zIdEnd].

(** The loop that sets bit [7 - i % 8] of byte [i / 8] for a directory. *)
Fixpoint mark_dirs (fs : list SevenZFile) (i : nat) (mask : list Z) : list Z :=
  match fs with
  | [] => mask
  | f :: rest =>
      mark_dirs rest (S i)
        (if is_dir f
         then alter (fun b => Byte (Z.lor b (Z.shiftl 1 (7 - Z.of_nat i mod 8))))
                    (i / 8)%nat mask
         else mask)
  end.

Definition has_dirs (fs : list SevenZFile) : bool := existsb is_dir fs.

Definition mask_size (fs : list SevenZFile) : nat := ((length fs + 7) / 8)%nat.

Definition empty_stream_mask (fs : list SevenZFile) : list Z :=
  mark_dirs fs 0 (replicate (mask_size fs) 0).

Definition empty_stream (fs : list SevenZFile) : list Z :=
  if has_dirs fs
  then [k7zIdEmptyStream] ++ WriteNumber (Z.of_nat (mask_size fs))
       ++ empty_stream_mask fs
  else [].

Definition names_size (fs : list SevenZFile) : Z :=
  fold_left (fun n f => u64 (n + (strlen (name f) + 1) * 2)) fs 0.

Definition names (fs : list SevenZFile) : list Z :=
  [k7zIdName] ++ WriteNumber (u64 (names_size fs + 1)) ++ [0]
  ++ flat_map (fun f => write_name_utf16 (name f)) fs.

Definition mtimes (fs : list SevenZFile) : list Z :=
  [k7zIdMTime] ++ WriteNumber (u64 (2 + 8 * Z.of_nat (length fs))) ++ [1; 0]
  ++ flat_map (fun f => le_bytes 8 (mtime f)) fs.

Definition attribs (fs : list SevenZFile) : list Z :=
  [k7zIdWinAttrib] ++ WriteNumber (u64 (2 + 4 * Z.of_nat (length fs))) ++ [1; 0]
  ++ flat_map (fun f => le_bytes 4 (attrib f)) fs.

Definition files_info (fs : list SevenZFile) : list Z :=
  [k7zIdFilesInfo] ++ WriteNumber (Z.of_nat (length fs))
  ++ empty_stream fs ++ names fs ++ mtimes fs ++ attribs fs
  ++ [k7zIdEnd].

Definition build_header (b : SevenZArchiveBuilder) (pack_size : Z) : list Z :=
  [k7zIdHeader]
  ++ [k7zIdMainStreamsInfo]
  ++ pack_info pack_size ++ unpack_info b ++ substreams_info (files b)
  ++ [k7zIdEnd]
  ++ files_info (files b)
  ++ [k7zIdEnd].

Definition header_capacity : Z := 65536.

(** *** [write_7z_archive]

    The header is written through a pointer into a buffer of
    [header_capacity] bytes with no bound check; the test "Ensure we didn't
    overflow" comes after the last write.  When the header is longer than the
    buffer the writes have run past its end, C gives the call no defined
    behaviour and the result is [None].  Otherwise the result is the error
    code and the stream as [fclose] leaves it.  ([fopen] of the output is
    taken to succeed; its failure returns [SEVENZIP_ERROR_OPEN_FILE] before
    anything is written.) *)
Definition write_7z_archive `{Lzma2Enc} (b : SevenZArchiveBuilder)
    : option (SevenZipErrorCode * FILE) :=
  let f := fopen_wb in
  let f := fwrite k7zSignature f in
  let f := fwrite [k7zMajorVersion; 4] f in
  let start_crc_pos := ftell f in
  let f := fwrite (le_bytes 4 0) f in
  let next_header_offset_pos := ftell f in
  let f := fwrite (le_bytes 8 0) f in
  let f := fwrite (le_bytes 8 0) f in
  let f := fwrite (le_bytes 4 0) f in
  match compress_all_files b with
  | (SEVENZIP_OK, b', pack_data) =>
      let pack_size := Z.of_nat (length (default [] pack_data)) in
      let pack_pos := ftell f in
      let f := match pack_data with
               | Some bytes => if 0 <? pack_size then fwrite bytes f else f
               | None => f
               end in
      let header := build_header b' pack_size in
      let actual_header_size := Z.of_nat (length header) in
      if header_capacity <? actual_header_size then None
      else
        let header_crc := CrcCalc header in
        let header_offset := ftell f - pack_pos in
        let f := fwrite header f in
        let f := fseek_set f next_header_offset_pos in
        let f := fwrite (le_bytes 8 header_offset) f in
        let header_size_field := actual_header_size in
        let f := fwrite (le_bytes 8 header_size_field) f in
        let f := fwrite (le_bytes 4 header_crc) f in
        let start_header := le_bytes 8 header_offset
                            ++ le_bytes 8 header_size_field
                            ++ le_bytes 4 header_crc in
        let start_header_crc := CrcCalc start_header in
        let f := fseek_set f start_crc_pos in
        let f := fwrite (le_bytes 4 start_header_crc) f in
        Some (SEVENZIP_OK, f)
  | (compress_err, _, _) => Some (compress_err, f)
  end.
(** *** Gathering the inputs *)

Definition add_entry (b : SevenZArchiveBuilder) (f : SevenZFile)
    : SevenZArchiveBuilder :=
  {| files := files b ++ [f]; props := props b;
     lzma2_prop_byte := lzma2_prop_byte b; use_copy_codec := use_copy_codec b |}.

(** The entry of one directory member, as [add_directory_recursive] fills
    it after [memset(file, 0, ...)]. *)
Definition member_entry (rel_path : string) (n : node) : SevenZFile :=
  {| name := rel_path;
     size := match n with Reg _ _ _ c => Z.of_nat (length c) | _ => 0 end;
     pack_size := 0;
     mtime := unix_to_filetime (st_mtime n);
     attrib := u32 (st_mode n);
     crc := 0;
     data := match n with Reg _ _ _ c => Some c | _ => None end;
     is_dir := match n with Dir _ _ _ _ => true | _ => false end |}.

(** One turn of the [readdir] loop of [add_directory_recursive] (POSIX
    variant) in the directory [dir_path]: the entry of the member is
    appended, then, for a directory, the function calls itself on the
    member's own entries. *)
Fixpoint add_member (n : node) (b : SevenZArchiveBuilder)
    (dir_path base_path : string) {struct n}
    : SevenZipErrorCode * SevenZArchiveBuilder :=
  if is_dot_entry (d_name n) then (SEVENZIP_OK, b)
  else
    let full_path := dir_path +:+ "/" +:+ d_name n in
    let rel_path := skip_slashes (drop_chars (String.length base_path) full_path) in
    let b1 := add_entry b (member_entry rel_path n) in
    match n with
    | Dir _ _ _ sub =>
        try_each (fun m b' => add_member m b' full_path base_path) sub b1
    | _ => (SEVENZIP_OK, b1)
    end.

(** [add_directory_recursive(builder, dir_path, base_path)], given the
    entries of [dir_path]. *)
Definition add_directory_recursive (b : SevenZArchiveBuilder)
    (dir_path base_path : string) (members : list node)
    : SevenZipErrorCode * SevenZArchiveBuilder :=
  try_each (fun m b' => add_member m b' dir_path base_path) members b.

(** The entry of an input path that is not a directory: the name is the
    last segment of the path, [is_dir] is 0, the data is read for a regular
    file only. *)
Definition input_entry (path : string) (n : node) : SevenZFile :=
  {| name := basename path;
     size := match n with Reg _ _ _ c => Z.of_nat (length c) | _ => 0 end;
     pack_size := match n with Reg _ _ _ c => Z.of_nat (length c) | _ => 0 end;
     mtime := unix_to_filetime (st_mtime n);
     attrib := u32 (st_mode n);
     crc := 0;
     data := match n with Reg _ _ _ c => Some c | _ => None end;
     is_dir := false |}.

(** One turn of the loop of [sevenzip_create_7z] over the input paths. *)
Definition add_input (i : input) (b : SevenZArchiveBuilder)
    : SevenZipErrorCode * SevenZArchiveBuilder :=
  match i with
  | (path, None) => (SEVENZIP_ERROR_OPEN_FILE, b)
  | (path, Some (Dir _ _ _ members)) => add_directory_recursive b path path members
  | (path, Some n) => (SEVENZIP_OK, add_entry b (input_entry path n))
  end.

Definition add_inputs (b : SevenZArchiveBuilder) (inputs : list input)
    : SevenZipErrorCode * SevenZArchiveBuilder :=
  try_each add_input inputs b.

(** *** [sevenzip_create_7z] *)

Definition default_opts : SevenZipCompressOptions :=
  {| co_num_threads := 2; co_dict_size := 0; co_solid := 1; co_password := None |}.

Definition dict_or (opts : SevenZipCompressOptions) (auto : Z) : Z :=
  if 0 <? co_dict_size opts then u32 (co_dict_size opts) else auto.

(** The thread settings and the [switch (level)]. *)
Definition level_props `{Lzma2Enc} (level : Z) (opts : SevenZipCompressOptions)
    : CLzma2EncProps * bool :=
  let p0 := Lzma2EncProps_Init in
  let p1 :=
    if 0 <? co_num_threads opts then
      let block_threads := if co_num_threads opts / 2 <? 1 then 1
                           else co_num_threads opts / 2 in
      {| lzma_level := lzma_level p0; lzma_dictSize := lzma_dictSize p0;
         lzma_numThreads := 2; numBlockThreads_Max := block_threads;
         numTotalThreads := co_num_threads opts; blockSize := 0 |}
    else p0 in
  let with_level (lv dict : Z) (two_blocks : bool) :=
    {| lzma_level := lv; lzma_dictSize := dict_or opts dict;
       lzma_numThreads := lzma_numThreads p1;
       numBlockThreads_Max :=
         if two_blocks && (co_num_threads opts =? 0) then 2
         else numBlockThreads_Max p1;
       numTotalThreads := numTotalThreads p1; blockSize := blockSize p1 |} in
  if level =? SEVENZIP_LEVEL_STORE then (with_level 0 (2 ^ 16) false, true)
  else if level =? SEVENZIP_LEVEL_FASTEST then (with_level 1 (2 ^ 18) false, false)
  else if level =? SEVENZIP_LEVEL_FAST then (with_level 3 (2 ^ 20) false, false)
  else if level =? SEVENZIP_LEVEL_NORMAL then (with_level 5 (2 ^ 23) true, false)
  else if level =? SEVENZIP_LEVEL_MAXIMUM then (with_level 7 (2 ^ 25) true, false)
  else if level =? SEVENZIP_LEVEL_ULTRA then (with_level 9 (2 ^ 26) true, false)
  else (with_level 5 (2 ^ 23) false, false).

(** [uninit] is the value the never-initialised field [lzma2_prop_byte] of
    the builder happens to hold.  [archive_path] and [input_paths] are not
    NULL.  The result is the error code and the files left on disk: nothing
    when gathering fails, else the archive as [write_7z_archive] leaves
    it; [None] when [write_7z_archive] runs past its header buffer. *)
Definition sevenzip_create_7z `{Lzma2Enc} (uninit : Z)
    (archive_path : string) (input_paths : list input) (level : Z)
    (options : option SevenZipCompressOptions)
    : option (SevenZipErrorCode * outputs) :=
  let opts := default default_opts options in
  let '(p, copy) := level_props level opts in
  let builder := {| files := []; props := Lzma2EncProps_Normalize p;
                    lzma2_prop_byte := uninit; use_copy_codec := copy |} in
  match add_inputs builder input_paths with
  | (SEVENZIP_OK, builder') =>
      match write_7z_archive builder' with
      | Some (result, f) => Some (result, {[ archive_path := f_data f ]})
      | None => None
      end
  | (err, _) => Some (err, ∅)
  end.

End ArchiveCreate.

(** [write_number] of archive_create_true_streaming.c: the same four short
    forms, then the nine-byte form for everything else.  The inner loop
    [for (i = 0; i < 8; i++) *p++ = (value >> (i * 8)) & 0xFF] is
    [write_number_loop]. *)
Module TrueStreaming.

Fixpoint write_number_loop (n : nat) (i : Z) (value : Z) : list Z :=
  match n with
  | O => []
  | S n' =>
      Byte (Z.land (Z.shiftr value (i * 8)) 0xFF)
        :: write_number_loop n' (i + 1) value
  end.

Definition write_number (value : Z) : list Z :=
  if value <? 0x80 then
    [Byte value]
  else if value <? Z.shiftl 1 14 then
    [Byte (Z.lor 0x80 (Z.shiftr value 8));
     Byte (Z.land value 0xFF)]
  else if value <? Z.shiftl 1 21 then
    [Byte (Z.lor 0xC0 (Z.land (Z.shiftr value 16) 0x1F));
     Byte (Z.land value 0xFF);
     Byte (Z.land (Z.shiftr value 8) 0xFF)]
  else if value <? Z.shiftl 1 28 then
    [Byte (Z.lor 0xE0 (Z.land (Z.shiftr value 24) 0x0F));
     Byte (Z.land value 0xFF);
     Byte (Z.land (Z.shiftr value 8) 0xFF);
     Byte (Z.land (Z.shiftr value 16) 0xFF)]
  else
    0xFF :: write_number_loop 8 0 value.

(** *** The streaming builder: metadata only, data is read from
    [full_path] when it is compressed. *)
Record FileMetadata : Type := {
  name : string;
  full_path : string;
  size : Z;
  mtime : Z;
  attrib : Z;
  crc : Z;
  is_directory : bool
}.

Record StreamingArchiveBuilder : Type := {
  files : list FileMetadata;
  lzma2_prop_byte : Z;
  total_uncompressed : Z;
  bytes_processed : Z;
  packed_size : Z;
  chunk_size : Z
}.

Definition STREAMING_CHUNK_SIZE : Z := 64 * 1024 * 1024.
Definition STREAMING_DICT_SIZE : Z := 32 * 1024 * 1024.

Definition builder_init : StreamingArchiveBuilder :=
  {| files := []; lzma2_prop_byte := 0; total_uncompressed := 0;
     bytes_processed := 0; packed_size := 0;
     chunk_size := STREAMING_CHUNK_SIZE |}.

Definition builder_add_file (b : StreamingArchiveBuilder)
    (full_path relative_name : string) (size mtime attrib : Z) (is_dir : bool)
    : StreamingArchiveBuilder :=
  let file := {| name := relative_name; full_path := full_path; size := size;
                 mtime := mtime; attrib := attrib; crc := 0;
                 is_directory := is_dir |} in
  {| files := files b ++ [file];
     lzma2_prop_byte := lzma2_prop_byte b;
     total_uncompressed :=
       if is_dir then total_uncompressed b else u64 (total_uncompressed b + size);
     bytes_processed := bytes_processed b;
     packed_size := packed_size b;
     chunk_size := chunk_size b |}.

(** *** The header block of the streaming writer *)

Definition pack_info (data_size : Z) : list Z :=
  [0x06] ++ write_number 0 ++ write_number 1
  ++ [0x09] ++ write_number data_size ++ [0x00].

Definition unpack_info (b : StreamingArchiveBuilder) : list Z :=
  [0x07; 0x0B] ++ write_number 1 ++ [0x01; 0x00]
  ++ [0x0C] ++ write_number (total_uncompressed b) ++ [0x00].

Definition is_stream (f : FileMetadata) : bool :=
  negb (is_directory f) && (0 <? size f).

Definition file_stream_count (fs : list FileMetadata) : Z :=
  fold_left (fun n f => if is_stream f then n + 1 else n) fs 0.

(** The test that guards a size: [i < file_count - 1] or the last entry of
    the list is a directory.  ([file_count - 1] is a [size_t].) *)
Definition last_is_directory (all : list FileMetadata) : bool :=
  match last all with
  | Some f => is_directory f
  | None => false
  end.

Fixpoint write_sizes (all fs : list FileMetadata) (i : Z) : list Z :=
  match fs with
  | [] => []
  | f :: rest =>
      (if is_stream f then
         if (i <? u64 (Z.of_nat (length all) - 1)) || last_is_directory all
         then write_number (size f) else []
       else [])
      ++ write_sizes all rest (i + 1)
  end.

Definition crc_values (fs : list FileMetadata) : list Z :=
  flat_map (fun f =>
              if is_stream f
              then [Byte (Z.land (crc f) 0xFF);
                    Byte (Z.land (Z.shiftr (crc f) 8) 0xFF);
                    Byte (Z.land (Z.shiftr (crc f) 16) 0xFF);
                    Byte (Z.land (Z.shiftr (crc f) 24) 0xFF)]
              else []) fs.

Definition substreams_info (fs : list FileMetadata) : list Z :=
  if 1 <? file_stream_count fs then
    [0x08; 0x0D] ++ write_number (file_stream_count fs)
    ++ [0x09] ++ write_sizes fs fs 0
    ++ [0x0A; 0x01] ++ crc_values fs
    ++ [0x00]
  else [].

Definition names_size (fs : list FileMetadata) : Z :=
  fold_left (fun n f => u64 (n + (strlen (name f) + 1) * 2)) fs 1.

Definition names (fs : list FileMetadata) : list Z :=
  [0x11] ++ write_number (names_size fs) ++ [0x00]
  ++ flat_map (fun f => write_name_utf16 (name f)) fs.

(** The loop that sets bit [0x80 >> (i % 8)] of byte [i / 8] for a
    directory. *)
Fixpoint mark_dirs (fs : list FileMetadata) (i : nat) (bits : list Z) : list Z :=
  match fs with
  | [] => bits
  | f :: rest =>
      mark_dirs rest (S i)
        (if is_directory f
         then alter (fun b => Byte (Z.lor b (Z.shiftr 0x80 (Z.of_nat i mod 8))))
                    (i / 8)%nat bits
         else bits)
  end.

Definition has_dirs (fs : list FileMetadata) : bool := existsb is_directory fs.

Definition bit_bytes (fs : list FileMetadata) : nat := ((length fs + 7) / 8)%nat.

Definition empty_stream_bits (fs : list FileMetadata) : list Z :=
  mark_dirs fs 0 (replicate (bit_bytes fs) 0).

Definition empty_stream (fs : list FileMetadata) : list Z :=
  if has_dirs fs
  then [0x0E] ++ write_number (Z.of_nat (bit_bytes fs)) ++ empty_stream_bits fs
  else [].

Definition mtimes (fs : list FileMetadata) : list Z :=
  [0x14] ++ write_number (u64 (2 + Z.of_nat (length fs) * 8)) ++ [0x01; 0x00]
  ++ flat_map (fun f => write_number_loop 8 0 (mtime f)) fs.

Definition build_header (b : StreamingArchiveBuilder) (data_size : Z) : list Z :=
  [0x04]
  ++ pack_info data_size ++ unpack_info b ++ substreams_info (files b)
  ++ [0x00]
  ++ [0x05] ++ write_number (Z.of_nat (length (files b)))
  ++ names (files b) ++ empty_stream (files b) ++ mtimes (files b)
  ++ [0x00; 0x00].

(** *** [write_7z_archive]: copying the packed data from the temporary file *)

(** The copy loop: up to 65536 bytes per turn, until [remaining] is zero or
    the temporary file has nothing more.  [temp] is what is left to read.
    Each turn moves at least one byte, so [fuel] above [remaining] is
    enough. *)
Fixpoint copy_temp (fuel : nat) (temp : list Z) (remaining : Z) (archive : FILE)
    : FILE :=
  match fuel with
  | O => archive
  | S fuel' =>
      if 0 <? remaining then
        let to_copy := if remaining <? 65536 then remaining else 65536 in
        let buffer := take (Z.to_nat to_copy) temp in
        if (length buffer =? 0)%nat then archive
        else copy_temp fuel' (drop (Z.to_nat to_copy) temp)
                       (remaining - Z.of_nat (length buffer))
                       (fwrite buffer archive)
      else archive
  end.

(** The size of the buffer that is allocated for the header. *)
Definition header_capacity (b : StreamingArchiveBuilder) : Z :=
  u64 (4096 + Z.of_nat (length (files b)) * 512).

(** [temp_data] is the content of the temporary file, read from its
    start.  The header is written through a pointer into a buffer of
    [header_capacity] bytes with no bound check: when the header is longer
    than the buffer, the writes run past its end, C gives the call no
    defined behaviour and the result is [None]. *)
Definition write_7z_archive (b : StreamingArchiveBuilder)
    (temp_data : list Z) (data_size : Z) : option (SevenZipErrorCode * FILE) :=
  let archive := fopen_wb in
  let archive := fwrite k7zSignature archive in
  let archive := fwrite [0; 4] archive in
  let start_header_pos := ftell archive in
  let archive := fwrite (le_bytes 4 0) archive in
  let next_header_offset := data_size in
  let archive := fwrite (le_bytes 8 next_header_offset) archive in
  let header_size_pos := ftell archive in
  let archive := fwrite (le_bytes 8 0) archive in
  let archive := fwrite (le_bytes 4 0) archive in
  let archive := copy_temp (S (Z.to_nat data_size)) temp_data data_size archive in
  let header := build_header b data_size in
  let header_size := Z.of_nat (length header) in
  if header_capacity b <? header_size then None
  else
    let archive := fwrite header archive in
    let next_header_crc := CrcCalc header in
    let next_header_size := header_size in
    let archive := fseek_set archive header_size_pos in
    let archive := fwrite (le_bytes 8 next_header_size) archive in
    let archive := fwrite (le_bytes 4 next_header_crc) archive in
    let start_header := le_bytes 8 next_header_offset
                        ++ le_bytes 8 next_header_size
                        ++ le_bytes 4 next_header_crc in
    let start_header_crc := CrcCalc start_header in
    let archive := fseek_set archive start_header_pos in
    let archive := fwrite (le_bytes 4 start_header_crc) archive in
    Some (SEVENZIP_OK, archive).
(** *** [compress_files_streaming]

    [disk path] is what [fopen(path, "rb")] and the reads that follow
    deliver: [None] when the file cannot be opened. *)

Definition with_threads (p : CLzma2EncProps) (num_threads : Z) : CLzma2EncProps :=
  if 0 <? num_threads then
    let block_threads := if num_threads / 2 <? 1 then 1 else num_threads / 2 in
    {| lzma_level := lzma_level p; lzma_dictSize := lzma_dictSize p;
       lzma_numThreads := 2; numBlockThreads_Max := block_threads;
       numTotalThreads := num_threads; blockSize := blockSize p |}
  else p.

Definition streaming_props `{Lzma2Enc} (level num_threads : Z) : CLzma2EncProps :=
  let p := Lzma2EncProps_Init in
  with_threads
    {| lzma_level := level; lzma_dictSize := STREAMING_DICT_SIZE;
       lzma_numThreads := lzma_numThreads p;
       numBlockThreads_Max := numBlockThreads_Max p;
       numTotalThreads := numTotalThreads p; blockSize := blockSize p |}
    num_threads.

(** The chunk loop of one file: [input] is what is left to read.  Each turn
    reads at least one byte, so [fuel] above [size] is enough. *)
Fixpoint compress_chunks (fuel : nat) (input : list Z) (size chunk_size : Z)
    (file_bytes_read crc : Z) (temp : FILE) (packed : Z) : Z * FILE * Z :=
  match fuel with
  | O => (crc, temp, packed)
  | S fuel' =>
      if file_bytes_read <? size then
        let to_read := if size <? file_bytes_read + chunk_size
                       then size - file_bytes_read else chunk_size in
        let chunk := take (Z.to_nat to_read) input in
        if (length chunk =? 0)%nat then (crc, temp, packed)
        else
          compress_chunks fuel' (drop (Z.to_nat to_read) input) size chunk_size
            (file_bytes_read + Z.of_nat (length chunk))
            (CrcUpdate crc chunk) (fwrite chunk temp)
            (packed + Z.of_nat (length chunk))
      else (crc, temp, packed)
  end.

Definition with_crc (f : FileMetadata) (c : Z) : FileMetadata :=
  {| name := name f; full_path := full_path f; size := size f;
     mtime := mtime f; attrib := attrib f; crc := c;
     is_directory := is_directory f |}.

(** The loop over the files: the entries already visited, the temporary
    file and the packed size so far. *)
Fixpoint compress_each (disk : string -> option (list Z)) (chunk_size : Z)
    (fs done : list FileMetadata) (temp : FILE) (packed : Z)
    : SevenZipErrorCode * list FileMetadata * FILE * Z :=
  match fs with
  | [] => (SEVENZIP_OK, done, temp, packed)
  | file :: rest =>
      if is_directory file || (size file =? 0)
      then compress_each disk chunk_size rest (done ++ [file]) temp packed
      else
        match disk (full_path file) with
        | None => (SEVENZIP_ERROR_OPEN_FILE, done ++ file :: rest, temp, packed)
        | Some input =>
            let '(crc, temp', packed') :=
              compress_chunks (S (Z.to_nat (size file))) input (size file)
                              chunk_size 0 CRC_INIT_VAL temp packed in
            compress_each disk chunk_size rest
              (done ++ [with_crc file (CRC_GET_DIGEST crc)]) temp' packed'
        end
  end.

Definition compress_files_streaming `{Lzma2Enc}
    (disk : string -> option (list Z)) (b : StreamingArchiveBuilder)
    (temp_output : FILE) (level num_threads : Z)
    : SevenZipErrorCode * StreamingArchiveBuilder * FILE :=
  let props := streaming_props level num_threads in
  if negb (Lzma2Enc_SetProps props) then (SEVENZIP_ERROR_COMPRESS, b, temp_output)
  else
    let prop := Lzma2Enc_WriteProperties props in
    let '(err, fs, temp, packed) :=
      compress_each disk (chunk_size b) (files b) [] temp_output 0 in
    (err,
     {| files := fs; lzma2_prop_byte := prop;
        total_uncompressed := total_uncompressed b;
        bytes_processed := bytes_processed b + packed;
        packed_size := packed; chunk_size := chunk_size b |},
     temp).

(** *** Phase 1: scanning *)

(** [scan_file(builder, full_path, relative_name)] on what [stat] finds at
    [full_path]; for a directory it appends the directory's own entry and
    runs the [readdir] loop of [scan_directory_recursive] on its entries. *)
Fixpoint scan_file (n : node) (b : StreamingArchiveBuilder)
    (full_path relative_name : string) {struct n}
    : SevenZipErrorCode * StreamingArchiveBuilder :=
  match n with
  | Dir _ mode t members =>
      let b1 := builder_add_file b full_path relative_name 0
                  (unix_to_filetime t) (u32 mode) true in
      try_each
        (fun m b' =>
           if is_dot_entry (d_name m) then (SEVENZIP_OK, b')
           else scan_file m b' (full_path +:+ "/" +:+ d_name m)
                          (relative_name +:+ "/" +:+ d_name m))
        members b1
  | Reg _ mode t c =>
      (SEVENZIP_OK,
       builder_add_file b full_path relative_name (Z.of_nat (length c))
         (unix_to_filetime t) (u32 mode) false)
  | Special _ _ _ => (SEVENZIP_OK, b)
  end.

(** One turn of the loop over the input paths. *)
Definition scan_input (i : input) (b : StreamingArchiveBuilder)
    : SevenZipErrorCode * StreamingArchiveBuilder :=
  match i with
  | (path, None) => (SEVENZIP_ERROR_OPEN_FILE, b)
  | (path, Some n) => scan_file n b path (basename path)
  end.

Definition with_chunk_size (b : StreamingArchiveBuilder) (c : Z)
    : StreamingArchiveBuilder :=
  {| files := files b; lzma2_prop_byte := lzma2_prop_byte b;
     total_uncompressed := total_uncompressed b;
     bytes_processed := bytes_processed b; packed_size := packed_size b;
     chunk_size := c |}.

(** *** [sevenzip_create_7z_true_streaming]

    [archive_path] and [input_paths] are not NULL and the temporary file
    can be created.  The result is the error code and the files left on
    disk (the temporary file is removed on every path); [None] when
    [write_7z_archive] runs past its header buffer. *)
Definition sevenzip_create_7z_true_streaming `{Lzma2Enc}
    (disk : string -> option (list Z))
    (archive_path : string) (input_paths : list input) (level : Z)
    (options : option SevenZipStreamOptions)
    : option (SevenZipErrorCode * outputs) :=
  let builder := builder_init in
  let num_threads := match options with
                     | Some o => so_num_threads o
                     | None => 2
                     end in
  let builder := match options with
                 | Some o => if 0 <? so_chunk_size o
                             then with_chunk_size builder (so_chunk_size o)
                             else builder
                 | None => builder
                 end in
  match try_each scan_input input_paths builder with
  | (SEVENZIP_OK, builder) =>
      match compress_files_streaming disk builder fopen_wb level num_threads with
      | (SEVENZIP_OK, builder, temp_file) =>
          match write_7z_archive builder (f_data temp_file) (packed_size builder) with
          | Some (err, archive) => Some (err, {[ archive_path := f_data archive ]})
          | None => None
          end
      | (err, _, _) => Some (err, ∅)
      end
  | (err, _) => Some (err, ∅)
  end.

End TrueStreaming.

(** ** archive_create_multivolume.c *)
Module MultiVolume.

(** [WriteNumber] is the same text as in archive_create.c. *)
Definition WriteNumber := ArchiveCreate.WriteNumber.

(** [is_data_compressible]: the same loops as in archive_create.c, with
    the limit 200. *)
Definition is_data_compressible (data : list Z) : bool :=
  let size := Z.of_nat (length data) in
  if size <? 1024 then true
  else
    let sample_size := if size <? 65536 then size else 65536 in
    let freq := ArchiveCreate.count_frequencies
                  (take (Z.to_nat sample_size) data) (replicate 256 0) in
    let threshold := sample_size / 512 in
    ArchiveCreate.count_unique freq threshold <? 200.

(** *** The multi-volume context

    The volume files in the order they were opened; volume [k] (from 0) is
    the file [base_path.NNN] with [NNN = k + 1].  Opening a volume does not
    fail and the progress callback is left out. *)
Record MultiVolumeContext : Type := {
  volumes : list FILE;
  current_volume_size : Z;
  max_volume_size : Z;
  base_path : string;
  total_packed_size : Z;
  total_size : Z;
  bytes_written : Z
}.

(** [get_volume_filename]: [base.%03d] of [index + 1]. *)
Definition get_volume_filename (base : string) (index : Z) : string :=
  base +:+ "." +:+ fmt_03d (index + 1).

(** [open_new_volume] *)
Definition open_new_volume (ctx : MultiVolumeContext) : MultiVolumeContext :=
  {| volumes := volumes ctx ++ [fopen_wb]; current_volume_size := 0;
     max_volume_size := max_volume_size ctx; base_path := base_path ctx;
     total_packed_size := total_packed_size ctx; total_size := total_size ctx;
     bytes_written := bytes_written ctx |}.

(** [fwrite] to the volume opened last. *)
Definition write_current (ctx : MultiVolumeContext) (bytes : list Z)
    : MultiVolumeContext :=
  {| volumes := alter (fwrite bytes) (length (volumes ctx) - 1)%nat (volumes ctx);
     current_volume_size := u64 (current_volume_size ctx + Z.of_nat (length bytes));
     max_volume_size := max_volume_size ctx; base_path := base_path ctx;
     total_packed_size := total_packed_size ctx; total_size := total_size ctx;
     bytes_written := u64 (bytes_written ctx + Z.of_nat (length bytes)) |}.

(** [write_across_volumes]: [src] is what is left to write.  With a
    positive [max_volume_size] every turn writes at least one byte, so
    [fuel] above the length of the data is enough. *)
Fixpoint write_across_volumes (fuel : nat) (ctx : MultiVolumeContext)
    (src : list Z) : MultiVolumeContext :=
  match fuel with
  | O => ctx
  | S fuel' =>
      if (0 <? length src)%nat then
        let ctx1 :=
          if (length (volumes ctx) =? 0)%nat
             || (max_volume_size ctx <=? current_volume_size ctx)
          then open_new_volume ctx else ctx in
        let space_in_volume := u64 (max_volume_size ctx1 - current_volume_size ctx1) in
        let to_write := if Z.of_nat (length src) <? space_in_volume
                        then Z.of_nat (length src) else space_in_volume in
        write_across_volumes fuel'
          (write_current ctx1 (take (Z.to_nat to_write) src))
          (drop (Z.to_nat to_write) src)
      else ctx
  end.

Definition write_all (ctx : MultiVolumeContext) (data : list Z)
    : MultiVolumeContext :=
  write_across_volumes (S (length data)) ctx data.

(** *** The buffered output stream of the encoder *)

Definition STREAM_BUFFER_SIZE : Z := 32 * 1024 * 1024.

Record VolumeOutStream : Type := {
  vos_ctx : MultiVolumeContext;
  vos_packed_size : Z;
  vos_buffer : list Z
}.

(** [VolumeOutStream_Flush] *)
Definition VolumeOutStream_Flush (s : VolumeOutStream) : VolumeOutStream :=
  if (0 <? length (vos_buffer s))%nat then
    {| vos_ctx := write_all (vos_ctx s) (vos_buffer s);
       vos_packed_size := u64 (vos_packed_size s + Z.of_nat (length (vos_buffer s)));
       vos_buffer := [] |}
  else s.

(** The loop of [VolumeOutStream_Write] that fills the buffer and flushes
    it when it is full; [src] is what is left. *)
Fixpoint buffer_writes (fuel : nat) (s : VolumeOutStream) (src : list Z)
    : VolumeOutStream :=
  match fuel with
  | O => s
  | S fuel' =>
      if (0 <? length src)%nat then
        let space := STREAM_BUFFER_SIZE - Z.of_nat (length (vos_buffer s)) in
        let copy := if Z.of_nat (length src) <? space then Z.of_nat (length src)
                    else space in
        let s1 := {| vos_ctx := vos_ctx s; vos_packed_size := vos_packed_size s;
                     vos_buffer := vos_buffer s ++ take (Z.to_nat copy) src |} in
        let s2 := if STREAM_BUFFER_SIZE <=? Z.of_nat (length (vos_buffer s1))
                  then VolumeOutStream_Flush s1 else s1 in
        buffer_writes fuel' s2 (drop (Z.to_nat copy) src)
      else s
  end.

(** [VolumeOutStream_Write] *)
Definition VolumeOutStream_Write (s : VolumeOutStream) (buf : list Z)
    : VolumeOutStream :=
  if STREAM_BUFFER_SIZE <=? Z.of_nat (length buf) then
    let s1 := VolumeOutStream_Flush s in
    {| vos_ctx := write_all (vos_ctx s1) buf;
       vos_packed_size := u64 (vos_packed_size s1 + Z.of_nat (length buf));
       vos_buffer := vos_buffer s1 |}
  else buffer_writes (S (length buf)) s buf.

(** *** File entries *)
Record MV_FileEntry : Type := {
  name : string;
  full_path : string;
  size : Z;
  mtime : Z;
  attrib : Z;
  crc : Z;
  lzma2_prop : Z;
  is_dir : bool
}.

Definition S_IWUSR : Z := 128.

(** The entry that the macro [ADD_FILE_ENTRY] fills from [stat]. *)
Definition file_entry (full_path relative_name : string) (n : node)
    : MV_FileEntry :=
  {| name := relative_name; full_path := full_path;
     size := match n with Reg _ _ _ c => Z.of_nat (length c) | _ => 0 end;
     mtime := unix_to_filetime (st_mtime n);
     attrib := if Z.land (st_mode n) S_IWUSR =? 0 then Z.lor 0x20 0x01 else 0x20;
     crc := 0; lzma2_prop := 0; is_dir := false |}.

(** *** Storing and compressing one file

    [read path] is what the file holds when it is opened for compression:
    [None] when it cannot be opened. *)

(** The chunk loop of [store_file_uncompressed] without mapped data;
    [input] is what is left of the file. *)
Fixpoint store_chunks (fuel : nat) (input : list Z) (buf_size remaining : Z)
    (crc : Z) (ctx : MultiVolumeContext) : Z * MultiVolumeContext :=
  match fuel with
  | O => (crc, ctx)
  | S fuel' =>
      if 0 <? remaining then
        let to_read := if remaining <? buf_size then remaining else buf_size in
        let got := take (Z.to_nat to_read) input in
        if (length got =? 0)%nat then (crc, ctx)
        else store_chunks fuel' (drop (Z.to_nat to_read) input) buf_size
                          (remaining - Z.of_nat (length got))
                          (CrcUpdate crc got) (write_all ctx got)
      else (crc, ctx)
  end.

(** [store_file_uncompressed]: the result code, the context, the CRC and
    the packed size reported. *)
Definition store_file_uncompressed (read : string -> option (list Z))
    (file_path : string) (mapped_data : option (list Z)) (file_size : Z)
    (ctx : MultiVolumeContext) : SRes * MultiVolumeContext * Z * Z :=
  match mapped_data with
  | Some mapped =>
      (SZ_OK, write_all ctx mapped,
       CRC_GET_DIGEST (CrcUpdate CRC_INIT_VAL mapped), file_size)
  | None =>
      match read file_path with
      | None => (SZ_ERROR_READ, ctx, 0, 0)
      | Some input =>
          let buf_size := if 4 * 1024 * 1024 * 1024 <? file_size
                          then 64 * 1024 else STREAM_BUFFER_SIZE in
          let '(crc, ctx') :=
            store_chunks (S (Z.to_nat file_size)) input buf_size file_size
                         CRC_INIT_VAL ctx in
          (SZ_OK, ctx', CRC_GET_DIGEST crc, file_size)
      end
  end.

(** The encoder run of [compress_file_streaming] on the whole file: every
    buffer the encoder hands to [VolumeOutStream_Write], then the flush when
    the encoder succeeded. *)
Definition encode_to_volumes `{Lzma2Enc} (props : CLzma2EncProps)
    (input : list Z) (ctx : MultiVolumeContext)
    : SRes * MultiVolumeContext * Z * Z * Z :=
  if negb (Lzma2Enc_SetProps props) then (SZ_ERROR_PARAM, ctx, 0, 0, 0)
  else
    let prop := Lzma2Enc_WriteProperties props in
    let '(res, writes) := Lzma2Enc_Encode2_stream props input in
    let s := fold_left VolumeOutStream_Write writes
               {| vos_ctx := ctx; vos_packed_size := 0; vos_buffer := [] |} in
    match res with
    | SZ_OK =>
        let s := VolumeOutStream_Flush s in
        (SZ_OK, vos_ctx s, CRC_GET_DIGEST (CrcUpdate CRC_INIT_VAL input),
         vos_packed_size s, prop)
    | _ => (res, vos_ctx s, 0, 0, prop)
    end.

(** [compress_file_streaming] (POSIX variant): the file is mapped unless it
    is empty, in which case [mmap] fails and the stdio path is taken; both
    paths run the encoder on the whole file.  The result is the result code,
    the context, the CRC, the packed size and the property byte. *)
Definition compress_file_streaming `{Lzma2Enc} (read : string -> option (list Z))
    (file_path : string) (ctx : MultiVolumeContext) (props : CLzma2EncProps)
    : SRes * MultiVolumeContext * Z * Z * Z :=
  match read file_path with
  | None => (SZ_ERROR_READ, ctx, 0, 0, 0)
  | Some mapped =>
      let file_size := Z.of_nat (length mapped) in
      if (file_size =? 0) then encode_to_volumes props mapped ctx
      else
        let compressible := is_data_compressible mapped in
        if (1024 * 1024 <? file_size) && negb compressible then
          let '(res, ctx', crc, packed) :=
            store_file_uncompressed read file_path (Some mapped) file_size ctx in
          (res, ctx', crc, packed, 0)
        else encode_to_volumes props mapped ctx
  end.

(** *** [build_7z_header] *)

Definition pack_info (total_packed_size : Z) : list Z :=
  [k7zIdPackInfo] ++ WriteNumber 0 ++ WriteNumber 1
  ++ [k7zIdSize] ++ WriteNumber total_packed_size ++ [k7zIdEnd].

(** The property byte of the first entry that is not a directory, 0x01 when
    there is none. *)
Fixpoint first_prop_byte (fs : list MV_FileEntry) : Z :=
  match fs with
  | [] => 0x01
  | f :: rest => if is_dir f then first_prop_byte rest else Byte (lzma2_prop f)
  end.

Definition coder_spec (fs : list MV_FileEntry) : list Z :=
  let prop_byte := first_prop_byte fs in
  if prop_byte =? 0 then [0x01; 0x00] else [0x21; 0x21; 1; prop_byte].

Definition total_unpack (fs : list MV_FileEntry) : Z :=
  fold_left (fun total f => if is_dir f then total else u64 (total + size f)) fs 0.

Definition num_files (fs : list MV_FileEntry) : Z :=
  fold_left (fun n f => if is_dir f then n else n + 1) fs 0.

Fixpoint write_sizes (fs : list MV_FileEntry) (written n : Z) : list Z :=
  match fs with
  | [] => []
  | f :: rest =>
      if written <? n - 1 then
        if is_dir f then write_sizes rest written n
        else WriteNumber (size f) ++ write_sizes rest (written + 1) n
      else []
  end.

Definition substreams_info (fs : list MV_FileEntry) : list Z :=
  [k7zIdSubStreamsInfo; k7zIdNumUnpackStream] ++ WriteNumber (num_files fs)
  ++ (if 1 <? num_files fs then [k7zIdSize] ++ write_sizes fs 0 (num_files fs)
      else [])
  ++ [k7zIdCRC; 1]
  ++ flat_map (fun f => if is_dir f then [] else le_bytes 4 (crc f)) fs
  ++ [k7zIdEnd].

Definition names_size (fs : list MV_FileEntry) : Z :=
  fold_left (fun n f => u64 (n + (strlen (name f) + 1) * 2)) fs 0.

Definition files_info (fs : list MV_FileEntry) : list Z :=
  [k7zIdFilesInfo] ++ WriteNumber (Z.of_nat (length fs))
  ++ [k7zIdName] ++ WriteNumber (u64 (names_size fs + 1)) ++ [0]
  ++ flat_map (fun f => write_name_utf16 (name f)) fs
  ++ [k7zIdMTime] ++ WriteNumber (u64 (Z.of_nat (length fs) * 8 + 2)) ++ [1; 0]
  ++ flat_map (fun f => le_bytes 8 (mtime f)) fs
  ++ [k7zIdWinAttrib] ++ WriteNumber (u64 (Z.of_nat (length fs) * 4 + 2)) ++ [1; 0]
  ++ flat_map (fun f => le_bytes 4 (attrib f)) fs
  ++ [k7zIdEnd].

(** What [build_7z_header] writes through its pointer. *)
Definition header_bytes (fs : list MV_FileEntry) (total_packed_size : Z)
    : list Z :=
  [k7zIdHeader; k7zIdMainStreamsInfo]
  ++ pack_info total_packed_size
  ++ [k7zIdUnpackInfo; k7zIdFolder]
  ++ WriteNumber 1 ++ WriteNumber 0 ++ WriteNumber 1
  ++ coder_spec fs
  ++ [k7zIdCodersUnpackSize] ++ WriteNumber (total_unpack fs) ++ [k7zIdEnd]
  ++ substreams_info fs
  ++ [k7zIdEnd]
  ++ files_info fs
  ++ [k7zIdEnd].

Definition header_capacity : Z := 256 * 1024.

(** The buffer has [header_capacity] bytes and no write is checked against
    it: [None] when the header is longer, where the writes run past the end
    of the buffer and C gives the call no defined behaviour. *)
Definition build_7z_header (fs : list MV_FileEntry) (total_packed_size : Z)
    : option (list Z) :=
  let header := header_bytes fs total_packed_size in
  if header_capacity <? Z.of_nat (length header) then None else Some header.
(** *** Gathering the inputs of [sevenzip_create_multivolume_7z_complete] *)

(** One turn of the [readdir] loop on [current_dir]: a directory is pushed
    on the stack, a regular file gets an entry, anything else is passed
    over. *)
Definition visit_member (base_dir_name : string) (base_path_len : nat)
    (current_dir : string)
    (state : list (string * list node) * list MV_FileEntry) (m : node)
    : list (string * list node) * list MV_FileEntry :=
  let '(stack, entries) := state in
  if is_dot_entry (d_name m) then state
  else
    let full_path := current_dir +:+ "/" +:+ d_name m in
    match m with
    | Dir _ _ _ sub => (stack ++ [(full_path, sub)], entries)
    | Reg _ _ _ _ =>
        let relative_name := base_dir_name +:+ drop_chars base_path_len full_path in
        (stack, entries ++ [file_entry full_path relative_name m])
    | Special _ _ _ => state
    end.

(** The loop [while (stack_size > 0)]: the directory on top of the stack is
    taken off and read.  Each turn takes one directory off, so [fuel] above
    the number of directories below the input path is enough. *)
Fixpoint walk_stack (fuel : nat) (base_dir_name : string) (base_path_len : nat)
    (stack : list (string * list node)) (entries : list MV_FileEntry)
    : list MV_FileEntry :=
  match fuel with
  | O => entries
  | S fuel' =>
      match last stack with
      | None => entries
      | Some (current_dir, members) =>
          let '(stack', entries') :=
            fold_left (visit_member base_dir_name base_path_len current_dir)
                      members (removelast stack, entries) in
          walk_stack fuel' base_dir_name base_path_len stack' entries'
      end
  end.

(** Number of directories in a tree, the root included. *)
Fixpoint directories (n : node) : nat :=
  match n with
  | Dir _ _ _ sub => S (list_sum (map directories sub))
  | _ => O
  end.

(** One turn of the loop over the input paths. *)
Definition gather_input (entries : list MV_FileEntry) (i : input)
    : list MV_FileEntry :=
  match i with
  | (path, None) => entries
  | (path, Some (Reg _ _ _ _ as n)) =>
      entries ++ [file_entry path (default path (after_last "/"%char path)) n]
  | (path, Some (Dir _ _ _ members as n)) =>
      walk_stack (S (directories n)) (default path (after_last "/"%char path))
                 (String.length path) [(path, members)] entries
  | (path, Some (Special _ _ _)) => entries
  end.

(** *** [sevenzip_create_multivolume_7z_complete] *)

Definition level_to_lzma (level : Z) : Z :=
  if level =? SEVENZIP_LEVEL_STORE then 0
  else if level =? SEVENZIP_LEVEL_FASTEST then 1
  else if level =? SEVENZIP_LEVEL_FAST then 3
  else if level =? SEVENZIP_LEVEL_NORMAL then 5
  else if level =? SEVENZIP_LEVEL_MAXIMUM then 7
  else if level =? SEVENZIP_LEVEL_ULTRA then 9
  else 5.

Definition encoder_props `{Lzma2Enc} (level : Z) (options : SevenZipStreamOptions)
    : CLzma2EncProps :=
  let p := Lzma2EncProps_Init in
  let threaded := 0 <? so_num_threads options in
  Lzma2EncProps_Normalize
    {| lzma_level := level_to_lzma level;
       lzma_dictSize := if 0 <? so_dict_size options then u32 (so_dict_size options)
                        else lzma_dictSize p;
       lzma_numThreads := if threaded then 2 else lzma_numThreads p;
       numBlockThreads_Max := if threaded then so_num_threads options
                              else numBlockThreads_Max p;
       numTotalThreads := if threaded then so_num_threads options
                          else numTotalThreads p;
       blockSize := if threaded then 2 ^ 26 else blockSize p |}.

Definition with_result (f : MV_FileEntry) (c prop : Z) : MV_FileEntry :=
  {| name := name f; full_path := full_path f; size := size f;
     mtime := mtime f; attrib := attrib f; crc := c; lzma2_prop := prop;
     is_dir := is_dir f |}.

Definition add_packed (ctx : MultiVolumeContext) (packed : Z)
    : MultiVolumeContext :=
  {| volumes := volumes ctx; current_volume_size := current_volume_size ctx;
     max_volume_size := max_volume_size ctx; base_path := base_path ctx;
     total_packed_size := u64 (total_packed_size ctx + packed);
     total_size := total_size ctx; bytes_written := bytes_written ctx |}.

(** The loop "Process each file": the entries already processed and the
    context; a result other than [SZ_OK] ends it. *)
Fixpoint process_files `{Lzma2Enc} (read : string -> option (list Z))
    (use_store_mode : bool) (props : CLzma2EncProps)
    (fs done : list MV_FileEntry) (ctx : MultiVolumeContext)
    : SRes * list MV_FileEntry * MultiVolumeContext :=
  match fs with
  | [] => (SZ_OK, done, ctx)
  | file :: rest =>
      if is_dir file
      then process_files read use_store_mode props rest
                         (done ++ [with_result file 0 0]) ctx
      else
        let '(res, ctx', crc, packed, prop) :=
          if use_store_mode then
            let '(res, ctx', crc, packed) :=
              store_file_uncompressed read (full_path file) None (size file) ctx in
            (res, ctx', crc, packed, 0)
          else compress_file_streaming read (full_path file) ctx props in
        match res with
        | SZ_OK =>
            process_files read use_store_mode props rest
                          (done ++ [with_result file crc prop])
                          (add_packed ctx' packed)
        | _ => (res, done ++ with_result file 0 prop :: rest, ctx')
        end
  end.

(** The first volume as the function prepares it: the signature, the
    version and 24 zero bytes, written past [write_across_volumes]. *)
Definition start_context (archive_path : string) (split_size total : Z)
    : MultiVolumeContext :=
  let first_vol := fwrite (replicate 24 0)
                     (fwrite [0; 4] (fwrite k7zSignature fopen_wb)) in
  {| volumes := [first_vol]; current_volume_size := 32;
     max_volume_size := split_size; base_path := archive_path;
     total_packed_size := 0; total_size := total; bytes_written := 0 |}.

(** The volumes as files on disk. *)
Definition volume_files (ctx : MultiVolumeContext) : outputs :=
  list_to_map
    (imap (fun k f => (get_volume_filename (base_path ctx) (Z.of_nat k), f_data f))
          (volumes ctx)).

(** Seeking back in the first volume and writing the start header CRC and
    the 20 bytes of the start header. *)
Definition patch_first_volume (ctx : MultiVolumeContext)
    (start_header_crc : Z) (start_header_buf : list Z) : MultiVolumeContext :=
  {| volumes :=
       alter (fun first_vol =>
                fwrite start_header_buf
                  (fwrite (le_bytes 4 start_header_crc) (fseek_set first_vol 8)))
             0%nat (volumes ctx);
     current_volume_size := current_volume_size ctx;
     max_volume_size := max_volume_size ctx; base_path := base_path ctx;
     total_packed_size := total_packed_size ctx; total_size := total_size ctx;
     bytes_written := bytes_written ctx |}.

(** [archive_path] and [input_paths] are not NULL; [read] is what the files
    hold when they are compressed.  The result is the error code and the
    volumes left on disk; [None] when [build_7z_header] runs past its
    buffer. *)
Definition sevenzip_create_multivolume_7z_complete `{Lzma2Enc}
    (read : string -> option (list Z))
    (archive_path : string) (input_paths : list input) (level : Z)
    (options : option SevenZipStreamOptions)
    : option (SevenZipErrorCode * outputs) :=
  match options with
  | None => Some (SEVENZIP_ERROR_INVALID_PARAM, ∅)
  | Some options =>
      if so_split_size options =? 0 then Some (SEVENZIP_ERROR_INVALID_PARAM, ∅)
      else
        let files := fold_left gather_input input_paths [] in
        if (length files =? 0)%nat then Some (SEVENZIP_ERROR_INVALID_PARAM, ∅)
        else
          let total := fold_left (fun t f => u64 (t + size f)) files 0 in
          let props := encoder_props level options in
          let ctx := start_context archive_path (so_split_size options) total in
          let use_store_mode := level =? SEVENZIP_LEVEL_STORE in
          match process_files read use_store_mode props files [] ctx with
          | (SZ_OK, files, ctx) =>
              match build_7z_header files (total_packed_size ctx) with
              | None => None
              | Some header =>
                  let header_crc := CrcCalc header in
                  let ctx := write_all ctx header in
                  let next_header_offset := total_packed_size ctx in
                  let next_header_size := Z.of_nat (length header) in
                  let start_header_buf := le_bytes 8 next_header_offset
                                          ++ le_bytes 8 next_header_size
                                          ++ le_bytes 4 header_crc in
                  let start_header_crc := CrcCalc start_header_buf in
                  let ctx := patch_first_volume ctx start_header_crc
                                                start_header_buf in
                  Some (SEVENZIP_OK, volume_files ctx)
              end
          | (_, _, ctx) => Some (SEVENZIP_ERROR_COMPRESS, volume_files ctx)
          end
  end.

End MultiVolume.

(** ** archive_stream_api.c *)
Module StreamAPI.

Definition DEFAULT_CHUNK_SIZE : Z := 64 * 1024 * 1024.
Definition DEFAULT_DICT_SIZE : Z := 32 * 1024 * 1024.
Definition DEFAULT_THREADS : Z := 2.

(** [sevenzip_stream_options_init] *)
Definition sevenzip_stream_options_init : SevenZipStreamOptions :=
  {| so_num_threads := DEFAULT_THREADS; so_dict_size := DEFAULT_DICT_SIZE;
     so_solid := 1; so_password := None; so_split_size := 0;
     so_chunk_size := DEFAULT_CHUNK_SIZE; so_temp_dir := None;
     so_delete_temp_on_error := 1 |}.

(** The list of gathered files: paths and sizes; [total_size] is their
    sum. *)
Record FileList : Type := {
  paths : list string;
  sizes : list Z;
  total_size : Z
}.

Definition file_list_init : FileList :=
  {| paths := []; sizes := []; total_size := 0 |}.

Definition file_list_add (l : FileList) (path : string) (size : Z) : FileList :=
  {| paths := paths l ++ [path]; sizes := sizes l ++ [size];
     total_size := u64 (total_size l + size) |}.

(** [gather_files] with the loop of [gather_directory_files] (POSIX
    variant): true is the return value 1.  What is on disk can always be
    examined, so every call returns 1. *)
Fixpoint gather_files (n : node) (path : string) (l : FileList) {struct n}
    : FileList :=
  match n with
  | Reg _ _ _ c => file_list_add l path (Z.of_nat (length c))
  | Dir _ _ _ members =>
      fold_left (fun l' m =>
                   if is_dot_entry (d_name m) then l'
                   else gather_files m (path +:+ "/" +:+ d_name m) l')
                members l
  | Special _ _ _ => l
  end.

(** The loop over the input paths: [None] when a path cannot be examined. *)
Fixpoint gather_inputs (inputs : list input) (l : FileList) : option FileList :=
  match inputs with
  | [] => Some l
  | (path, None) :: _ => None
  | (path, Some n) :: rest => gather_inputs rest (gather_files n path l)
  end.

Definition comp_opts_of (options : SevenZipStreamOptions) : SevenZipCompressOptions :=
  {| co_num_threads := so_num_threads options;
     co_dict_size := so_dict_size options;
     co_solid := so_solid options;
     co_password := so_password options |}.

(** [sevenzip_create_7z_streaming]: [archive_path] and [input_paths] are
    not NULL.  [uninit] is passed on to [sevenzip_create_7z] and [read] to
    the multi-volume writer.  [None] is the [None] of
    [sevenzip_create_7z]. *)
Definition sevenzip_create_7z_streaming `{Lzma2Enc} (uninit : Z)
    (read : string -> option (list Z))
    (archive_path : string) (input_paths : list input) (level : Z)
    (options : option SevenZipStreamOptions)
    : option (SevenZipErrorCode * outputs) :=
  let options := default sevenzip_stream_options_init options in
  if so_split_size options =? 0 then
    ArchiveCreate.sevenzip_create_7z uninit archive_path input_paths level
      (Some (comp_opts_of options))
  else
    match gather_inputs input_paths file_list_init with
    | None => Some (SEVENZIP_ERROR_INVALID_PARAM, ∅)
    | Some files =>
        if (length (paths files) =? 0)%nat
        then Some (SEVENZIP_ERROR_INVALID_PARAM, ∅)
        else if total_size files <=? so_split_size options then
          ArchiveCreate.sevenzip_create_7z uninit archive_path input_paths level
            (Some (comp_opts_of options))
        else
          MultiVolume.sevenzip_create_multivolume_7z_complete read
            archive_path input_paths level (Some options)
    end.

End StreamAPI.

(** ** encryption_aes.c *)
Module Encryption.

Definition AES_KEY_SIZE : Z := 32.
Definition SHA256_DIGEST_SIZE : Z := 32.
Definition AES_BLOCK_SIZE : Z := 16.
Definition PBKDF2_ITERATIONS : Z := 262144.

(** SHA-256 of the LZMA SDK (Sha256.h): the hash function itself is outside
    the sources; its digests are 32 bytes long.  The state of a running hash
    is the bytes absorbed so far. *)
Class Sha256 : Type := {
  sha256_digest : list Z -> list Z;
  sha256_digest_length : forall m, length (sha256_digest m) = 32%nat
}.

Definition CSha256 : Type := list Z.
Definition Sha256_Init : CSha256 := [].
Definition Sha256_Update (sha : CSha256) (data : list Z) : CSha256 := sha ++ data.
Definition Sha256_Final `{Sha256} (sha : CSha256) : list Z := sha256_digest sha.

(** The loop [for (uint32_t i = 1; i < iterations; i++)] that rehashes the
    32-byte digest.  Every turn increments [i], so [fuel] at or above
    [iterations] is enough. *)
Fixpoint rehash `{Sha256} (fuel : nat) (i iterations : Z) (hash : list Z)
    : list Z :=
  match fuel with
  | O => hash
  | S fuel' =>
      if i <? iterations then
        rehash fuel' (u32 (i + 1)) iterations
               (Sha256_Final (Sha256_Update Sha256_Init hash))
      else hash
  end.

(** [derive_key_from_password]: [salt] holds [salt_len] bytes; the result is
    what [memcpy] puts into [key]. *)
Definition derive_key_from_password `{Sha256} (password : string)
    (salt : list Z) (iterations : Z) (key_len : Z) : list Z :=
  let sha := Sha256_Init in
  let sha := Sha256_Update sha (string_bytes password) in
  let sha := Sha256_Update sha salt in
  let hash := Sha256_Final sha in
  let hash := rehash (Z.to_nat iterations) 1 iterations hash in
  take (Z.to_nat (if key_len <? SHA256_DIGEST_SIZE then key_len
                  else SHA256_DIGEST_SIZE)) hash.

(** AES of the LZMA SDK (Aes.h): key schedules and CBC coding of whole
    16-byte blocks, in place; the buffers keep their length. *)
Class Aes : Type := {
  aes_context : Type;
  Aes_SetKey_Enc : list Z -> aes_context;
  Aes_SetKey_Dec : list Z -> aes_context;
  AesCbc_Encode : aes_context -> list Z -> list Z -> list Z;
  AesCbc_Decode : aes_context -> list Z -> list Z -> list Z;
  AesCbc_Encode_length : forall c iv d, length (AesCbc_Encode c iv d) = length d;
  AesCbc_Decode_length : forall c iv d, length (AesCbc_Decode c iv d) = length d
}.

(** [sevenzip_init_decryption]: [None] stands for a NULL pointer.  The
    result is the error code with the derived key and the decryption
    context. *)
Definition sevenzip_init_decryption `{Sha256} `{Aes}
    (password : option string) (salt : option (list Z))
    : SevenZipErrorCode * option (list Z * aes_context) :=
  match password, salt with
  | Some pw, Some s =>
      let key := derive_key_from_password pw s PBKDF2_ITERATIONS AES_KEY_SIZE in
      (SEVENZIP_OK, Some (key, Aes_SetKey_Dec key))
  | _, _ => (SEVENZIP_ERROR_INVALID_PARAM, None)
  end.

(** [sevenzip_init_encryption]: [salt] and [iv] are the 16 bytes each that
    the calls of [rand()] deliver. *)
Definition sevenzip_init_encryption `{Sha256} `{Aes}
    (password : option string) (salt iv : list Z)
    : SevenZipErrorCode * option (list Z * list Z * aes_context) :=
  match password with
  | Some pw =>
      let key := derive_key_from_password pw salt PBKDF2_ITERATIONS AES_KEY_SIZE in
      (SEVENZIP_OK, Some (key, iv, Aes_SetKey_Enc key))
  | None => (SEVENZIP_ERROR_INVALID_PARAM, None)
  end.

(** [sevenzip_encrypt_data] with non-NULL arguments: [capacity] is the
    value of [*ciphertext_len] on entry.  The result is the error code, the
    ciphertext written and [*ciphertext_len] on return. *)
Definition sevenzip_encrypt_data `{Aes} (ctx : aes_context) (iv : list Z)
    (plaintext : list Z) (capacity : Z)
    : SevenZipErrorCode * list Z * Z :=
  let plaintext_len := Z.of_nat (length plaintext) in
  let padded_len := (plaintext_len / AES_BLOCK_SIZE + 1) * AES_BLOCK_SIZE in
  if capacity <? padded_len then (SEVENZIP_ERROR_MEMORY, [], padded_len)
  else
    let padding_byte := Byte (padded_len - plaintext_len) in
    let padded_data :=
      plaintext ++ replicate (Z.to_nat (padded_len - plaintext_len)) padding_byte in
    (SEVENZIP_OK, AesCbc_Encode ctx iv padded_data, padded_len).

(** The loop that compares the last [padding_byte] bytes with
    [padding_byte]; [bytes] is what is left to compare. *)
Fixpoint padding_ok (bytes : list Z) (padding_byte : Z) : bool :=
  match bytes with
  | [] => true
  | b :: rest => if b =? padding_byte then padding_ok rest padding_byte else false
  end.

(** [sevenzip_decrypt_data] with non-NULL arguments and a ciphertext that
    is not empty (with [ciphertext_len = 0] the function reads
    [plaintext[-1]]): [capacity] is the value of [*plaintext_len] on entry.
    The result is the error code, the content of the plaintext buffer and
    [*plaintext_len] on return. *)
Definition sevenzip_decrypt_data `{Aes} (ctx : aes_context) (iv : list Z)
    (ciphertext : list Z) (capacity : Z)
    : SevenZipErrorCode * list Z * Z :=
  let ciphertext_len := Z.of_nat (length ciphertext) in
  if negb (ciphertext_len mod AES_BLOCK_SIZE =? 0)
  then (SEVENZIP_ERROR_INVALID_PARAM, [], capacity)
  else if capacity <? ciphertext_len
  then (SEVENZIP_ERROR_MEMORY, [], ciphertext_len)
  else
    let plaintext := AesCbc_Decode ctx iv ciphertext in
    let padding_byte := plaintext !!! Z.to_nat (ciphertext_len - 1) in
    if (0 <? padding_byte) && (padding_byte <=? AES_BLOCK_SIZE) then
      if padding_ok (drop (Z.to_nat (ciphertext_len - padding_byte)) plaintext)
                    padding_byte
      then (SEVENZIP_OK, plaintext, ciphertext_len - padding_byte)
      else (SEVENZIP_ERROR_EXTRACT, plaintext, capacity)
    else (SEVENZIP_OK, plaintext, ciphertext_len).

(** [sevenzip_verify_password] with non-NULL arguments. *)
Definition sevenzip_verify_password `{Sha256} `{Aes} (password : string)
    (encrypted_test_block salt iv : list Z) : SevenZipErrorCode :=
  match sevenzip_init_decryption (Some password) (Some salt) with
  | (SEVENZIP_OK, Some (key, ctx)) =>
      (sevenzip_decrypt_data ctx iv encrypted_test_block
         (Z.of_nat (length encrypted_test_block))).1.1
  | (result, _) => result
  end.

End Encryption.

(** ** archive_extract_split.c *)
Module ExtractSplit.

(** The multi-volume input stream: the content of each open volume (its
    size is the length), the cumulative offsets and the position. *)
Record MultiVolumeInStream : Type := {
  volumes : list (list Z);
  volume_sizes : list Z;
  volume_offsets : list Z;
  total_size : Z;
  current_pos : Z
}.

Definition is_digit (c : ascii) : bool :=
  (48 <=? nat_of_ascii c)%nat && (nat_of_ascii c <=? 57)%nat.

(** The base path: the path without its last four characters when these are
    a dot followed by a digit and two more characters. *)
Definition base_path_of (first_volume_path : string) : string :=
  let len := String.length first_volume_path in
  if (4 <? len)%nat
     && match String.get (len - 4) first_volume_path with
        | Some c => Ascii.eqb c "."%char
        | None => false
        end
     && match String.get (len - 3) first_volume_path with
        | Some c => is_digit c
        | None => false
        end
  then String.substring 0 (len - 4) first_volume_path
  else first_volume_path.

Definition volume_path (base_path : string) (i : Z) : string :=
  base_path +:+ "." +:+ fmt_03d i.

(** One turn of the loop [for (i = 1; i <= 999; i++)]: the file that is
    opened as volume [i], if any. *)
Definition open_volume (d : disk) (base_path : string) (i : Z)
    : option (list Z) :=
  if i =? 1 then
    match d !! volume_path base_path 1 with
    | Some f => Some f
    | None => d !! base_path
    end
  else d !! volume_path base_path i.

(** The loop itself: it stops at the first index that cannot be opened.
    [fuel] counts the turns that are left. *)
Fixpoint open_volumes_from (fuel : nat) (d : disk) (base_path : string)
    (i : Z) (opened : list (list Z)) : list (list Z) :=
  match fuel with
  | O => opened
  | S fuel' =>
      if i <=? 999 then
        match open_volume d base_path i with
        | Some f => open_volumes_from fuel' d base_path (i + 1) (opened ++ [f])
        | None => opened
        end
      else opened
  end.

(** [offsets[0] = 0; offsets[i + 1] = offsets[i] + sizes[i]] *)
Fixpoint cumulative_offsets (start : Z) (sizes : list Z) : list Z :=
  match sizes with
  | [] => [start]
  | s :: rest => start :: cumulative_offsets (u64 (start + s)) rest
  end.

(** [open_split_volumes]: [None] is the return value 0. *)
Definition open_split_volumes (d : disk) (first_volume_path : string)
    : option MultiVolumeInStream :=
  let base_path := base_path_of first_volume_path in
  let vols := open_volumes_from 999 d base_path 1 [] in
  if (length vols =? 0)%nat then None
  else
    let sizes := map (fun v => Z.of_nat (length v)) vols in
    let offsets := cumulative_offsets 0 sizes in
    Some {| volumes := vols; volume_sizes := sizes; volume_offsets := offsets;
            total_size := default 0 (last offsets); current_pos := 0 |}.

(** [MultiVolumeInStream_Seek]: the new stream and the position reported
    back. *)
Inductive ESzSeek : Set := SZ_SEEK_SET | SZ_SEEK_CUR | SZ_SEEK_END.

Definition MultiVolumeInStream_Seek (p : MultiVolumeInStream) (pos : Z)
    (origin : ESzSeek) : MultiVolumeInStream * Z :=
  let target := match origin with
                | SZ_SEEK_SET => u64 pos
                | SZ_SEEK_CUR => u64 (current_pos p + pos)
                | SZ_SEEK_END => u64 (total_size p + pos)
                end in
  let target := if total_size p <? target then total_size p else target in
  ({| volumes := volumes p; volume_sizes := volume_sizes p;
      volume_offsets := volume_offsets p; total_size := total_size p;
      current_pos := target |}, target).

(** The search for the volume that holds [pos]: the first [i] with
    [pos < offsets[i + 1]], and 0 when there is none. *)
Fixpoint find_volume (offsets_from_1 : list Z) (pos : Z) (i : nat) : nat :=
  match offsets_from_1 with
  | [] => O
  | o :: rest => if pos <? o then i else find_volume rest pos (S i)
  end.

(** [MultiVolumeInStream_Read] for a request of [size] bytes: the bytes
    delivered and the stream afterwards.  (Reads from an open volume do not
    fail.)  Each turn of the loop delivers at least one byte or ends the
    call, so [fuel] above [size] is enough. *)
Fixpoint read_loop (fuel : nat) (p : MultiVolumeInStream) (remaining : Z)
    (got : list Z) (pos : Z) : SRes * list Z * Z :=
  match fuel with
  | O => (SZ_OK, got, pos)
  | S fuel' =>
      if (0 <? remaining) && (pos <? total_size p) then
        let volume_idx := find_volume (drop 1 (volume_offsets p)) pos 0 in
        let volume_start := volume_offsets p !!! volume_idx in
        let volume_pos := pos - volume_start in
        let volume_remaining := u64 (volume_sizes p !!! volume_idx - volume_pos) in
        let to_read := if volume_remaining <? remaining then volume_remaining
                       else remaining in
        let bytes := take (Z.to_nat to_read)
                          (drop (Z.to_nat volume_pos) (volumes p !!! volume_idx)) in
        if (length bytes =? 0)%nat && (0 <? to_read)
        then (SZ_ERROR_READ, got, pos)
        else read_loop fuel' p (remaining - Z.of_nat (length bytes))
                       (got ++ bytes) (pos + Z.of_nat (length bytes))
      else (SZ_OK, got, pos)
  end.

Definition MultiVolumeInStream_Read (p : MultiVolumeInStream) (size : Z)
    : SRes * list Z * MultiVolumeInStream :=
  let '(res, got, pos) := read_loop (S (Z.to_nat size)) p size [] (current_pos p) in
  (res, got,
   {| volumes := volumes p; volume_sizes := volume_sizes p;
      volume_offsets := volume_offsets p; total_size := total_size p;
      current_pos := pos |}).

End ExtractSplit.

(** ** archive_extract.c and archive_list.c

    Both files drive the 7z reader of the LZMA SDK, which is outside the
    sources: opening an archive gives a database or fails, and the database
    answers the queries below.  [SzArEx_Extract] works on the database, the
    archive stream, the file index and the block cache it keeps between
    calls ([block_index], [out_buffer]), and delivers the bytes of the
    file. *)
Class SzArchive : Type := {
  CSzArEx : Type;
  block_cache : Type;
  empty_cache : block_cache;
  SzArEx_Open : list Z -> option CSzArEx;
  NumFiles : CSzArEx -> nat;
  SzArEx_GetFileNameUtf16 : CSzArEx -> nat -> list Z;
  SzArEx_IsDir : CSzArEx -> nat -> bool;
  SzArEx_GetFileSize : CSzArEx -> nat -> Z;
  SzArEx_Extract : CSzArEx -> list Z -> nat -> block_cache
                   -> SRes * block_cache * list Z;
  MTime_Check : CSzArEx -> nat -> bool;
  MTime_Low : CSzArEx -> nat -> Z;
  MTime_High : CSzArEx -> nat -> Z;
  Attribs_Check : CSzArEx -> nat -> bool;
  Attribs_Val : CSzArEx -> nat -> Z
}.

(** The file system the extractor writes to: [stat] (does the path exist),
    [mkdir] (with the cases the code tells apart), [fopen(path, "wb")] and
    [fwrite] followed by [fclose], which reports how many bytes went out. *)
Inductive mkdir_result : Set := MKDIR_OK | MKDIR_EEXIST | MKDIR_FAILED.

Class FileSystem : Type := {
  fs_state : Type;
  fs_stat : fs_state -> string -> bool;
  fs_mkdir : fs_state -> string -> fs_state * mkdir_result;
  fs_fopen_wb : fs_state -> string -> option fs_state;
  fs_fwrite : fs_state -> string -> list Z -> fs_state * Z
}.

Module ArchiveRead.

Definition PATH_SEPARATOR : ascii := "/"%char.

(** The prefixes of a path that end just before a separator, the first
    character of the path excepted: [acc] is what has been passed. *)
Fixpoint prefixes_before_separators (acc rest : string) : list string :=
  match rest with
  | EmptyString => []
  | String c r =>
      if Ascii.eqb c PATH_SEPARATOR
      then acc :: prefixes_before_separators (acc +:+ String c EmptyString) r
      else prefixes_before_separators (acc +:+ String c EmptyString) r
  end.

(** Without the last character when it is a separator. *)
Definition strip_trailing_separator (path : string) : string :=
  let len := String.length path in
  match String.get (len - 1) path with
  | Some c => if Ascii.eqb c PATH_SEPARATOR
              then String.substring 0 (len - 1) path else path
  | None => path
  end.

(** [stat] and, when it fails, [mkdir]: false when [mkdir] fails for another
    reason than [EEXIST]. *)
Definition ensure_directory `{FileSystem} (st : fs_state) (path : string)
    : fs_state * bool :=
  if fs_stat st path then (st, true)
  else
    match fs_mkdir st path with
    | (st', MKDIR_FAILED) => (st', false)
    | (st', _) => (st', true)
    end.

Fixpoint ensure_directories `{FileSystem} (st : fs_state) (paths : list string)
    : fs_state * bool :=
  match paths with
  | [] => (st, true)
  | p :: rest =>
      match ensure_directory st p with
      | (st', true) => ensure_directories st' rest
      | (st', false) => (st', false)
      end
  end.

(** [create_directory_recursive]: the result is 0 or -1. *)
Definition create_directory_recursive `{FileSystem} (st : fs_state)
    (path : string) : fs_state * Z :=
  if (String.length path =? 0)%nat then (st, -1)
  else
    let tmp := strip_trailing_separator path in
    let parents :=
      match tmp with
      | EmptyString => []
      | String c r => prefixes_before_separators (String c EmptyString) r
      end in
    match ensure_directories st (parents ++ [tmp]) with
    | (st', true) => (st', 0)
    | (st', false) => (st', -1)
    end.

(** [build_output_path] *)
Definition build_output_path (output_dir filename : string) : string :=
  output_dir +:+ String PATH_SEPARATOR EmptyString +:+ filename.

(** The "simplified" conversion of a UTF-16 name, terminator included, to a
    C string: a unit below 256 becomes the byte, any other a question mark;
    the string ends at the first zero. *)
Fixpoint utf16_to_c_string (units : list Z) : string :=
  match units with
  | [] => EmptyString
  | u :: rest =>
      let c := if u <? 256 then u else 63 in
      if c =? 0 then EmptyString
      else String (ascii_of_nat (Z.to_nat c)) (utf16_to_c_string rest)
  end.

(** What is before the last separator of a path, if there is one. *)
Fixpoint before_last_separator (s : string) : option string :=
  match s with
  | EmptyString => None
  | String c r =>
      match before_last_separator r with
      | Some t => Some (String c t)
      | None => if Ascii.eqb c PATH_SEPARATOR then Some EmptyString else None
      end
  end.

(** The state of the extraction loop: the file system, the block cache and
    the calls of the progress callback so far. *)
Record extract_state `{SzArchive} `{FileSystem} : Type := {
  ex_fs : fs_state;
  ex_cache : block_cache;
  ex_progress : list (Z * Z)
}.

(** One turn of the loop over the files of the archive; an error code other
    than [SEVENZIP_OK] is the [break]. *)
Definition extract_file `{SzArchive} `{FileSystem} (db : CSzArEx)
    (stream : list Z) (output_dir : string) (has_callback : bool)
    (i : nat) (s : extract_state) : SevenZipErrorCode * extract_state :=
  let temp := SzArEx_GetFileNameUtf16 db i in
  if (1 <? length temp)%nat then
    let filename := utf16_to_c_string temp in
    let is_dir := SzArEx_IsDir db i in
    let output_path := build_output_path output_dir filename in
    let report (s' : extract_state) :=
      if has_callback
      then {| ex_fs := ex_fs s'; ex_cache := ex_cache s';
              ex_progress := ex_progress s'
                             ++ [(Z.of_nat i + 1, Z.of_nat (NumFiles db))] |}
      else s' in
    if is_dir then
      let '(st, _) := create_directory_recursive (ex_fs s) output_path in
      (SEVENZIP_OK,
       report {| ex_fs := st; ex_cache := ex_cache s; ex_progress := ex_progress s |})
    else
      match SzArEx_Extract db stream i (ex_cache s) with
      | (SZ_OK, cache, bytes) =>
          let st :=
            match before_last_separator output_path with
            | Some parent => (create_directory_recursive (ex_fs s) parent).1
            | None => ex_fs s
            end in
          match fs_fopen_wb st output_path with
          | None =>
              (SEVENZIP_ERROR_OPEN_FILE,
               {| ex_fs := st; ex_cache := cache; ex_progress := ex_progress s |})
          | Some st1 =>
              let '(st2, written) := fs_fwrite st1 output_path bytes in
              let s' := {| ex_fs := st2; ex_cache := cache;
                           ex_progress := ex_progress s |} in
              if written =? Z.of_nat (length bytes)
              then (SEVENZIP_OK, report s')
              else (SEVENZIP_ERROR_EXTRACT, s')
          end
      | (_, cache, _) =>
          (SEVENZIP_ERROR_EXTRACT,
           {| ex_fs := ex_fs s; ex_cache := cache; ex_progress := ex_progress s |})
      end
  else (SEVENZIP_OK, s).

(** [sevenzip_extract]: [None] stands for a NULL pointer, [d] is what can be
    opened for reading.  The result is the error code, the file system
    afterwards and the calls of the progress callback. *)
Definition sevenzip_extract `{SzArchive} `{FileSystem} (d : disk)
    (st : fs_state) (archive_path output_dir : option string)
    (password : option string) (has_callback : bool)
    : SevenZipErrorCode * fs_state * list (Z * Z) :=
  match archive_path, output_dir with
  | Some archive_path, Some output_dir =>
      match d !! archive_path with
      | None => (SEVENZIP_ERROR_OPEN_FILE, st, [])
      | Some stream =>
          match SzArEx_Open stream with
          | None => (SEVENZIP_ERROR_INVALID_ARCHIVE, st, [])
          | Some db =>
              match create_directory_recursive st output_dir with
              | (st', 0) =>
                  let '(error_code, s) :=
                    try_each (extract_file db stream output_dir has_callback)
                             (seq 0 (NumFiles db))
                             {| ex_fs := st'; ex_cache := empty_cache;
                                ex_progress := [] |} in
                  (error_code, ex_fs s, ex_progress s)
              | (st', _) => (SEVENZIP_ERROR_OPEN_FILE, st', [])
              end
          end
      end
  | _, _ => (SEVENZIP_ERROR_INVALID_PARAM, st, [])
  end.

(** [sevenzip_extract_files] *)
Definition sevenzip_extract_files (archive_path output_dir : option string)
    (files : list string) (password : option string) : SevenZipErrorCode :=
  SEVENZIP_ERROR_NOT_IMPLEMENTED.

(** An entry of the listing ([SevenZipEntry]); a name that was not filled
    in stays NULL. *)
Record SevenZipEntry : Type := {
  entry_name : option string;
  entry_size : Z;
  entry_packed_size : Z;
  entry_modified_time : Z;
  entry_attributes : Z;
  entry_is_directory : bool
}.

Definition list_entry `{SzArchive} (db : CSzArEx) (i : nat) : SevenZipEntry :=
  let temp := SzArEx_GetFileNameUtf16 db i in
  {| entry_name := if (1 <? length temp)%nat then Some (utf16_to_c_string temp)
                   else None;
     entry_size := SzArEx_GetFileSize db i;
     entry_packed_size := 0;
     entry_modified_time :=
       if MTime_Check db i
       then u64 (Z.lor (MTime_Low db i) (Z.shiftl (MTime_High db i) 32) / 10000000
                 - 11644473600)
       else 0;
     entry_attributes := if Attribs_Check db i then Attribs_Val db i else 0;
     entry_is_directory := SzArEx_IsDir db i |}.

(** [sevenzip_list]: [has_list] tells whether the result pointer is not
    NULL. *)
Definition sevenzip_list `{SzArchive} (d : disk) (archive_path : option string)
    (password : option string) (has_list : bool)
    : SevenZipErrorCode * option (list SevenZipEntry) :=
  match archive_path, has_list with
  | Some archive_path, true =>
      match d !! archive_path with
      | None => (SEVENZIP_ERROR_OPEN_FILE, None)
      | Some stream =>
          match SzArEx_Open stream with
          | None => (SEVENZIP_ERROR_INVALID_ARCHIVE, None)
          | Some db => (SEVENZIP_OK, Some (map (list_entry db) (seq 0 (NumFiles db))))
          end
      end
  | _, _ => (SEVENZIP_ERROR_INVALID_PARAM, None)
  end.

End ArchiveRead.

(** ** Encoders to run the writers with

    The writers are defined over any encoder.  Two simple ones run them on
    concrete inputs. *)

(** An encoder that refuses every input: enough to run the writers in Store
    mode, where the encoder is never asked. *)
Definition no_encoder : Lzma2Enc :=
  {| Lzma2EncProps_Init :=
       {| lzma_level := 5; lzma_dictSize := 0; lzma_numThreads := 0;
          numBlockThreads_Max := 0; numTotalThreads := 0; blockSize := 0 |};
     Lzma2EncProps_Normalize := fun p => p;
     Lzma2Enc_SetProps := fun _ => true;
     Lzma2Enc_WriteProperties := fun _ => 0x18;
     Lzma2Enc_Encode2 := fun _ _ => None;
     Lzma2Enc_Encode2_stream := fun _ _ => (SZ_ERROR_FAIL, []) |}.

(** An encoder that accepts every input and hands it back as the packed
    stream, in one piece. *)
Definition identity_encoder : Lzma2Enc :=
  {| Lzma2EncProps_Init :=
       {| lzma_level := 5; lzma_dictSize := 0; lzma_numThreads := 0;
          numBlockThreads_Max := 0; numTotalThreads := 0; blockSize := 0 |};
     Lzma2EncProps_Normalize := fun p => p;
     Lzma2Enc_SetProps := fun _ => true;
     Lzma2Enc_WriteProperties := fun _ => 0x18;
     Lzma2Enc_Encode2 := fun _ input => Some input;
     Lzma2Enc_Encode2_stream := fun _ input => (SZ_OK, [input]) |}.


Example WriteNumber_0 : ArchiveCreate.WriteNumber 0 = [0].
Proof. reflexivity. Qed.

Example WriteNumber_300 : ArchiveCreate.WriteNumber 300 = [0x81; 0x2C].
Proof. reflexivity. Qed.

Example WriteNumber_max :
  ArchiveCreate.WriteNumber (2 ^ 64 - 1)
  = [255; 255; 255; 255; 255; 255; 255; 255; 255].
Proof. reflexivity. Qed.

Example decode_300 : Varint.decode [0x81; 0x2C; 7] = Some (300, 2%nat).
Proof. reflexivity. Qed.

Example decode_truncated : Varint.decode [0xC0; 1] = None.
Proof. reflexivity. Qed.

(** * Proofs *)

(** ** Finite enumeration over a range of integers *)

Lemma Zrange_check (P : Z -> bool) (n : nat) :
  forallb P (map Z.of_nat (seq 0 n)) = true ->
  forall x, 0 <= x < Z.of_nat n -> P x = true.
Proof.
  intros Hall x Hx.
  rewrite forallb_forall in Hall. apply Hall.
  apply in_map_iff. exists (Z.to_nat x). split; [lia|].
  apply in_seq. lia.
Qed.

(** ** Bytes *)

Lemma Byte_range x : is_byte (Byte x).
Proof. unfold is_byte, Byte. apply Z.mod_pos_bound. lia. Qed.

Lemma Byte_small x : is_byte x -> Byte x = x.
Proof. unfold is_byte, Byte. intros. apply Z.mod_small. lia. Qed.

Lemma Byte_land_ff x : Byte (Z.land x 0xFF) = Byte x.
Proof.
  unfold Byte. change 0xFF with (Z.ones 8).
  rewrite Z.land_ones by lia. change (2 ^ 8) with 256.
  apply Z.mod_mod. lia.
Qed.

Lemma length_le_bytes n v : length (le_bytes n v) = n.
Proof. revert v. induction n as [|n IH]; intros v; simpl; [|rewrite IH]; reflexivity. Qed.

Lemma le_bytes_is_byte n v : Forall is_byte (le_bytes n v).
Proof.
  revert v. induction n as [|n IH]; intros v; simpl; constructor.
  - apply Byte_range.
  - apply IH.
Qed.

Lemma le_value_le_bytes n v :
  le_value (le_bytes n v) = v mod 2 ^ (8 * Z.of_nat n).
Proof.
  revert v. induction n as [|n IH]; intros v.
  - simpl. rewrite Z.mod_1_r. reflexivity.
  - cbn [le_bytes le_value]. rewrite IH.
    replace (8 * Z.of_nat (S n)) with (8 + 8 * Z.of_nat n) by lia.
    rewrite Z.pow_add_r by lia. change (2 ^ 8) with 256.
    rewrite Z.rem_mul_r by lia.
    rewrite Z.shiftr_div_pow2 by lia. reflexivity.
Qed.

Lemma le_value_bound bs :
  Forall is_byte bs -> 0 <= le_value bs < 2 ^ (8 * Z.of_nat (length bs)).
Proof.
  induction 1 as [|b bs Hb _ IH].
  - simpl. lia.
  - cbn [le_value length].
    replace (8 * Z.of_nat (S (length bs))) with (8 + 8 * Z.of_nat (length bs)) by lia.
    rewrite Z.pow_add_r by lia. change (2 ^ 8) with 256.
    unfold is_byte in Hb. nia.
Qed.

Lemma le_value_small n v :
  0 <= v < 2 ^ (8 * Z.of_nat n) -> le_value (le_bytes n v) = v.
Proof. intros. rewrite le_value_le_bytes. apply Z.mod_small. lia. Qed.

(** ** The number encoding: shape of the first byte *)

(** The first byte of a [k]-extra-byte encoding: [k] set bits, then a zero
    bit (for [k < 8]), then the high part [x] of the value. *)
Definition prefix (k : nat) : Z := 256 - 2 ^ (8 - Z.of_nat k).

Definition first_ok (k : nat) (x : Z) : bool :=
  let first := Byte (Z.lor (prefix k) x) in
  (Varint.leading_ones 8 first =? k)%nat
  && (Z.land first (Z.shiftr 0x7F (Z.of_nat k)) =? x)
  && (first =? prefix k + x).

Lemma first_byte (k : nat) (x : Z) :
  (k <= 8)%nat -> 0 <= x < 2 ^ (7 - Z.of_nat k) \/ x = 0 ->
  first_ok k x = true.
Proof.
  intros Hk Hx.
  assert (Hx' : 0 <= x < Z.of_nat (Z.to_nat (Z.max 1 (2 ^ (7 - Z.of_nat k))))).
  { destruct Hx as [Hx| ->]; lia. }
  clear Hx. revert x Hx'.
  do 9 (destruct k as [|k]; [apply Zrange_check; vm_compute; reflexivity|]).
  lia.
Qed.

Lemma decode_first (k : nat) (x : Z) (rest tail : list Z) :
  (k <= 8)%nat -> 0 <= x < 2 ^ (7 - Z.of_nat k) \/ x = 0 ->
  length rest = k ->
  Varint.decode (Byte (Z.lor (prefix k) x) :: rest ++ tail)
  = Some (le_value rest + x * 2 ^ (8 * Z.of_nat k), S k).
Proof.
  intros Hk Hx Hlen.
  pose proof (first_byte k x Hk Hx) as Hok.
  unfold first_ok in Hok.
  apply andb_prop in Hok as [Hok _]. apply andb_prop in Hok as [Hlead Hhigh].
  apply Nat.eqb_eq in Hlead. apply Z.eqb_eq in Hhigh.
  unfold Varint.decode. rewrite Hlead.
  destruct (Nat.ltb_spec (length (rest ++ tail)) k) as [Hlt|_].
  { rewrite length_app in Hlt. lia. }
  rewrite Hhigh. rewrite take_app_length' by lia. reflexivity.
Qed.

(** Number of extra bytes the format needs for [v]: the least [k] with
    [v < 2^(7k+7)], and 8 when there is none below 8. *)
Definition extra_bytes (v : Z) : nat :=
  if v <? 2 ^ 7 then 0
  else if v <? 2 ^ 14 then 1
  else if v <? 2 ^ 21 then 2
  else if v <? 2 ^ 28 then 3
  else if v <? 2 ^ 35 then 4
  else if v <? 2 ^ 42 then 5
  else if v <? 2 ^ 49 then 6
  else if v <? 2 ^ 56 then 7
  else 8.

Lemma shiftr_small v n m :
  0 <= n -> 0 <= m -> 0 <= v < 2 ^ (n + m) -> 0 <= Z.shiftr v n < 2 ^ m.
Proof.
  intros Hn Hm Hv. rewrite Z.shiftr_div_pow2 by lia. split.
  - apply Z.div_pos; lia.
  - apply Z.div_lt_upper_bound; [lia|]. rewrite <- Z.pow_add_r by lia. lia.
Qed.

Lemma land_mask_small x n :
  0 <= n -> 0 <= x < 2 ^ n -> Z.land x (Z.ones n) = x.
Proof. intros Hn Hx. rewrite Z.land_ones by lia. apply Z.mod_small. lia. Qed.

Lemma le_bytes_high v k :
  0 <= v ->
  le_value (le_bytes k v) + Z.shiftr v (8 * Z.of_nat k) * 2 ^ (8 * Z.of_nat k) = v.
Proof.
  intros Hv. rewrite le_value_le_bytes, Z.shiftr_div_pow2 by lia.
  pose proof (Z.div_mod v (2 ^ (8 * Z.of_nat k))). lia.
Qed.

(** ** The encoder of archive_create.c has the format's shape *)

Ltac norm_le_bytes :=
  cbn [le_bytes];
  rewrite ?Byte_land_ff, ?Z.shiftr_shiftr by lia;
  cbn [Z.add Pos.add Pos.succ Pos.add_carry].

Lemma first_byte_masked v n m mask p :
  0 <= n -> 0 <= m -> 0 <= v < 2 ^ (n + m) -> mask = Z.ones m ->
  Byte (Z.lor p (Z.land (Z.shiftr v n) mask)) = Byte (Z.lor p (Z.shiftr v n)).
Proof.
  intros Hn Hm Hv ->. rewrite land_mask_small; [reflexivity|lia|].
  apply shiftr_small; lia.
Qed.

Lemma shiftr_zero v n : 0 <= n -> 0 <= v < 2 ^ n -> Z.shiftr v n = 0.
Proof.
  intros Hn Hv. rewrite Z.shiftr_div_pow2 by lia. apply Z.div_small. lia.
Qed.

Lemma WriteNumber_shape v :
  0 <= v < 2 ^ 64 ->
  ArchiveCreate.WriteNumber v
  = Byte (Z.lor (prefix (extra_bytes v)) (Z.shiftr v (8 * Z.of_nat (extra_bytes v))))
      :: le_bytes (extra_bytes v) v.
Proof.
  intros Hv. unfold ArchiveCreate.WriteNumber, extra_bytes.
  change 0x80 with (2 ^ 7) at 1.
  rewrite !Z.shiftl_1_l.
  repeat match goal with
         | |- context [?a <? ?b] => destruct (Z.ltb_spec a b)
         end;
    norm_le_bytes; f_equal.
  - apply (first_byte_masked v 16 5); [lia|lia|lia|reflexivity].
  - apply (first_byte_masked v 24 4); [lia|lia|lia|reflexivity].
  - apply (first_byte_masked v 32 3); [lia|lia|lia|reflexivity].
  - apply (first_byte_masked v 40 2); [lia|lia|lia|reflexivity].
  - apply (first_byte_masked v 48 1); [lia|lia|lia|reflexivity].
  - change (8 * Z.of_nat 7) with 56. rewrite shiftr_zero by lia. reflexivity.
  - change (8 * Z.of_nat 8) with 64. rewrite shiftr_zero by lia. reflexivity.
Qed.

Lemma extra_bytes_le8 v : (extra_bytes v <= 8)%nat.
Proof.
  unfold extra_bytes.
  repeat match goal with
         | |- context [?a <? ?b] => destruct (Z.ltb_spec a b)
         end; lia.
Qed.

Lemma extra_bytes_high v :
  0 <= v < 2 ^ 64 ->
  let k := extra_bytes v in
  0 <= Z.shiftr v (8 * Z.of_nat k) < 2 ^ (7 - Z.of_nat k)
  \/ Z.shiftr v (8 * Z.of_nat k) = 0.
Proof.
  intros Hv. unfold extra_bytes.
  repeat match goal with
         | |- context [?a <? ?b] => destruct (Z.ltb_spec a b)
         end; cbv zeta.
  1-7: left; apply shiftr_small; lia.
  - right. apply shiftr_zero; lia.
  - right. apply shiftr_zero; lia.
Qed.

Lemma length_WriteNumber v :
  0 <= v < 2 ^ 64 ->
  length (ArchiveCreate.WriteNumber v) = S (extra_bytes v).
Proof.
  intros Hv. rewrite WriteNumber_shape by exact Hv.
  cbn [length]. rewrite length_le_bytes. reflexivity.
Qed.

Lemma WriteNumber_decode v tail :
  0 <= v < 2 ^ 64 ->
  Varint.decode (ArchiveCreate.WriteNumber v ++ tail)
  = Some (v, length (ArchiveCreate.WriteNumber v)).
Proof.
  intros Hv. rewrite length_WriteNumber by exact Hv.
  rewrite WriteNumber_shape by exact Hv.
  rewrite <- app_comm_cons.
  rewrite decode_first.
  - rewrite le_bytes_high by lia. reflexivity.
  - apply extra_bytes_le8.
  - apply extra_bytes_high. exact Hv.
  - apply length_le_bytes.
Qed.

(** What [k] extra bytes can hold. *)
Definition capacity (k : nat) : Z :=
  if (k <? 8)%nat then 2 ^ (7 * Z.of_nat k + 7) else 2 ^ 64.

Definition high_ok (first : Z) : bool :=
  let k := Varint.leading_ones 8 first in
  let high := Z.land first (Z.shiftr 0x7F (Z.of_nat k)) in
  (k <=? 8)%nat && (0 <=? high)
  && ((high + 1) * 2 ^ (8 * Z.of_nat k) <=? capacity k).

Lemma high_part_bound first : is_byte first -> high_ok first = true.
Proof.
  unfold is_byte. revert first.
  apply (Zrange_check high_ok 256). vm_compute. reflexivity.
Qed.

Lemma extra_bytes_capacity v k :
  (k <= 8)%nat -> 0 <= v < capacity k -> (extra_bytes v <= k)%nat.
Proof.
  intros Hk Hv. unfold extra_bytes.
  do 9 (destruct k as [|k];
        [match type of Hv with
         | context [capacity ?j] =>
             let c := eval vm_compute in (capacity j) in
             change (capacity j) with c in Hv
         end;
         repeat match goal with
                | |- context [?a <? ?b] => destruct (Z.ltb_spec a b)
                end; lia|]).
  lia.
Qed.

(** Whatever decodes to [v] has at least [extra_bytes v] extra bytes. *)
Lemma decode_needs_extra_bytes bs v n :
  Forall is_byte bs -> Varint.decode bs = Some (v, n) -> (extra_bytes v < n)%nat.
Proof.
  intros Hbs Hdec. destruct bs as [|first rest]; [discriminate|].
  apply Forall_cons in Hbs as [Hfirst Hrest].
  unfold Varint.decode in Hdec.
  set (k := Varint.leading_ones 8 first) in *.
  destruct (Nat.ltb_spec (length rest) k) as [|Hlen]; [discriminate|].
  injection Hdec as Hv Hn. subst n.
  pose proof (high_part_bound first Hfirst) as Hok. unfold high_ok in Hok.
  fold k in Hok.
  apply andb_prop in Hok as [Hok Hcap]. apply andb_prop in Hok as [Hk Hhigh].
  apply Nat.leb_le in Hk. apply Z.leb_le in Hhigh, Hcap.
  assert (Hlow : 0 <= le_value (take k rest) < 2 ^ (8 * Z.of_nat k)).
  { pose proof (le_value_bound (take k rest)) as Hb.
    rewrite length_take, Nat.min_l in Hb by lia.
    apply Hb. apply Forall_take. exact Hrest. }
  apply Nat.lt_succ_r. apply extra_bytes_capacity; [exact Hk|].
  subst v. nia.
Qed.

(** ** The encoder of archive_create_true_streaming.c *)

Lemma write_number_loop_le_bytes v :
  TrueStreaming.write_number_loop 8 0 v = le_bytes 8 v.
Proof.
  cbn [TrueStreaming.write_number_loop]. norm_le_bytes.
  rewrite Z.shiftr_0_r. reflexivity.
Qed.

Lemma write_number_short v :
  v < 2 ^ 28 -> TrueStreaming.write_number v = ArchiveCreate.WriteNumber v.
Proof.
  intros Hv. unfold TrueStreaming.write_number, ArchiveCreate.WriteNumber.
  rewrite !Z.shiftl_1_l.
  repeat match goal with
         | |- context [?a <? ?b] => destruct (Z.ltb_spec a b); try reflexivity
         end; lia.
Qed.

Lemma write_number_long v :
  2 ^ 28 <= v -> TrueStreaming.write_number v = 0xFF :: le_bytes 8 v.
Proof.
  intros Hv. unfold TrueStreaming.write_number.
  rewrite !Z.shiftl_1_l.
  repeat match goal with
         | |- context [?a <? ?b] => destruct (Z.ltb_spec a b); try lia
         end.
  rewrite write_number_loop_le_bytes. reflexivity.
Qed.

Lemma write_number_decode v tail :
  0 <= v < 2 ^ 64 ->
  Varint.decode (TrueStreaming.write_number v ++ tail)
  = Some (v, length (TrueStreaming.write_number v)).
Proof.
  intros Hv. destruct (Z.lt_ge_cases v (2 ^ 28)) as [Hs|Hl].
  - rewrite write_number_short by exact Hs. apply WriteNumber_decode. exact Hv.
  - rewrite write_number_long by exact Hl.
    rewrite <- app_comm_cons.
    change 0xFF with (Byte (Z.lor (prefix 8) 0)).
    rewrite decode_first; [|lia|right; reflexivity|apply length_le_bytes].
    cbn [length]. rewrite length_le_bytes.
    rewrite le_value_small by (change (8 * Z.of_nat 8) with 64; lia).
    f_equal. f_equal. lia.
Qed.

(** C1, as stated, fails for the encoder of
    archive_create_true_streaming.c: [write_number] spends nine bytes on
    [2^28] although the five-byte string [F0 00 00 00 10] decodes to it, so
    "the encoder emits the shortest legal encoding for every v" is false. *)
Lemma C1_write_number_not_shortest :
  ~ (forall v, 0 <= v < 2 ^ 64 ->
       forall bs n, Forall is_byte bs -> Varint.decode bs = Some (v, n) ->
         (length (TrueStreaming.write_number v) <= n)%nat).
Proof.
  intros H.
  specialize (H (2 ^ 28) ltac:(lia) [0xF0; 0; 0; 0; 0x10] 5%nat).
  assert (Hb : Forall is_byte [0xF0; 0; 0; 0; 0x10]).
  { repeat constructor; unfold is_byte; lia. }
  specialize (H Hb eq_refl). vm_compute in H. lia.
Qed.

(** C1 (amended): for every unsigned 64-bit value [v], (1) [WriteNumber] of
    archive_create.c round-trips through the decoder, which consumes exactly
    the bytes written, and (2) nothing that decodes to [v] is shorter than
    what [WriteNumber] writes; (3) [write_number] of
    archive_create_true_streaming.c round-trips as well, (4) it agrees with
    [WriteNumber] below [2^28] and (5) it always writes nine bytes from
    [2^28] on. *)
Theorem C1_varint_encoders (v : Z) :
  0 <= v < 2 ^ 64 ->
  (forall tail,
     Varint.decode (ArchiveCreate.WriteNumber v ++ tail)
     = Some (v, length (ArchiveCreate.WriteNumber v)))
  /\ (forall bs n, Forall is_byte bs -> Varint.decode bs = Some (v, n) ->
        (length (ArchiveCreate.WriteNumber v) <= n)%nat)
  /\ (forall tail,
        Varint.decode (TrueStreaming.write_number v ++ tail)
        = Some (v, length (TrueStreaming.write_number v)))
  /\ (v < 2 ^ 28 -> TrueStreaming.write_number v = ArchiveCreate.WriteNumber v)
  /\ (2 ^ 28 <= v -> length (TrueStreaming.write_number v) = 9%nat).
Proof.
  intros Hv. repeat split.
  - intros tail. apply WriteNumber_decode. exact Hv.
  - intros bs n Hbs Hdec. rewrite length_WriteNumber by exact Hv.
    apply Nat.le_succ_l. eapply decode_needs_extra_bytes; eassumption.
  - intros tail. apply write_number_decode. exact Hv.
  - apply write_number_short.
  - intros Hl. rewrite write_number_long by exact Hl.
    cbn [length]. rewrite length_le_bytes. reflexivity.
Qed.

Lemma C1_varint_encoders_witness :
  0 <= 2 ^ 28 < 2 ^ 64
  /\ Varint.decode (ArchiveCreate.WriteNumber (2 ^ 28) ++ [7])
     = Some (2 ^ 28, length (ArchiveCreate.WriteNumber (2 ^ 28)))
  /\ length (TrueStreaming.write_number (2 ^ 28)) = 9%nat.
Proof.
  split; [lia|].
  destruct (C1_varint_encoders (2 ^ 28)) as (H1 & _ & _ & _ & H5); [lia|].
  split; [apply (H1 [7]) | apply H5; lia].
Defined.

(** ** The compressibility test *)

(** Occurrences of the byte value [b] in [sample]. *)
Definition frequency (sample : list Z) (b : Z) : Z :=
  Z.of_nat (count_occ Z.eq_dec sample b).

(** The measure of the specification: how many byte values occur more than
    [length sample / 512] times in [sample]. *)
Definition frequent_values (sample : list Z) : Z :=
  Z.of_nat (length (filter (fun b => Z.of_nat (length sample) / 512 < frequency sample b)
                           (map Z.of_nat (seq 0 256)))).

(** The sample the judgment looks at: the first [min(len, 64 KiB)] bytes. *)
Definition sample_of (data : list Z) : list Z :=
  take (Z.to_nat (Z.min (Z.of_nat (length data)) 65536)) data.

Lemma count_frequencies_length sample freq :
  length (ArchiveCreate.count_frequencies sample freq) = length freq.
Proof.
  unfold ArchiveCreate.count_frequencies. revert freq.
  induction sample as [|b sample IH]; intros freq; [reflexivity|].
  cbn [fold_left]. rewrite IH. apply length_alter.
Qed.

Lemma count_frequencies_lookup sample freq (i : nat) :
  (i < length freq)%nat ->
  Forall is_byte sample ->
  ArchiveCreate.count_frequencies sample freq !!! i
  = freq !!! i + frequency sample (Z.of_nat i).
Proof.
  unfold ArchiveCreate.count_frequencies, frequency. revert freq.
  induction sample as [|b sample IH]; intros freq Hi Hs.
  - cbn. lia.
  - apply Forall_cons in Hs as [Hb Hs]. cbn [fold_left count_occ].
    rewrite IH by (rewrite ?length_alter; assumption).
    destruct (Z.eq_dec b (Z.of_nat i)) as [->|Hne].
    + rewrite Nat2Z.id.
      rewrite list_lookup_total_alter.
      rewrite decide_True by (split; [reflexivity|exact Hi]). lia.
    + rewrite list_lookup_total_alter_ne; [lia|].
      unfold is_byte in Hb. lia.
Qed.

Lemma count_unique_fold (freq : list Z) threshold (idx : list nat) acc :
  fold_left (fun unique (i : nat) =>
               if threshold <? freq !!! i then unique + 1 else unique) idx acc
  = acc + Z.of_nat (length (filter (fun i : nat => threshold < freq !!! i) idx)).
Proof.
  revert acc. induction idx as [|i idx IH]; intros acc.
  - cbn. lia.
  - cbn [fold_left]. rewrite IH. rewrite filter_cons.
    destruct (Z.ltb_spec threshold (freq !!! i)) as [Hlt|Hge].
    + rewrite decide_True by exact Hlt. cbn [length]. lia.
    + rewrite decide_False by lia. lia.
Qed.

Lemma seq_bounded (n : nat) : forall j, j ∈ seq 0 n -> (j < n)%nat.
Proof. intros j Hj. apply elem_of_seq in Hj. lia. Qed.

Lemma count_unique_frequent sample :
  Forall is_byte sample ->
  ArchiveCreate.count_unique
    (ArchiveCreate.count_frequencies sample (replicate 256 0))
    (Z.of_nat (length sample) / 512)
  = frequent_values sample.
Proof.
  intros Hs. unfold ArchiveCreate.count_unique, frequent_values.
  rewrite count_unique_fold. rewrite Z.add_0_l. f_equal.
  generalize (seq_bounded 256). 
  induction (seq 0 256) as [|i idx IH]; intros Hb; [reflexivity|].
  cbn [map]. rewrite !filter_cons.
  rewrite count_frequencies_lookup; [|rewrite length_replicate; apply Hb; apply list_elem_of_here|exact Hs].
  rewrite lookup_total_replicate_2 by (apply Hb; apply list_elem_of_here). rewrite Z.add_0_l.
  assert (IH' := IH (fun j Hj => Hb j (list_elem_of_further _ _ _ Hj))).
  destruct (decide (Z.of_nat (length sample) / 512 < frequency sample (Z.of_nat i)));
    cbn [length]; rewrite IH'; reflexivity.
Qed.

Lemma sample_of_length data :
  Z.of_nat (length (sample_of data)) = Z.min (Z.of_nat (length data)) 65536.
Proof. unfold sample_of. rewrite length_take. lia. Qed.

Lemma judged_by_frequent_values data (limit : Z) :
  Forall is_byte data ->
  let size := Z.of_nat (length data) in
  let sample_size := if size <? 65536 then size else 65536 in
  (ArchiveCreate.count_unique
     (ArchiveCreate.count_frequencies (take (Z.to_nat sample_size) data)
                                      (replicate 256 0))
     (sample_size / 512) <? limit)
  = (frequent_values (sample_of data) <? limit).
Proof.
  intros Hd size sample_size.
  assert (Hs : sample_size = Z.min (Z.of_nat (length data)) 65536).
  { unfold sample_size, size. destruct (Z.ltb_spec (Z.of_nat (length data)) 65536); lia. }
  rewrite Hs. fold (sample_of data).
  rewrite <- sample_of_length.
  rewrite count_unique_frequent; [reflexivity|].
  unfold sample_of. apply Forall_take. exact Hd.
Qed.

(** The judgment of archive_create.c on a payload of 1024 bytes or more. *)
Lemma is_data_compressible_ac data :
  Forall is_byte data ->
  1024 <= Z.of_nat (length data) ->
  ArchiveCreate.is_data_compressible data
  = (frequent_values (sample_of data) <? 220).
Proof.
  intros Hd Hlen. unfold ArchiveCreate.is_data_compressible.
  destruct (Z.ltb_spec (Z.of_nat (length data)) 1024) as [|_]; [lia|].
  cbv zeta. apply judged_by_frequent_values. exact Hd.
Qed.

(** The judgment of archive_create_multivolume.c. *)
Lemma is_data_compressible_mv data :
  Forall is_byte data ->
  1024 <= Z.of_nat (length data) ->
  MultiVolume.is_data_compressible data
  = (frequent_values (sample_of data) <? 200).
Proof.
  intros Hd Hlen. unfold MultiVolume.is_data_compressible.
  destruct (Z.ltb_spec (Z.of_nat (length data)) 1024) as [|_]; [lia|].
  cbv zeta. apply judged_by_frequent_values. exact Hd.
Qed.

(** Every buffer of the builder holds as many bytes as the size of its
    entry says: what [add_entry] leaves. *)
Definition buffers_hold_sizes (fs : list ArchiveCreate.SevenZFile) : Prop :=
  Forall (fun f => forall d, ArchiveCreate.data f = Some d ->
                             Z.of_nat (length d) = ArchiveCreate.size f) fs.

Lemma total_input_size_from fs acc :
  buffers_hold_sizes fs ->
  fold_left (fun total f => if ArchiveCreate.has_data f
                            then total + ArchiveCreate.size f else total) fs acc
  = acc + Z.of_nat (length (ArchiveCreate.combined fs)).
Proof.
  intros Hfs. revert acc. induction Hfs as [|f fs Hf _ IH]; intros acc.
  - cbn. lia.
  - cbn [fold_left]. rewrite IH. unfold ArchiveCreate.combined.
    cbn [flat_map]. fold (ArchiveCreate.combined fs). rewrite length_app.
    unfold ArchiveCreate.has_data, ArchiveCreate.file_bytes in *.
    destruct (ArchiveCreate.is_dir f); cbn [negb andb length]; [lia|].
    destruct (ArchiveCreate.data f) as [d|] eqn:Hd.
    + rewrite bool_decide_eq_true_2 by (eexists; reflexivity).
      change (default [] (Some d)) with d. cbn [negb andb].
      rewrite <- (Hf d eq_refl). lia.
    + rewrite bool_decide_eq_false_2 by (intros [x Hx]; discriminate Hx).
      change (default [] None) with (@nil Z). cbn [negb andb length]. lia.
Qed.

Lemma total_input_size_combined fs :
  buffers_hold_sizes fs ->
  ArchiveCreate.total_input_size fs = Z.of_nat (length (ArchiveCreate.combined fs)).
Proof.
  intros Hfs. unfold ArchiveCreate.total_input_size.
  rewrite total_input_size_from by exact Hfs. lia.
Qed.

(** ** Payloads in which every byte value is frequent *)

Lemma count_occ_concat_replicate (n : nat) (l : list Z) (b : Z) :
  count_occ Z.eq_dec (concat (replicate n l)) b
  = (n * count_occ Z.eq_dec l b)%nat.
Proof.
  induction n as [|n IH]; [reflexivity|].
  cbn [replicate concat]. rewrite count_occ_app, IH. lia.
Qed.

Lemma length_concat_replicate (n : nat) (l : list Z) :
  length (concat (replicate n l)) = (n * length l)%nat.
Proof.
  induction n as [|n IH]; [reflexivity|].
  cbn [replicate concat]. rewrite length_app, IH. lia.
Qed.

(** The 256 byte values, in order. *)
Definition all_bytes : list Z := map Z.of_nat (seq 0 256).

Lemma all_bytes_once b : b ∈ all_bytes -> count_occ Z.eq_dec all_bytes b = 1%nat.
Proof.
  intros Hb.
  assert (Hall : forallb (fun b => (count_occ Z.eq_dec all_bytes b =? 1)%nat)
                         all_bytes = true) by (vm_compute; reflexivity).
  rewrite forallb_forall in Hall. apply Nat.eqb_eq. apply Hall.
  apply list_elem_of_In. exact Hb.
Qed.

Lemma all_bytes_are_bytes : Forall is_byte all_bytes.
Proof.
  apply Forall_forall. intros x Hx. apply list_elem_of_In in Hx.
  apply in_map_iff in Hx as (n & <- & Hn). apply in_seq in Hn.
  unfold is_byte. lia.
Qed.

(** [n] times the 256 byte values. *)
Definition cycles (n : nat) : list Z := concat (replicate n all_bytes).

Lemma length_cycles n : length (cycles n) = (n * 256)%nat.
Proof. unfold cycles. rewrite length_concat_replicate. reflexivity. Qed.

Lemma cycles_are_bytes n : Forall is_byte (cycles n).
Proof.
  unfold cycles. apply Forall_concat. apply Forall_replicate.
  exact all_bytes_are_bytes.
Qed.

Lemma filter_all (P : Z -> Prop) `{forall x, Decision (P x)} (l : list Z) :
  Forall P l -> filter P l = l.
Proof.
  intros Hl. induction Hl as [|x l Hx _ IH]; [reflexivity|].
  rewrite filter_cons, IH. rewrite decide_True by exact Hx. reflexivity.
Qed.

(** In a sample made of whole cycles every byte value is frequent. *)
Lemma frequent_values_cycles (n : nat) :
  (0 < n)%nat -> frequent_values (cycles n) = 256.
Proof.
  intros Hn. unfold frequent_values. fold all_bytes.
  assert (Hall : filter (fun b => Z.of_nat (length (cycles n)) / 512
                                  < frequency (cycles n) b) all_bytes
                 = all_bytes).
  { apply filter_all. apply Forall_forall. intros b Hb.
    unfold frequency, cycles. rewrite count_occ_concat_replicate.
    rewrite (all_bytes_once b Hb). fold (cycles n). rewrite length_cycles.
    rewrite Nat2Z.inj_mul. change (Z.of_nat 256) with 256.
    apply Z.div_lt_upper_bound; lia. }
  rewrite Hall. reflexivity.
Qed.

(** The sample of a payload that starts with 256 cycles. *)
Lemma sample_of_cycles (rest : list Z) :
  sample_of (cycles 256 ++ rest) = cycles 256.
Proof.
  unfold sample_of. rewrite length_app, length_cycles.
  replace (Z.to_nat (Z.min (Z.of_nat (256 * 256 + length rest)) 65536))
    with (length (cycles 256)) by (rewrite length_cycles; lia).
  apply take_app_length.
Qed.

(** ** The coder that the judgment selects *)

Lemma combined_one (f : ArchiveCreate.SevenZFile) (d : list Z) :
  ArchiveCreate.is_dir f = false -> ArchiveCreate.data f = Some d ->
  ArchiveCreate.combined [f] = d.
Proof.
  intros Hdir Hdata. unfold ArchiveCreate.combined, ArchiveCreate.has_data,
    ArchiveCreate.file_bytes. cbn [flat_map]. rewrite Hdir, Hdata.
  rewrite bool_decide_eq_true_2 by (eexists; reflexivity).
  apply app_nil_r.
Qed.

(** One regular file with the given content, to be compressed at a level
    other than Store. *)
Definition one_payload (E : Lzma2Enc) (payload : list Z) (size : Z)
    : ArchiveCreate.SevenZArchiveBuilder :=
  {| ArchiveCreate.files :=
       [ {| ArchiveCreate.name := "payload.bin"; ArchiveCreate.size := size;
            ArchiveCreate.pack_size := 0; ArchiveCreate.mtime := 0;
            ArchiveCreate.attrib := 0x81A4; ArchiveCreate.crc := 0;
            ArchiveCreate.data := Some payload;
            ArchiveCreate.is_dir := false |} ];
     ArchiveCreate.props := @Lzma2EncProps_Init E;
     ArchiveCreate.lzma2_prop_byte := 0;
     ArchiveCreate.use_copy_codec := false |}.

Lemma one_payload_combined E payload size :
  ArchiveCreate.combined (ArchiveCreate.files (one_payload E payload size))
  = payload.
Proof. apply combined_one; reflexivity. Qed.

(** 2048 bytes: every byte value eight times. *)
Definition small_payload : list Z := cycles 8.

(** One byte more than 1 MiB: 64 KiB in which every byte value occurs 256
    times, then zeros. *)
Definition large_payload : list Z :=
  cycles 256 ++ replicate (Z.to_nat (1024 * 1024 + 1 - 65536)) 0.

Lemma large_payload_length : Z.of_nat (length large_payload) = 1024 * 1024 + 1.
Proof.
  unfold large_payload. rewrite length_app, length_cycles, length_replicate. lia.
Qed.

Lemma large_payload_bytes : Forall is_byte large_payload.
Proof.
  unfold large_payload. apply Forall_app. split; [apply cycles_are_bytes|].
  apply Forall_replicate. unfold is_byte. lia.
Qed.

Lemma large_payload_frequent : frequent_values (sample_of large_payload) = 256.
Proof.
  unfold large_payload. rewrite sample_of_cycles.
  apply frequent_values_cycles. lia.
Qed.

Lemma small_payload_frequent : frequent_values (sample_of small_payload) = 256.
Proof.
  unfold small_payload, sample_of. rewrite length_cycles.
  rewrite take_ge by (rewrite length_cycles; lia).
  apply frequent_values_cycles. lia.
Qed.

(** C5, as stated, fails on archive_create.c: for a payload of 2048 bytes in
    which every byte value occurs eight times the count is 256 > 220 (the
    threshold [2048 / 512] is 4), yet the writer does not switch to Copy:
    the payload is not larger than 1 MiB, so the judgment is not consulted
    and the stream is written with LZMA2. *)
Lemma C5_small_payload_not_switched :
  ~ (forall (E : Lzma2Enc) (b b' : ArchiveCreate.SevenZArchiveBuilder) pack,
       ArchiveCreate.use_copy_codec b = false ->
       Forall is_byte (ArchiveCreate.combined (ArchiveCreate.files b)) ->
       ArchiveCreate.compress_all_files b = (SEVENZIP_OK, b', pack) ->
       (ArchiveCreate.use_copy_codec b' = true
        <-> 220 < frequent_values
                    (sample_of (ArchiveCreate.combined (ArchiveCreate.files b))))).
Proof.
  intros H.
  set (b := one_payload identity_encoder small_payload 2048).
  assert (Hrun : exists fs,
             @ArchiveCreate.compress_all_files identity_encoder b
             = (SEVENZIP_OK, ArchiveCreate.with_codec b fs false 0x18,
                Some small_payload)).
  { eexists. unfold ArchiveCreate.compress_all_files, b.
    rewrite one_payload_combined. reflexivity. }
  destruct Hrun as (fs & Hrun).
  assert (Hbytes : Forall is_byte (ArchiveCreate.combined (ArchiveCreate.files b))).
  { unfold b. rewrite one_payload_combined. apply cycles_are_bytes. }
  destruct (H identity_encoder b _ _ eq_refl Hbytes Hrun) as [_ Hcopy].
  assert (Hfalse : false = true).
  { apply Hcopy. unfold b. rewrite one_payload_combined, small_payload_frequent. lia. }
  discriminate Hfalse.
Qed.

(** C5 (amended): let [c] be the number of byte values whose frequency in the
    first [min(len, 64 KiB)] bytes of the payload exceeds [sample_len / 512].
    archive_create.c, at a level other than Store, judges the concatenation
    of all file buffers: when it is larger than 1 MiB and [c > 220] the coder
    is switched to Copy and the packed stream is the payload itself; when it
    is not empty and either at most 1 MiB long or has [c < 220], the encoder
    runs and its output is the packed stream, with the LZMA2 coder.
    archive_create_multivolume.c judges every file on its own, with the limit
    200: a file larger than 1 MiB with [c > 200] is stored as it is, with
    property byte 0; a file of at most 1 MiB, or with [c < 200], is given to
    the encoder. *)
Theorem C5_incompressibility_judgment :
  (forall (E : Lzma2Enc) (b : ArchiveCreate.SevenZArchiveBuilder),
      buffers_hold_sizes (ArchiveCreate.files b) ->
      Forall is_byte (ArchiveCreate.combined (ArchiveCreate.files b)) ->
      ArchiveCreate.use_copy_codec b = false ->
      let data := ArchiveCreate.combined (ArchiveCreate.files b) in
      let len := Z.of_nat (length data) in
      let c := frequent_values (sample_of data) in
      let fs := map ArchiveCreate.set_crc (ArchiveCreate.files b) in
      (1024 * 1024 < len -> 220 < c ->
         ArchiveCreate.compress_all_files b
         = (SEVENZIP_OK, ArchiveCreate.with_codec b fs true 0, Some data))
      /\ (0 < len -> len <= 1024 * 1024 \/ c < 220 ->
          forall out,
            Lzma2Enc_SetProps (ArchiveCreate.props b) = true ->
            Lzma2Enc_Encode2 (ArchiveCreate.props b) data = Some out ->
            ArchiveCreate.compress_all_files b
            = (SEVENZIP_OK,
               ArchiveCreate.with_codec b fs false
                 (Lzma2Enc_WriteProperties (ArchiveCreate.props b)),
               Some out)))
  /\ (forall (E : Lzma2Enc) (read : string -> option (list Z)) file_path
             (ctx : MultiVolume.MultiVolumeContext) props (mapped : list Z),
        read file_path = Some mapped ->
        Forall is_byte mapped ->
        let len := Z.of_nat (length mapped) in
        let c := frequent_values (sample_of mapped) in
        (1024 * 1024 < len -> 200 < c ->
           MultiVolume.compress_file_streaming read file_path ctx props
           = (SZ_OK, MultiVolume.write_all ctx mapped, CrcCalc mapped, len, 0))
        /\ (len <= 1024 * 1024 \/ c < 200 ->
            MultiVolume.compress_file_streaming read file_path ctx props
            = MultiVolume.encode_to_volumes props mapped ctx)).
Proof.
  split.
  - intros E b Hbuf Hbytes Hcopy data len c fs.
    unfold ArchiveCreate.compress_all_files.
    rewrite (total_input_size_combined _ Hbuf), Hcopy. fold data len fs.
    rewrite orb_false_l. split.
    + intros Hlen Hc.
      destruct (Z.eqb_spec len 0) as [Hz|_]; [lia|].
      destruct (Z.ltb_spec (1024 * 1024) len) as [_|Hle]; [|lia].
      rewrite is_data_compressible_ac by (assumption || (fold len; lia)).
      fold c. destruct (Z.ltb_spec c 220) as [Hlt|_]; [lia|]. reflexivity.
    + intros Hpos Hcase out Hset Henc.
      destruct (Z.eqb_spec len 0) as [Hz|_]; [lia|].
      assert (Hlzma : (1024 * 1024 <? len)
                      && negb (ArchiveCreate.is_data_compressible data) = false).
      { destruct (Z.ltb_spec (1024 * 1024) len) as [Hbig|_]; [|reflexivity].
        destruct Hcase as [Hsmall|Hc]; [lia|].
        rewrite is_data_compressible_ac by (assumption || (fold len; lia)).
        fold c. destruct (Z.ltb_spec c 220) as [_|Hge]; [reflexivity|lia]. }
      rewrite Hlzma, Hset, Henc. reflexivity.
  - intros E read file_path ctx props mapped Hread Hbytes len c.
    unfold MultiVolume.compress_file_streaming. rewrite Hread. fold len. split.
    + intros Hlen Hc.
      destruct (Z.eqb_spec len 0) as [Hz|_]; [lia|].
      destruct (Z.ltb_spec (1024 * 1024) len) as [_|Hle]; [|lia].
      rewrite is_data_compressible_mv by (assumption || (fold len; lia)).
      fold c. destruct (Z.ltb_spec c 200) as [Hlt|_]; [lia|]. reflexivity.
    + intros Hcase.
      destruct (Z.eqb_spec len 0) as [Hz|_]; [reflexivity|].
      destruct (Z.ltb_spec (1024 * 1024) len) as [Hbig|_]; [|reflexivity].
      destruct Hcase as [Hsmall|Hc]; [lia|].
      rewrite is_data_compressible_mv by (assumption || (fold len; lia)).
      fold c. destruct (Z.ltb_spec c 200) as [_|Hge]; [reflexivity|lia].
Qed.

Lemma one_payload_holds E payload size :
  Z.of_nat (length payload) = size ->
  buffers_hold_sizes (ArchiveCreate.files (one_payload E payload size)).
Proof.
  intros Hsize. constructor; [|constructor].
  intros d Hd. injection Hd as <-. exact Hsize.
Defined.

Lemma C5_incompressibility_judgment_witness :
  (let b := one_payload identity_encoder large_payload (1024 * 1024 + 1) in
   @ArchiveCreate.compress_all_files identity_encoder b
   = (SEVENZIP_OK,
      ArchiveCreate.with_codec b
        (map ArchiveCreate.set_crc (ArchiveCreate.files b)) true 0,
      Some (ArchiveCreate.combined (ArchiveCreate.files b))))
  /\ (let b := one_payload identity_encoder small_payload 2048 in
      @ArchiveCreate.compress_all_files identity_encoder b
      = (SEVENZIP_OK,
         ArchiveCreate.with_codec b
           (map ArchiveCreate.set_crc (ArchiveCreate.files b)) false 0x18,
         Some small_payload))
  /\ (let ctx := MultiVolume.start_context "a.7z" 4096 0 in
      let props := @Lzma2EncProps_Init identity_encoder in
      @MultiVolume.compress_file_streaming identity_encoder
        (fun _ => Some large_payload) "payload.bin" ctx props
      = (SZ_OK, MultiVolume.write_all ctx large_payload, CrcCalc large_payload,
         Z.of_nat (length large_payload), 0))
  /\ (let ctx := MultiVolume.start_context "a.7z" 4096 0 in
      let props := @Lzma2EncProps_Init identity_encoder in
      @MultiVolume.compress_file_streaming identity_encoder
        (fun _ => Some small_payload) "payload.bin" ctx props
      = @MultiVolume.encode_to_volumes identity_encoder props small_payload ctx).
Proof.
  split; [|split; [|split]].
  - intros b.
    assert (Hbytes : Forall is_byte (ArchiveCreate.combined (ArchiveCreate.files b))).
    { unfold b. rewrite one_payload_combined. exact large_payload_bytes. }
    apply (proj1 (proj1 C5_incompressibility_judgment identity_encoder b
                    (one_payload_holds _ _ _ large_payload_length)
                    Hbytes eq_refl)).
    + unfold b. rewrite one_payload_combined, large_payload_length. lia.
    + unfold b. rewrite one_payload_combined, large_payload_frequent. lia.
  - intros b.
    assert (Hlen : Z.of_nat (length small_payload) = 2048).
    { unfold small_payload. rewrite length_cycles. reflexivity. }
    assert (Hbytes : Forall is_byte (ArchiveCreate.combined (ArchiveCreate.files b))).
    { unfold b. rewrite one_payload_combined. apply cycles_are_bytes. }
    apply (proj2 (proj1 C5_incompressibility_judgment identity_encoder b
                    (one_payload_holds _ _ _ Hlen) Hbytes eq_refl)).
    + unfold b. rewrite one_payload_combined, Hlen. lia.
    + left. unfold b. rewrite one_payload_combined, Hlen. lia.
    + reflexivity.
    + unfold b. rewrite one_payload_combined. reflexivity.
  - intros ctx props.
    apply (proj1 (proj2 C5_incompressibility_judgment identity_encoder
                    (fun _ => Some large_payload) "payload.bin" ctx props
                    large_payload eq_refl large_payload_bytes)).
    + rewrite large_payload_length. lia.
    + rewrite large_payload_frequent. lia.
  - intros ctx props.
    apply (proj2 (proj2 C5_incompressibility_judgment identity_encoder
                    (fun _ => Some small_payload) "payload.bin" ctx props
                    small_payload eq_refl (cycles_are_bytes 8))).
    left. unfold small_payload. rewrite length_cycles. lia.
Defined.


(** The check value of CRC-32: the digest of the ASCII digits 1 to 9. *)
Example CrcCalc_check :
  CrcCalc [0x31; 0x32; 0x33; 0x34; 0x35; 0x36; 0x37; 0x38; 0x39] = 0xCBF43926.
Proof. vm_compute. reflexivity. Qed.

(** ** Streams *)

(** A stream positioned at its end. *)
Definition at_end (f : FILE) : Prop := f_pos f = length (f_data f).

Lemma fwrite_at_end f bs :
  at_end f ->
  fwrite bs f = {| f_data := f_data f ++ bs; f_pos := length (f_data f ++ bs) |}.
Proof.
  unfold at_end, fwrite. intros ->.
  rewrite take_ge by lia. rewrite drop_ge by lia.
  rewrite app_nil_r, length_app. reflexivity.
Qed.

Lemma fwrite_at_end_data f bs :
  at_end f -> f_data (fwrite bs f) = f_data f ++ bs.
Proof. intros H. rewrite fwrite_at_end by exact H. reflexivity. Qed.

Lemma fwrite_at_end_end f bs : at_end f -> at_end (fwrite bs f).
Proof. intros H. rewrite fwrite_at_end by exact H. reflexivity. Qed.

(** Overwriting a field in the middle of the file. *)
Lemma fwrite_patch (pre old post bs : list Z) (pos : Z) :
  length bs = length old ->
  pos = Z.of_nat (length pre) ->
  f_data (fwrite bs (fseek_set {| f_data := pre ++ old ++ post; f_pos := 0 |} pos))
  = pre ++ bs ++ post.
Proof.
  intros Hlen ->. unfold fwrite, fseek_set. cbn [f_data f_pos].
  rewrite Nat2Z.id. rewrite take_app_length.
  rewrite drop_app_add'; [|reflexivity]. rewrite Hlen.
  rewrite drop_app_length. reflexivity.
Qed.

Lemma fseek_set_data f pos : f_data (fseek_set f pos) = f_data f.
Proof. reflexivity. Qed.

Lemma fseek_set_irrel f p pos :
  fseek_set f pos = fseek_set {| f_data := f_data f; f_pos := p |} pos.
Proof. reflexivity. Qed.

(** ** CRC values are 32-bit *)

Definition is_u32 (c : Z) : Prop := 0 <= c < 2 ^ 32.

Lemma lxor_range a b n :
  0 <= n -> 0 <= a < 2 ^ n -> 0 <= b < 2 ^ n -> 0 <= Z.lxor a b < 2 ^ n.
Proof.
  intros Hn Ha Hb.
  assert (H0 : 0 <= Z.lxor a b) by (apply Z.lxor_nonneg; lia).
  split; [exact H0|].
  destruct (Z.eq_dec (Z.lxor a b) 0) as [->|Hne]; [lia|].
  assert (Hpos : 0 < n).
  { destruct (Z.eq_dec n 0) as [->|]; [|lia].
    change (2 ^ 0) with 1 in *.
    assert (a = 0) by lia. assert (b = 0) by lia. subst.
    exfalso. apply Hne. reflexivity. }
  apply Z.log2_lt_pow2; [lia|].
  eapply Z.le_lt_trans; [apply Z.log2_lxor; lia|].
  apply Z.max_lub_lt.
  - destruct (Z.eq_dec a 0) as [->|]; [simpl; lia|]. apply Z.log2_lt_pow2; lia.
  - destruct (Z.eq_dec b 0) as [->|]; [simpl; lia|]. apply Z.log2_lt_pow2; lia.
Qed.

Lemma crc_bit_range c : is_u32 c -> is_u32 (crc_bit c).
Proof.
  unfold is_u32, crc_bit. intros Hc.
  assert (Hs : 0 <= Z.shiftr c 1 < 2 ^ 32).
  { rewrite Z.shiftr_div_pow2 by lia. change (2 ^ 1) with 2.
    split; [apply Z.div_pos; lia|apply Z.div_lt_upper_bound; lia]. }
  destruct (Z.testbit c 0); [|exact Hs].
  apply lxor_range; lia.
Qed.

Lemma crc_byte_range c b : is_u32 c -> is_byte b -> is_u32 (crc_byte c b).
Proof.
  intros Hc Hb. unfold crc_byte.
  assert (H0 : is_u32 (Z.lxor c b)).
  { unfold is_u32, is_byte in *. apply lxor_range; lia. }
  generalize dependent (Z.lxor c b). intros x Hx.
  do 8 (rewrite Nat.iter_succ; apply crc_bit_range). exact Hx.
Qed.

Lemma CrcUpdate_range c data :
  is_u32 c -> Forall is_byte data -> is_u32 (CrcUpdate c data).
Proof.
  unfold CrcUpdate. intros Hc Hd. revert c Hc.
  induction Hd as [|b data Hb _ IH]; intros c Hc; [exact Hc|].
  cbn [fold_left]. apply IH. apply crc_byte_range; assumption.
Qed.

Lemma CrcCalc_range data : Forall is_byte data -> is_u32 (CrcCalc data).
Proof.
  intros Hd. unfold CrcCalc, CRC_GET_DIGEST.
  pose proof (CrcUpdate_range CRC_INIT_VAL data) as H.
  unfold is_u32 in *. apply lxor_range; [lia| |lia].
  apply H; [unfold CRC_INIT_VAL; lia|exact Hd].
Qed.

Lemma fwrite_inplace f (pre old post bs : list Z) :
  f_data f = pre ++ old ++ post ->
  f_pos f = length pre ->
  length bs = length old ->
  f_data (fwrite bs f) = pre ++ bs ++ post
  /\ f_pos (fwrite bs f) = length (pre ++ bs).
Proof.
  intros Hd Hp Hl. unfold fwrite. cbn [f_data f_pos]. rewrite Hd, Hp. split.
  - rewrite take_app_length. rewrite drop_app_add'; [|reflexivity].
    rewrite Hl, drop_app_length. reflexivity.
  - rewrite length_app. reflexivity.
Qed.

(** ** The layout of a finished archive *)

(** The 20 bytes at offsets 12..31. *)
Definition start_header (offset : Z) (header : list Z) : list Z :=
  le_bytes 8 offset ++ le_bytes 8 (Z.of_nat (length header))
  ++ le_bytes 4 (CrcCalc header).

(** The 32 bytes at offsets 0..31. *)
Definition signature_header (offset : Z) (header : list Z) : list Z :=
  k7zSignature ++ [0; 4]
  ++ le_bytes 4 (CrcCalc (start_header offset header))
  ++ start_header offset header.

Lemma length_start_header offset header :
  length (start_header offset header) = 20%nat.
Proof. unfold start_header. rewrite !length_app, !length_le_bytes. reflexivity. Qed.

Lemma length_signature_header offset header :
  length (signature_header offset header) = 32%nat.
Proof.
  unfold signature_header.
  rewrite !length_app, length_start_header, length_le_bytes. reflexivity.
Qed.

(** Patching the placeholders of a stream that starts with the signature,
    the version and 24 placeholder bytes: first the 20 bytes at 12, then the
    4 bytes at 8, as both writers do. *)
Lemma patch_start_header (f : FILE) (body : list Z) (offset : Z)
    (header sh : list Z) (p12 p8 size : Z) :
  f_data f = k7zSignature ++ [0; 4] ++ le_bytes 4 0
             ++ le_bytes 8 0 ++ le_bytes 8 0 ++ le_bytes 4 0 ++ body ->
  p12 = 12 -> p8 = 8 -> size = Z.of_nat (length header) ->
  sh = start_header offset header ->
  f_data
    (fwrite (le_bytes 4 (CrcCalc sh))
       (fseek_set
          (fwrite (le_bytes 4 (CrcCalc header))
             (fwrite (le_bytes 8 size)
                (fwrite (le_bytes 8 offset) (fseek_set f p12))))
          p8))
  = signature_header offset header ++ body.
Proof.
  intros Hd -> -> -> ->.
  set (f1 := fseek_set f 12).
  set (f2 := fwrite (le_bytes 8 offset) f1).
  set (f3 := fwrite (le_bytes 8 (Z.of_nat (length header))) f2).
  set (f4 := fwrite (le_bytes 4 (CrcCalc header)) f3).
  set (f5 := fseek_set f4 8).
  destruct (fwrite_inplace f1 (k7zSignature ++ [0; 4] ++ le_bytes 4 0)
              (le_bytes 8 0) (le_bytes 8 0 ++ le_bytes 4 0 ++ body)
              (le_bytes 8 offset)) as [Hd2 Hp2].
  { unfold f1. rewrite fseek_set_data, Hd, <- !app_assoc. reflexivity. }
  { reflexivity. }
  { rewrite !length_le_bytes. reflexivity. }
  fold f2 in Hd2, Hp2.
  destruct (fwrite_inplace f2
              ((k7zSignature ++ [0; 4] ++ le_bytes 4 0) ++ le_bytes 8 offset)
              (le_bytes 8 0) (le_bytes 4 0 ++ body)
              (le_bytes 8 (Z.of_nat (length header)))) as [Hd3 Hp3].
  { rewrite Hd2, <- !app_assoc. reflexivity. }
  { exact Hp2. }
  { rewrite !length_le_bytes. reflexivity. }
  fold f3 in Hd3, Hp3.
  destruct (fwrite_inplace f3
              (((k7zSignature ++ [0; 4] ++ le_bytes 4 0) ++ le_bytes 8 offset)
               ++ le_bytes 8 (Z.of_nat (length header)))
              (le_bytes 4 0) body
              (le_bytes 4 (CrcCalc header))) as [Hd4 _].
  { rewrite Hd3, <- !app_assoc. reflexivity. }
  { exact Hp3. }
  { rewrite !length_le_bytes. reflexivity. }
  fold f4 in Hd4.
  destruct (fwrite_inplace f5 (k7zSignature ++ [0; 4]) (le_bytes 4 0)
              (start_header offset header ++ body)
              (le_bytes 4 (CrcCalc (start_header offset header)))) as [Hd6 _].
  { unfold f5. rewrite fseek_set_data, Hd4. unfold start_header.
    rewrite <- !app_assoc. reflexivity. }
  { reflexivity. }
  { rewrite !length_le_bytes. reflexivity. }
  rewrite Hd6. unfold signature_header.
  rewrite <- !app_assoc. reflexivity.
Qed.

Local Opaque CrcCalc le_bytes ArchiveCreate.build_header.

Section ArchiveCreateLayout.
Context `{Lzma2Enc}.

Lemma archive_create_layout (b : ArchiveCreate.SevenZArchiveBuilder) (f : FILE) :
  ArchiveCreate.write_7z_archive b = Some (SEVENZIP_OK, f) ->
  exists b' pack_data,
    ArchiveCreate.compress_all_files b = (SEVENZIP_OK, b', pack_data)
    /\ let pack := default [] pack_data in
       let header := ArchiveCreate.build_header b' (Z.of_nat (length pack)) in
       Z.of_nat (length header) <= ArchiveCreate.header_capacity
       /\ f_data f = signature_header (Z.of_nat (length pack)) header
                     ++ pack ++ header.
Proof.
  unfold ArchiveCreate.write_7z_archive.
  destruct (ArchiveCreate.compress_all_files b) as [[err b'] pack_data].
  destruct err; try (intros [=]; fail).
  set (pack := default [] pack_data).
  set (header := ArchiveCreate.build_header b' (Z.of_nat (length pack))).
  set (f0 := fwrite (le_bytes 4 0) (fwrite (le_bytes 8 0) (fwrite (le_bytes 8 0)
               (fwrite (le_bytes 4 0) (fwrite [k7zMajorVersion; 4]
                  (fwrite k7zSignature fopen_wb)))))).
  set (f1 := match pack_data with
             | Some bytes => if 0 <? Z.of_nat (length pack) then fwrite bytes f0 else f0
             | None => f0
             end).
  assert (Hf0 : f_data f0 = k7zSignature ++ [0; 4] ++ le_bytes 4 0 ++ le_bytes 8 0
                            ++ le_bytes 8 0 ++ le_bytes 4 0 /\ at_end f0).
  { split; reflexivity. }
  assert (Hf1 : f_data f1 = f_data f0 ++ pack /\ at_end f1
                /\ ftell f1 - ftell f0 = Z.of_nat (length pack)).
  { destruct Hf0 as [_ He0]. unfold f1, pack. clear f1 header.
    destruct pack_data as [bytes|].
    - change (default [] (Some bytes)) with bytes in *.
      destruct (Z.ltb_spec 0 (Z.of_nat (length bytes))) as [Hpos|Hz].
      + rewrite fwrite_at_end by exact He0. cbn [f_data]. split; [reflexivity|].
        split; [reflexivity|]. unfold ftell. cbn [f_pos]. rewrite He0, length_app. lia.
      + assert (bytes = []) as -> by (destruct bytes; [reflexivity|cbn in Hz; lia]).
        rewrite app_nil_r. split; [reflexivity|]. split; [exact He0|]. cbn. lia.
    - change (default [] None) with (@nil Z) in *.
      rewrite app_nil_r. split; [reflexivity|]. split; [exact He0|]. cbn. lia. }
  destruct Hf1 as (Hd1 & He1 & Hoff).
  destruct (Z.ltb_spec ArchiveCreate.header_capacity (Z.of_nat (length header)))
    as [|Hcap]; [intros [=]|].
  intros [= <-]. exists b', pack_data. split; [reflexivity|].
  fold pack header. split; [exact Hcap|].
  replace (signature_header (Z.of_nat (length pack)) header)
    with (signature_header (ftell f1 - ftell f0) header) by (rewrite Hoff; reflexivity).
  eapply (patch_start_header (fwrite header f1) (pack ++ header));
    [|reflexivity|reflexivity|reflexivity|reflexivity].
  rewrite fwrite_at_end_data by exact He1. rewrite Hd1.
  destruct Hf0 as [-> _]. rewrite <- !app_assoc. reflexivity.
Qed.

(** The writer returns [SEVENZIP_OK] once the data is packed and the header
    fits its buffer. *)
Lemma archive_create_writes (b b' : ArchiveCreate.SevenZArchiveBuilder) pack_data :
  ArchiveCreate.compress_all_files b = (SEVENZIP_OK, b', pack_data) ->
  Z.of_nat (length (ArchiveCreate.build_header b'
                      (Z.of_nat (length (default [] pack_data)))))
  <= ArchiveCreate.header_capacity ->
  exists f, ArchiveCreate.write_7z_archive b = Some (SEVENZIP_OK, f).
Proof.
  intros Hc Hcap. unfold ArchiveCreate.write_7z_archive. rewrite Hc.
  destruct (Z.ltb_spec ArchiveCreate.header_capacity
              (Z.of_nat (length (ArchiveCreate.build_header b'
                                   (Z.of_nat (length (default [] pack_data)))))))
    as [Hover|_]; [lia|].
  eexists. reflexivity.
Qed.

End ArchiveCreateLayout.

Local Transparent CrcCalc le_bytes ArchiveCreate.build_header.

(** The streaming writer stores the offset at once and patches the size and
    the two CRCs. *)
Lemma patch_size_and_crcs (f : FILE) (body : list Z) (offset : Z)
    (header sh : list Z) (p20 p8 size : Z) :
  f_data f = k7zSignature ++ [0; 4] ++ le_bytes 4 0
             ++ le_bytes 8 offset ++ le_bytes 8 0 ++ le_bytes 4 0 ++ body ->
  p20 = 20 -> p8 = 8 -> size = Z.of_nat (length header) ->
  sh = start_header offset header ->
  f_data
    (fwrite (le_bytes 4 (CrcCalc sh))
       (fseek_set
          (fwrite (le_bytes 4 (CrcCalc header))
             (fwrite (le_bytes 8 size) (fseek_set f p20)))
          p8))
  = signature_header offset header ++ body.
Proof.
  intros Hd -> -> -> ->.
  set (f1 := fseek_set f 20).
  set (f2 := fwrite (le_bytes 8 (Z.of_nat (length header))) f1).
  set (f3 := fwrite (le_bytes 4 (CrcCalc header)) f2).
  set (f4 := fseek_set f3 8).
  destruct (fwrite_inplace f1
              (k7zSignature ++ [0; 4] ++ le_bytes 4 0 ++ le_bytes 8 offset)
              (le_bytes 8 0) (le_bytes 4 0 ++ body)
              (le_bytes 8 (Z.of_nat (length header)))) as [Hd2 Hp2].
  { unfold f1. rewrite fseek_set_data, Hd, <- !app_assoc. reflexivity. }
  { unfold f1. cbn [fseek_set f_pos]. rewrite !length_app, !length_le_bytes. reflexivity. }
  { rewrite !length_le_bytes. reflexivity. }
  fold f2 in Hd2, Hp2.
  destruct (fwrite_inplace f2
              ((k7zSignature ++ [0; 4] ++ le_bytes 4 0 ++ le_bytes 8 offset)
               ++ le_bytes 8 (Z.of_nat (length header)))
              (le_bytes 4 0) body
              (le_bytes 4 (CrcCalc header))) as [Hd3 _].
  { rewrite Hd2, <- !app_assoc. reflexivity. }
  { exact Hp2. }
  { rewrite !length_le_bytes. reflexivity. }
  fold f3 in Hd3.
  destruct (fwrite_inplace f4 (k7zSignature ++ [0; 4]) (le_bytes 4 0)
              (start_header offset header ++ body)
              (le_bytes 4 (CrcCalc (start_header offset header)))) as [Hd5 _].
  { unfold f4. rewrite fseek_set_data, Hd3. unfold start_header.
    rewrite <- !app_assoc. reflexivity. }
  { reflexivity. }
  { rewrite !length_le_bytes. reflexivity. }
  rewrite Hd5. unfold signature_header.
  rewrite <- !app_assoc. reflexivity.
Qed.

Lemma copy_temp_spec (fuel : nat) (temp : list Z) (remaining : Z) (archive : FILE) :
  at_end archive -> 0 <= remaining -> (Z.to_nat remaining < fuel)%nat ->
  f_data (TrueStreaming.copy_temp fuel temp remaining archive)
  = f_data archive ++ take (Z.to_nat remaining) temp
  /\ at_end (TrueStreaming.copy_temp fuel temp remaining archive).
Proof.
  revert temp remaining archive.
  induction fuel as [|fuel IH]; intros temp remaining archive He Hr Hf; [lia|].
  cbn [TrueStreaming.copy_temp].
  destruct (Z.ltb_spec 0 remaining) as [Hpos|Hz].
  2:{ replace (Z.to_nat remaining) with 0%nat by lia.
      rewrite take_0, app_nil_r. split; [reflexivity|exact He]. }
  set (to_copy := if remaining <? 65536 then remaining else 65536).
  assert (Hc : 0 < to_copy <= remaining).
  { unfold to_copy. destruct (Z.ltb_spec remaining 65536); lia. }
  destruct (Nat.eqb_spec (length (take (Z.to_nat to_copy) temp)) 0) as [Hempty|Hne].
  - rewrite length_take in Hempty.
    assert (temp = []) as -> by (destruct temp; [reflexivity|cbn in Hempty; lia]).
    rewrite take_nil, app_nil_r. split; [reflexivity|exact He].
  - set (buffer := take (Z.to_nat to_copy) temp) in *.
    assert (Hlen : (0 < length buffer <= Z.to_nat to_copy)%nat).
    { unfold buffer. rewrite length_take. unfold buffer in Hne.
      rewrite length_take in Hne. lia. }
    destruct (IH (drop (Z.to_nat to_copy) temp)
                 (remaining - Z.of_nat (length buffer)) (fwrite buffer archive))
      as [Hd He'].
    + apply fwrite_at_end_end. exact He.
    + lia.
    + lia.
    + split; [|exact He'].
      rewrite Hd, fwrite_at_end_data by exact He. rewrite <- app_assoc. f_equal.
      unfold buffer in *. rewrite length_take in *.
      destruct (Nat.le_gt_cases (Z.to_nat to_copy) (length temp)) as [Hle|Hgt].
      * rewrite Nat.min_l by lia.
        replace (Z.to_nat (remaining - Z.of_nat (Z.to_nat to_copy)))
          with (Z.to_nat remaining - Z.to_nat to_copy)%nat by lia.
        rewrite <- (take_drop (Z.to_nat to_copy) (take (Z.to_nat remaining) temp)).
        rewrite take_take, Nat.min_l by lia.
        rewrite skipn_firstn_comm. reflexivity.
      * rewrite (take_ge temp (Z.to_nat to_copy)) by lia.
        rewrite (drop_ge temp) by lia. rewrite take_nil, app_nil_r.
        rewrite take_ge by lia. reflexivity.
Qed.

Local Opaque CrcCalc TrueStreaming.build_header.

Lemma true_streaming_layout (b : TrueStreaming.StreamingArchiveBuilder)
    (temp_data : list Z) (data_size : Z) :
  0 <= data_size ->
  let header := TrueStreaming.build_header b data_size in
  Z.of_nat (length header) <= TrueStreaming.header_capacity b ->
  exists f,
    TrueStreaming.write_7z_archive b temp_data data_size = Some (SEVENZIP_OK, f)
    /\ f_data f = signature_header data_size header
                  ++ take (Z.to_nat data_size) temp_data ++ header.
Proof.
  intros Hsz header Hcap.
  unfold TrueStreaming.write_7z_archive. fold header.
  destruct (Z.ltb_spec (TrueStreaming.header_capacity b) (Z.of_nat (length header)))
    as [Hover|_]; [lia|].
  eexists. split; [reflexivity|].
  set (f0 := fwrite (le_bytes 4 0) (fwrite (le_bytes 8 0)
               (fwrite (le_bytes 8 data_size) (fwrite (le_bytes 4 0)
                  (fwrite [0; 4] (fwrite k7zSignature fopen_wb)))))).
  assert (Hf0 : f_data f0 = k7zSignature ++ [0; 4] ++ le_bytes 4 0
                            ++ le_bytes 8 data_size ++ le_bytes 8 0 ++ le_bytes 4 0
                /\ at_end f0).
  { unfold f0. rewrite !fwrite_at_end; cbn [f_data f_pos];
      try reflexivity.
    split; [rewrite <- !app_assoc; reflexivity|reflexivity]. }
  destruct Hf0 as [Hd0 He0].
  destruct (copy_temp_spec (S (Z.to_nat data_size)) temp_data data_size f0 He0 Hsz)
    as [Hd1 He1]; [lia|].
  set (f1 := TrueStreaming.copy_temp (S (Z.to_nat data_size)) temp_data data_size f0) in *.
  eapply (patch_size_and_crcs (fwrite header f1)
            (take (Z.to_nat data_size) temp_data ++ header));
    [|reflexivity|reflexivity|reflexivity|reflexivity].
  rewrite fwrite_at_end_data by exact He1. rewrite Hd1, Hd0.
  rewrite <- !app_assoc. reflexivity.
Qed.

Local Transparent CrcCalc TrueStreaming.build_header.

(** ** The temporary file of the streaming writer holds [packed_size] bytes *)

Lemma compress_chunks_inv fuel input size chunk_size read crc temp packed :
  at_end temp -> packed = Z.of_nat (length (f_data temp)) ->
  let r := TrueStreaming.compress_chunks fuel input size chunk_size read crc temp packed in
  at_end (r.1.2) /\ r.2 = Z.of_nat (length (f_data (r.1.2))).
Proof.
  revert input read crc temp packed.
  induction fuel as [|fuel IH]; intros input read crc temp packed He Hp;
    cbn [TrueStreaming.compress_chunks]; [split; assumption|].
  destruct (read <? size); [|split; assumption].
  destruct (length _ =? 0)%nat; [split; assumption|].
  apply IH.
  - apply fwrite_at_end_end. exact He.
  - rewrite fwrite_at_end_data by exact He. rewrite length_app. lia.
Qed.

Lemma compress_each_inv disk chunk_size fs done temp packed :
  at_end temp -> packed = Z.of_nat (length (f_data temp)) ->
  let r := TrueStreaming.compress_each disk chunk_size fs done temp packed in
  at_end (r.1.2) /\ r.2 = Z.of_nat (length (f_data (r.1.2))).
Proof.
  revert done temp packed.
  induction fs as [|file rest IH]; intros done temp packed He Hp;
    cbn [TrueStreaming.compress_each]; [split; assumption|].
  destruct (_ || _); [apply IH; assumption|].
  destruct (disk _) as [input|]; [|split; assumption].
  pose proof (compress_chunks_inv
                (S (Z.to_nat (TrueStreaming.size file))) input
                (TrueStreaming.size file) chunk_size 0 CRC_INIT_VAL temp packed He Hp)
    as Hc.
  destruct (TrueStreaming.compress_chunks _ _ _ _ _ _ _ _) as [[crc temp'] packed'].
  cbn in Hc. destruct Hc as [He' Hp']. apply IH; assumption.
Qed.

Lemma compress_files_streaming_packed `{Lzma2Enc} disk b level threads b' temp :
  TrueStreaming.compress_files_streaming disk b fopen_wb level threads
  = (SEVENZIP_OK, b', temp) ->
  TrueStreaming.packed_size b' = Z.of_nat (length (f_data temp)).
Proof.
  unfold TrueStreaming.compress_files_streaming.
  destruct (negb _); [intros [=]|].
  pose proof (compress_each_inv disk (TrueStreaming.chunk_size b)
                (TrueStreaming.files b) [] fopen_wb 0 eq_refl eq_refl) as Hinv.
  destruct (TrueStreaming.compress_each _ _ _ _ _ _) as [[[err fs] temp'] packed].
  cbn in Hinv. destruct Hinv as [_ Hp].
  intros [= _ <- <-]. exact Hp.
Qed.

(** ** The signature header, read back *)

(** [len] bytes at offset [off]. *)
Definition field (d : list Z) (off len : nat) : list Z := take len (drop off d).

(** What the reader finds in the first 32 bytes of the archive [d], given
    the packed stream and the header block that were written. *)
Definition signature_header_holds (d pack header : list Z) : Prop :=
  field d 0 6 = [0x37; 0x7A; 0xBC; 0xAF; 0x27; 0x1C]
  /\ field d 6 2 = [0; 4]
  /\ le_value (field d 12 8) = u64 (Z.of_nat (length pack))
  /\ drop (32 + length pack) d = header
  /\ le_value (field d 20 8) = u64 (Z.of_nat (length header))
  /\ le_value (field d 28 4) = u32 (CrcCalc header)
  /\ le_value (field d 8 4) = u32 (CrcCalc (field d 12 20)).

Lemma field_app_l (d rest : list Z) off len :
  (off + len <= length d)%nat -> field (d ++ rest) off len = field d off len.
Proof.
  intros Hl. unfold field. rewrite drop_app_le by lia.
  rewrite take_app_le; [reflexivity|]. rewrite length_drop. lia.
Qed.

Ltac solve_length :=
  first [ rewrite ?length_app, ?length_le_bytes; reflexivity
        | symmetry; rewrite ?length_app, ?length_le_bytes; reflexivity ].

Lemma layout_holds (pack header : list Z) :
  signature_header_holds
    (signature_header (Z.of_nat (length pack)) header ++ pack ++ header)
    pack header.
Proof.
  set (offset := Z.of_nat (length pack)).
  set (sh := start_header offset header).
  assert (Hsh : length sh = 20%nat) by apply length_start_header.
  assert (Hsig : signature_header offset header
                 = k7zSignature ++ [0; 4] ++ le_bytes 4 (CrcCalc sh) ++ sh)
    by reflexivity.
  assert (Hlen : length (signature_header offset header) = 32%nat)
    by apply length_signature_header.
  unfold signature_header_holds.
  rewrite !field_app_l by (rewrite Hlen; lia).
  assert (F12 : field (signature_header offset header) 12 20 = sh).
  { rewrite Hsig. unfold field.
    change (k7zSignature ++ [0; 4] ++ le_bytes 4 (CrcCalc sh) ++ sh)
      with ((k7zSignature ++ [0; 4] ++ le_bytes 4 (CrcCalc sh)) ++ sh).
    rewrite drop_app_length' by solve_length.
    rewrite take_ge by lia. reflexivity. }
  assert (F8 : field (signature_header offset header) 8 4 = le_bytes 4 (CrcCalc sh)).
  { rewrite Hsig. unfold field.
    change (k7zSignature ++ [0; 4] ++ le_bytes 4 (CrcCalc sh) ++ sh)
      with ((k7zSignature ++ [0; 4]) ++ le_bytes 4 (CrcCalc sh) ++ sh).
    rewrite drop_app_length' by solve_length.
    rewrite take_app_length' by solve_length. reflexivity. }
  assert (Fsub : forall off len, (off + len <= 20)%nat ->
            field (signature_header offset header) (12 + off) len = field sh off len).
  { intros off len Hol. unfold field. rewrite <- drop_drop.
    unfold field in F12.
    rewrite <- (take_drop 20 (drop 12 (signature_header offset header))).
    rewrite F12. rewrite drop_app_le by lia.
    rewrite take_app_le; [reflexivity|]. rewrite length_drop. lia. }
  pose proof (Fsub 0%nat 8%nat ltac:(lia)) as S12.
  pose proof (Fsub 8%nat 8%nat ltac:(lia)) as S20.
  pose proof (Fsub 16%nat 4%nat ltac:(lia)) as S28.
  cbn [Nat.add] in S12, S20, S28.
  split; [reflexivity|]. split; [reflexivity|].
  split; [|split; [|split; [|split]]].
  - rewrite S12. unfold sh, start_header, field.
    rewrite drop_0, take_app_length' by solve_length.
    rewrite le_value_le_bytes. unfold u64, u32. apply (f_equal (Z.modulo _)). reflexivity.
  - rewrite app_assoc. rewrite drop_app_length'; [reflexivity|].
    rewrite length_app, Hlen. lia.
  - rewrite S20. unfold sh, start_header, field.
    rewrite drop_app_length' by solve_length.
    rewrite take_app_length' by solve_length.
    rewrite le_value_le_bytes. unfold u64, u32. apply (f_equal (Z.modulo _)). reflexivity.
  - rewrite S28. unfold sh, start_header, field.
    rewrite app_assoc.
    rewrite drop_app_length' by solve_length.
    rewrite take_ge by (rewrite length_le_bytes; lia).
    rewrite le_value_le_bytes. unfold u64, u32. apply (f_equal (Z.modulo _)). reflexivity.
  - rewrite F8, F12. clear. generalize (CrcCalc sh). intros c.
    rewrite le_value_le_bytes. unfold u64, u32. apply (f_equal (Z.modulo _)). reflexivity.
Qed.

(** C2: the first 32 bytes of a finished archive hold the magic bytes, the
    version 0.4, NextHeaderOffset = the size of the packed stream (the header
    block starts that many bytes after byte 32 and runs to the end of the
    file), NextHeaderSize = the length of the header block, NextHeaderCRC =
    CRC32 of the header block and StartHeaderCRC = CRC32 of the 20 bytes at
    offsets 12..31, all little-endian.

    For archive_create.c: [write_7z_archive] returns [SEVENZIP_OK] with such
    a file whenever [compress_all_files] succeeded and the header fits its
    buffer, and on no other path.  For archive_create_true_streaming.c:
    [write_7z_archive] returns [SEVENZIP_OK] with such a file whenever the
    header fits its buffer, the packed stream being the content of the
    temporary file, whose length is the [packed_size] that
    [compress_files_streaming] reports. *)
Theorem C2_signature_header_patched :
  (forall (E : Lzma2Enc) (b : ArchiveCreate.SevenZArchiveBuilder) (f : FILE),
      ArchiveCreate.write_7z_archive b = Some (SEVENZIP_OK, f) ->
      exists b' pack_data,
        ArchiveCreate.compress_all_files b = (SEVENZIP_OK, b', pack_data)
        /\ signature_header_holds (f_data f) (default [] pack_data)
             (ArchiveCreate.build_header b'
                (Z.of_nat (length (default [] pack_data)))))
  /\ (forall (E : Lzma2Enc) (b b' : ArchiveCreate.SevenZArchiveBuilder) pack_data,
        ArchiveCreate.compress_all_files b = (SEVENZIP_OK, b', pack_data) ->
        Z.of_nat (length (ArchiveCreate.build_header b'
                            (Z.of_nat (length (default [] pack_data)))))
        <= ArchiveCreate.header_capacity ->
        exists f,
          ArchiveCreate.write_7z_archive b = Some (SEVENZIP_OK, f)
          /\ signature_header_holds (f_data f) (default [] pack_data)
               (ArchiveCreate.build_header b'
                  (Z.of_nat (length (default [] pack_data)))))
  /\ (forall (b : TrueStreaming.StreamingArchiveBuilder) (temp_data : list Z),
        let data_size := Z.of_nat (length temp_data) in
        Z.of_nat (length (TrueStreaming.build_header b data_size))
        <= TrueStreaming.header_capacity b ->
        exists f,
          TrueStreaming.write_7z_archive b temp_data data_size
          = Some (SEVENZIP_OK, f)
          /\ signature_header_holds (f_data f) temp_data
               (TrueStreaming.build_header b data_size))
  /\ (forall (E : Lzma2Enc) disk (b b' : TrueStreaming.StreamingArchiveBuilder)
             level threads (temp : FILE),
        TrueStreaming.compress_files_streaming disk b fopen_wb level threads
        = (SEVENZIP_OK, b', temp) ->
        TrueStreaming.packed_size b' = Z.of_nat (length (f_data temp))).
Proof.
  split; [|split; [|split]].
  - intros E b f Hw.
    destruct (archive_create_layout b f Hw) as (b' & pack_data & Hc & _ & Hd).
    exists b', pack_data. split; [exact Hc|].
    rewrite Hd. apply layout_holds.
  - intros E b b' pack_data Hc Hcap.
    destruct (archive_create_writes b b' pack_data Hc Hcap) as (f & Hw).
    exists f. split; [exact Hw|].
    destruct (archive_create_layout b f Hw) as (b2 & pack2 & Hc2 & _ & Hd).
    rewrite Hc in Hc2. injection Hc2 as <- <-.
    rewrite Hd. apply layout_holds.
  - intros b temp_data data_size Hcap.
    destruct (true_streaming_layout b temp_data data_size) as (f & Hw & Hd);
      [unfold data_size; lia|exact Hcap|].
    exists f. split; [exact Hw|].
    rewrite Hd.
    replace (take (Z.to_nat data_size) temp_data) with temp_data
      by (unfold data_size; rewrite Nat2Z.id, take_ge by lia; reflexivity).
    apply layout_holds.
  - intros E disk b b' level threads temp Hc.
    exact (compress_files_streaming_packed disk b level threads b' temp Hc).
Qed.

Definition one_file_builder : ArchiveCreate.SevenZArchiveBuilder :=
  {| ArchiveCreate.files :=
       [ {| ArchiveCreate.name := "hello.txt"; ArchiveCreate.size := 5;
            ArchiveCreate.pack_size := 0; ArchiveCreate.mtime := 0;
            ArchiveCreate.attrib := 0x81A4; ArchiveCreate.crc := 0;
            ArchiveCreate.data := Some [104; 101; 108; 108; 111];
            ArchiveCreate.is_dir := false |} ];
     ArchiveCreate.props := @Lzma2EncProps_Init no_encoder;
     ArchiveCreate.lzma2_prop_byte := 0;
     ArchiveCreate.use_copy_codec := true |}.

(** The same file, as the streaming writer finds it. *)
Definition one_file_disk (path : string) : option (list Z) :=
  if String.eqb path "hello.txt" then Some [104; 101; 108; 108; 111] else None.

Definition one_file_streaming : TrueStreaming.StreamingArchiveBuilder :=
  TrueStreaming.builder_add_file TrueStreaming.builder_init
    "hello.txt" "hello.txt" 5 0 0x81A4 false.

Lemma C2_signature_header_patched_witness :
  (exists f b' pack_data,
      @ArchiveCreate.write_7z_archive no_encoder one_file_builder
      = Some (SEVENZIP_OK, f)
      /\ @ArchiveCreate.compress_all_files no_encoder one_file_builder
         = (SEVENZIP_OK, b', pack_data)
      /\ signature_header_holds (f_data f) (default [] pack_data)
           (ArchiveCreate.build_header b'
              (Z.of_nat (length (default [] pack_data)))))
  /\ (exists b' temp f,
        @TrueStreaming.compress_files_streaming no_encoder one_file_disk
          one_file_streaming fopen_wb 5 2 = (SEVENZIP_OK, b', temp)
        /\ TrueStreaming.write_7z_archive b' (f_data temp)
             (TrueStreaming.packed_size b') = Some (SEVENZIP_OK, f)
        /\ signature_header_holds (f_data f) (f_data temp)
             (TrueStreaming.build_header b' (TrueStreaming.packed_size b'))).
Proof.
  split.
  - destruct (@ArchiveCreate.compress_all_files no_encoder one_file_builder)
      as [[err b'] pack_data] eqn:Hc.
    assert (Herr : err = SEVENZIP_OK).
    { vm_compute in Hc. injection Hc as <- _ _. reflexivity. }
    subst err.
    assert (Hcap : Z.of_nat (length (ArchiveCreate.build_header b'
                                       (Z.of_nat (length (default [] pack_data)))))
                   <= ArchiveCreate.header_capacity).
    { vm_compute in Hc. injection Hc as <- <-. vm_compute. discriminate. }
    destruct (proj1 (proj2 C2_signature_header_patched) no_encoder
                one_file_builder b' pack_data Hc Hcap) as (f & Hw & Hh).
    exists f, b', pack_data. split; [exact Hw|split; [reflexivity|exact Hh]].
  - destruct (@TrueStreaming.compress_files_streaming no_encoder one_file_disk
                one_file_streaming fopen_wb 5 2) as [[err b'] temp] eqn:Hc.
    assert (Herr : err = SEVENZIP_OK).
    { vm_compute in Hc. injection Hc as <- _ _. reflexivity. }
    subst err.
    pose proof (proj2 (proj2 (proj2 C2_signature_header_patched)) no_encoder
                  one_file_disk one_file_streaming b' 5 2 temp Hc) as Hp.
    assert (Hcap : Z.of_nat (length (TrueStreaming.build_header b'
                                       (Z.of_nat (length (f_data temp)))))
                   <= TrueStreaming.header_capacity b').
    { vm_compute in Hc. injection Hc as <- <-. vm_compute. discriminate. }
    destruct (proj1 (proj2 (proj2 C2_signature_header_patched)) b' (f_data temp)
                Hcap) as (f & Hw & Hh).
    exists b', temp, f. rewrite Hp.
    split; [reflexivity|split; [exact Hw|exact Hh]].
Defined.


(** ** The sizes of the substreams *)

(** Sizes of the entries that are not directories, in list order. *)
Definition substream_sizes (fs : list ArchiveCreate.SevenZFile) : list Z :=
  map ArchiveCreate.size (filter (fun f => ArchiveCreate.is_dir f = false) fs).

Lemma num_files_fold fs acc :
  fold_left (fun n f => if ArchiveCreate.is_dir f then n else n + 1) fs acc
  = acc + Z.of_nat (length (substream_sizes fs)).
Proof.
  unfold substream_sizes. revert acc.
  induction fs as [|f fs IH]; intros acc; cbn [fold_left]; [cbn; lia|].
  rewrite IH, filter_cons.
  destruct (ArchiveCreate.is_dir f) eqn:Hd.
  - rewrite decide_False by discriminate. lia.
  - rewrite decide_True by reflexivity. cbn [map length]. lia.
Qed.

Lemma num_files_length fs :
  ArchiveCreate.num_files fs = Z.of_nat (length (substream_sizes fs)).
Proof. unfold ArchiveCreate.num_files. rewrite num_files_fold. lia. Qed.

(** The loop writes the sizes still owed: all but the last of those not
    yet passed. *)
Lemma write_sizes_spec fs written n :
  n = written + Z.of_nat (length (substream_sizes fs)) ->
  ArchiveCreate.write_sizes fs written n
  = flat_map ArchiveCreate.WriteNumber (removelast (substream_sizes fs)).
Proof.
  revert written. induction fs as [|f fs IH]; intros written Hn; [reflexivity|].
  cbn [ArchiveCreate.write_sizes]. unfold substream_sizes in *.
  rewrite filter_cons in *.
  destruct (ArchiveCreate.is_dir f) eqn:Hd.
  - rewrite decide_False in * by discriminate.
    destruct (Z.ltb_spec written (n - 1)) as [_|Hge]; [apply IH; exact Hn|].
    assert (Hl : (length (map ArchiveCreate.size
               (filter (fun f => ArchiveCreate.is_dir f = false) fs)) <= 1)%nat) by lia.
    destruct (map _ _) as [|x [|y l]]; [reflexivity|reflexivity|cbn in Hl; lia].
  - rewrite decide_True in * by reflexivity. cbn [map length] in *.
    destruct (Z.ltb_spec written (n - 1)) as [Hlt|Hge].
    + rewrite IH by lia.
      destruct (map _ _) as [|x l] eqn:Hm; [cbn in Hn; lia|].
      cbn [removelast flat_map]. reflexivity.
    + destruct (map _ _) as [|x l]; [reflexivity|cbn in Hn; lia].
Qed.


(** Three regular files given as inputs: one byte, two bytes, empty. *)
Definition three_inputs : list input :=
  [ ("a", Some (Reg "a" 0x81A4 0 [1]));
    ("b", Some (Reg "b" 0x81A4 0 [2; 3]));
    ("c", Some (Reg "c" 0x81A4 0 [])) ].

(** C3 (code defect): the streaming writer of
    archive_create_true_streaming.c, given the inputs a (1 byte), b (2 bytes)
    and c (empty), counts N = 2 substreams and then writes two sizes, 1 and 2,
    in the size group instead of the single size 1: the last substream's size
    is written whenever the last entry of the list is not itself a
    substream. *)
Theorem C3_streaming_writes_last_size :
  let scanned := try_each TrueStreaming.scan_input three_inputs
                          TrueStreaming.builder_init in
  let fs := TrueStreaming.files scanned.2 in
  scanned.1 = SEVENZIP_OK
  /\ TrueStreaming.file_stream_count fs = 2
  /\ TrueStreaming.write_sizes fs fs 0
     = TrueStreaming.write_number 1 ++ TrueStreaming.write_number 2
  /\ TrueStreaming.substreams_info fs
     = [0x08; 0x0D; 2; 0x09; 1; 2; 0x0A; 0x01; 0; 0; 0; 0; 0; 0; 0; 0; 0x00].
Proof. vm_compute. repeat split; reflexivity. Qed.

(** ** The EmptyStream bit vector *)

(** Bit [i] of a bit vector, most significant bit of each byte first. *)
Definition mask_bit (mask : list Z) (i : nat) : bool :=
  Z.testbit (mask !!! (i / 8)%nat) (7 - Z.of_nat i mod 8).

Lemma set_bit_testbit b k m :
  0 <= k < 8 -> 0 <= m < 8 ->
  Z.testbit (Byte (Z.lor b (Z.shiftl 1 k))) m = Z.testbit b m || (k =? m).
Proof.
  intros Hk Hm. unfold Byte. change 256 with (2 ^ 8).
  rewrite Z.mod_pow2_bits_low by lia.
  rewrite Z.lor_spec, Z.shiftl_1_l, Z.pow2_bits_eqb by lia. reflexivity.
Qed.

Lemma shiftr_0x80 r : 0 <= r < 8 -> Z.shiftr 0x80 r = Z.shiftl 1 (7 - r).
Proof.
  intros Hr.
  assert (H : (Z.shiftr 0x80 r =? Z.shiftl 1 (7 - r)) = true).
  { revert r Hr. apply (Zrange_check _ 8). vm_compute. reflexivity. }
  apply Z.eqb_eq. exact H.
Qed.

Lemma index_split (i j : nat) :
  (i / 8 = j / 8)%nat -> Z.of_nat i mod 8 = Z.of_nat j mod 8 -> i = j.
Proof.
  intros Hq Hr.
  pose proof (Nat.div_mod_eq i 8). pose proof (Nat.div_mod_eq j 8).
  assert (Z.of_nat (i mod 8) = Z.of_nat (j mod 8)).
  { rewrite !Nat2Z.inj_mod. exact Hr. }
  lia.
Qed.

(** Setting the bit of entry [i] changes bit [i] and no other. *)
Lemma mask_bit_alter (mask : list Z) (i j : nat) :
  (i / 8 < length mask)%nat ->
  mask_bit (alter (fun b => Byte (Z.lor b (Z.shiftl 1 (7 - Z.of_nat i mod 8))))
                  (i / 8)%nat mask) j
  = mask_bit mask j || bool_decide (i = j).
Proof.
  intros Hi. unfold mask_bit. rewrite list_lookup_total_alter.
  pose proof (Z.mod_pos_bound (Z.of_nat i) 8 ltac:(lia)).
  pose proof (Z.mod_pos_bound (Z.of_nat j) 8 ltac:(lia)).
  destruct (decide ((i / 8)%nat = (j / 8)%nat /\ (i / 8 < length mask)%nat))
    as [[Hq _]|Hn].
  - rewrite set_bit_testbit by lia. rewrite ?Hq. apply (f_equal (orb _)).
    destruct (Z.eqb_spec (7 - Z.of_nat i mod 8) (7 - Z.of_nat j mod 8)) as [He|Hne].
    + symmetry. apply bool_decide_eq_true_2. apply index_split; [exact Hq|lia].
    + symmetry. apply bool_decide_eq_false_2. intros ->. lia.
  - rewrite bool_decide_eq_false_2; [rewrite orb_false_r; reflexivity|].
    intros ->. apply Hn. split; [reflexivity|exact Hi].
Qed.

Lemma mark_dirs_bit_ac (fs : list ArchiveCreate.SevenZFile) (i0 : nat)
    (mask : list Z) (j : nat) :
  (i0 + length fs <= 8 * length mask)%nat ->
  mask_bit (ArchiveCreate.mark_dirs fs i0 mask) j
  = mask_bit mask j
    || match (if decide (i0 <= j)%nat then fs !! (j - i0)%nat else None) with
       | Some f => ArchiveCreate.is_dir f
       | None => false
       end.
Proof.
  revert i0 mask. induction fs as [|f fs IH]; intros i0 mask Hlen.
  - destruct (decide _); rewrite ?lookup_nil, orb_false_r; reflexivity.
  - cbn [ArchiveCreate.mark_dirs length] in *.
    assert (Hi : (i0 / 8 < length mask)%nat).
    { apply Nat.Div0.div_lt_upper_bound. lia. }
    rewrite IH by (destruct (ArchiveCreate.is_dir f); rewrite ?length_alter; lia).
    assert (Hm : mask_bit
                   (if ArchiveCreate.is_dir f
                    then alter (fun b => Byte (Z.lor b (Z.shiftl 1 (7 - Z.of_nat i0 mod 8))))
                               (i0 / 8)%nat mask
                    else mask) j
                 = mask_bit mask j || (ArchiveCreate.is_dir f && bool_decide (i0 = j))).
    { destruct (ArchiveCreate.is_dir f); [apply mask_bit_alter; exact Hi|rewrite orb_false_r; reflexivity]. }
    rewrite Hm, <- orb_assoc. apply (f_equal (orb _)).
    case_bool_decide as Hij.
    + subst j. rewrite decide_False by lia. rewrite decide_True by lia.
      rewrite Nat.sub_diag. cbn [lookup list_lookup].
      rewrite andb_true_r, orb_false_r. reflexivity.
    + rewrite andb_false_r, orb_false_l.
      destruct (decide (S i0 <= j)%nat) as [Hle|Hgt].
      * rewrite decide_True by lia.
        replace (j - i0)%nat with (S (j - S i0)) by lia. reflexivity.
      * rewrite decide_False by lia. reflexivity.
Qed.

Lemma mark_dirs_ts_shift (fs : list TrueStreaming.FileMetadata) i0 bits :
  TrueStreaming.mark_dirs fs i0 bits
  = (fix go (fs : list TrueStreaming.FileMetadata) (i : nat) (m : list Z) :=
       match fs with
       | [] => m
       | f :: rest =>
           go rest (S i)
              (if TrueStreaming.is_directory f
               then alter (fun b => Byte (Z.lor b (Z.shiftl 1 (7 - Z.of_nat i mod 8))))
                          (i / 8)%nat m
               else m)
       end) fs i0 bits.
Proof.
  revert i0 bits. induction fs as [|f fs IH]; intros i0 bits; [reflexivity|].
  cbn [TrueStreaming.mark_dirs]. rewrite IH.
  rewrite shiftr_0x80 by (apply Z.mod_pos_bound; lia). reflexivity.
Qed.

Lemma mark_dirs_bit_ts (fs : list TrueStreaming.FileMetadata) (i0 : nat)
    (mask : list Z) (j : nat) :
  (i0 + length fs <= 8 * length mask)%nat ->
  mask_bit (TrueStreaming.mark_dirs fs i0 mask) j
  = mask_bit mask j
    || match (if decide (i0 <= j)%nat then fs !! (j - i0)%nat else None) with
       | Some f => TrueStreaming.is_directory f
       | None => false
       end.
Proof.
  rewrite mark_dirs_ts_shift.
  revert i0 mask. induction fs as [|f fs IH]; intros i0 mask Hlen.
  - destruct (decide _); rewrite ?lookup_nil, orb_false_r; reflexivity.
  - cbn [TrueStreaming.mark_dirs length] in *.
    assert (Hi : (i0 / 8 < length mask)%nat).
    { apply Nat.Div0.div_lt_upper_bound. lia. }
    rewrite IH by (destruct (TrueStreaming.is_directory f); rewrite ?length_alter; lia).
    assert (Hm : mask_bit
                   (if TrueStreaming.is_directory f
                    then alter (fun b => Byte (Z.lor b (Z.shiftl 1 (7 - Z.of_nat i0 mod 8))))
                               (i0 / 8)%nat mask
                    else mask) j
                 = mask_bit mask j || (TrueStreaming.is_directory f && bool_decide (i0 = j))).
    { destruct (TrueStreaming.is_directory f); [apply mask_bit_alter; exact Hi|rewrite orb_false_r; reflexivity]. }
    rewrite Hm, <- orb_assoc. apply (f_equal (orb _)).
    case_bool_decide as Hij.
    + subst j. rewrite decide_False by lia. rewrite decide_True by lia.
      rewrite Nat.sub_diag. cbn [lookup list_lookup].
      rewrite andb_true_r, orb_false_r. reflexivity.
    + rewrite andb_false_r, orb_false_l.
      destruct (decide (S i0 <= j)%nat) as [Hle|Hgt].
      * rewrite decide_True by lia.
        replace (j - i0)%nat with (S (j - S i0)) by lia. reflexivity.
      * rewrite decide_False by lia. reflexivity.
Qed.

Lemma mask_bit_zeros n j : (j / 8 < n)%nat -> mask_bit (replicate n 0) j = false.
Proof.
  intros Hj. unfold mask_bit.
  rewrite lookup_total_replicate_2 by assumption. apply Z.bits_0.
Qed.

Lemma mask_index_room (n i : nat) : (i < n)%nat -> (i / 8 < (n + 7) / 8)%nat.
Proof.
  intros Hi. apply Nat.Div0.div_lt_upper_bound.
  pose proof (Nat.div_mod_eq (n + 7) 8). pose proof (Nat.mod_upper_bound (n + 7) 8).
  lia.
Qed.

Lemma mask_room n : (n <= 8 * ((n + 7) / 8))%nat.
Proof. pose proof (Nat.div_mod_eq (n + 7) 8). pose proof (Nat.mod_upper_bound (n + 7) 8). lia. Qed.

Definition a_directory : ArchiveCreate.SevenZFile :=
  {| ArchiveCreate.name := "d"; ArchiveCreate.size := 0;
     ArchiveCreate.pack_size := 0; ArchiveCreate.mtime := 0;
     ArchiveCreate.attrib := 0x41ED; ArchiveCreate.crc := 0;
     ArchiveCreate.data := None; ArchiveCreate.is_dir := true |}.

Definition an_empty_file : ArchiveCreate.SevenZFile :=
  {| ArchiveCreate.name := "d/e"; ArchiveCreate.size := 0;
     ArchiveCreate.pack_size := 0; ArchiveCreate.mtime := 0;
     ArchiveCreate.attrib := 0x81A4; ArchiveCreate.crc := 0;
     ArchiveCreate.data := Some []; ArchiveCreate.is_dir := false |}.

(** A directory followed by an empty regular file. *)
Definition dir_and_empty_file : list ArchiveCreate.SevenZFile :=
  [a_directory; an_empty_file].

(** C4, as stated, fails: for a directory followed by a regular file of
    size 0 the mask is the single byte 0x80; the bit of the empty file is
    clear. *)
Lemma C4_empty_file_bit_clear :
  ~ (forall (fs : list ArchiveCreate.SevenZFile) (i : nat) f,
       fs !! i = Some f ->
       mask_bit (ArchiveCreate.empty_stream_mask fs) i
       = ArchiveCreate.is_dir f || (ArchiveCreate.size f =? 0)).
Proof.
  intros H. specialize (H dir_and_empty_file 1%nat _ eq_refl).
  vm_compute in H. discriminate.
Qed.

(** ** The EmptyStream property in the header block *)

(** The EmptyStream property as it stands in a header block, for entries
    whose directory flags are [dirs] and a writer whose numbers are written
    by [number]: nothing when no entry is a directory; else the identifier
    0x0E, the length of the bit vector, and the bit vector, of
    [(n + 7) / 8] bytes, in which bit [i] (most significant bit first) is
    set exactly for the directories and the padding bits are clear. *)
Definition empty_stream_property (number : Z -> list Z) (dirs : list bool)
    (E : list Z) : Prop :=
  if existsb (fun d : bool => d) dirs then
    exists mask,
      E = [0x0E] ++ number (Z.of_nat (length mask)) ++ mask
      /\ length mask = ((length dirs + 7) / 8)%nat
      /\ forall i, (i < 8 * length mask)%nat ->
                   mask_bit mask i = default false (dirs !! i)
  else E = [].

Lemma length_mark_dirs_ac (fs : list ArchiveCreate.SevenZFile) i mask :
  length (ArchiveCreate.mark_dirs fs i mask) = length mask.
Proof.
  revert i mask. induction fs as [|f fs IH]; intros i mask; [reflexivity|].
  cbn [ArchiveCreate.mark_dirs]. rewrite IH.
  destruct (ArchiveCreate.is_dir f); [apply length_alter|reflexivity].
Qed.

Lemma length_mark_dirs_ts (fs : list TrueStreaming.FileMetadata) i mask :
  length (TrueStreaming.mark_dirs fs i mask) = length mask.
Proof.
  revert i mask. induction fs as [|f fs IH]; intros i mask; [reflexivity|].
  cbn [TrueStreaming.mark_dirs]. rewrite IH.
  destruct (TrueStreaming.is_directory f); [apply length_alter|reflexivity].
Qed.

Lemma existsb_flags {A} (p : A -> bool) (l : list A) :
  existsb (fun d : bool => d) (map p l) = existsb p l.
Proof. induction l as [|x l IH]; [reflexivity|]. cbn. rewrite IH. reflexivity. Qed.

Lemma index_in_mask (n i : nat) : (i < 8 * n)%nat -> (i / 8 < n)%nat.
Proof. intros Hi. apply Nat.Div0.div_lt_upper_bound. lia. Qed.

Lemma empty_stream_property_ac (fs : list ArchiveCreate.SevenZFile) :
  empty_stream_property ArchiveCreate.WriteNumber (map ArchiveCreate.is_dir fs)
                        (ArchiveCreate.empty_stream fs).
Proof.
  unfold empty_stream_property, ArchiveCreate.empty_stream, ArchiveCreate.has_dirs.
  rewrite existsb_flags. destruct (existsb ArchiveCreate.is_dir fs); [|reflexivity].
  exists (ArchiveCreate.empty_stream_mask fs).
  assert (Hlen : length (ArchiveCreate.empty_stream_mask fs)
                 = ((length fs + 7) / 8)%nat).
  { unfold ArchiveCreate.empty_stream_mask.
    rewrite length_mark_dirs_ac, length_replicate. reflexivity. }
  split; [|split].
  - rewrite Hlen. reflexivity.
  - rewrite Hlen, length_map. reflexivity.
  - intros i Hi. rewrite Hlen in Hi. unfold ArchiveCreate.empty_stream_mask.
    rewrite mark_dirs_bit_ac
      by (rewrite length_replicate; unfold ArchiveCreate.mask_size;
          apply (mask_room (length fs))).
    rewrite mask_bit_zeros by (apply index_in_mask; exact Hi).
    rewrite decide_True, Nat.sub_0_r by lia.
    rewrite list_lookup_fmap. destruct (fs !! i); reflexivity.
Qed.

Lemma empty_stream_property_ts (fs : list TrueStreaming.FileMetadata) :
  empty_stream_property TrueStreaming.write_number
                        (map TrueStreaming.is_directory fs)
                        (TrueStreaming.empty_stream fs).
Proof.
  unfold empty_stream_property, TrueStreaming.empty_stream, TrueStreaming.has_dirs.
  rewrite existsb_flags.
  destruct (existsb TrueStreaming.is_directory fs); [|reflexivity].
  exists (TrueStreaming.empty_stream_bits fs).
  assert (Hlen : length (TrueStreaming.empty_stream_bits fs)
                 = ((length fs + 7) / 8)%nat).
  { unfold TrueStreaming.empty_stream_bits.
    rewrite length_mark_dirs_ts, length_replicate. reflexivity. }
  split; [|split].
  - rewrite Hlen. reflexivity.
  - rewrite Hlen, length_map. reflexivity.
  - intros i Hi. rewrite Hlen in Hi. unfold TrueStreaming.empty_stream_bits.
    rewrite mark_dirs_bit_ts
      by (rewrite length_replicate; unfold TrueStreaming.bit_bytes;
          apply (mask_room (length fs))).
    rewrite mask_bit_zeros by (apply index_in_mask; exact Hi).
    rewrite decide_True, Nat.sub_0_r by lia.
    rewrite list_lookup_fmap. destruct (fs !! i); reflexivity.
Qed.

(** C4 (amended): in the header block that each writer serializes, the
    FilesInfo group holds, between the number of entries and the names
    (archive_create.c) or between the names and the times
    (archive_create_true_streaming.c), the EmptyStream property: the
    identifier 0x0E, the length of the bit vector and the bit vector, in
    which the bit of entry [i] (most significant bit first within each byte)
    is set if and only if entry [i] is a directory, whatever its size; the
    padding bits are clear, and the property is left out when no entry is a
    directory. *)
Theorem C4_empty_stream_marks_directories :
  (forall (b : ArchiveCreate.SevenZArchiveBuilder) (pack_size : Z),
      let fs := ArchiveCreate.files b in
      exists E,
        ArchiveCreate.build_header b pack_size
        = ([k7zIdHeader; k7zIdMainStreamsInfo]
           ++ ArchiveCreate.pack_info pack_size ++ ArchiveCreate.unpack_info b
           ++ ArchiveCreate.substreams_info fs ++ [k7zIdEnd])
          ++ ([k7zIdFilesInfo] ++ ArchiveCreate.WriteNumber (Z.of_nat (length fs)))
          ++ E
          ++ (ArchiveCreate.names fs ++ ArchiveCreate.mtimes fs
              ++ ArchiveCreate.attribs fs ++ [k7zIdEnd; k7zIdEnd])
        /\ empty_stream_property ArchiveCreate.WriteNumber
                                 (map ArchiveCreate.is_dir fs) E)
  /\ (forall (b : TrueStreaming.StreamingArchiveBuilder) (data_size : Z),
        let fs := TrueStreaming.files b in
        exists E,
          TrueStreaming.build_header b data_size
          = ([0x04] ++ TrueStreaming.pack_info data_size
             ++ TrueStreaming.unpack_info b ++ TrueStreaming.substreams_info fs
             ++ [0x00])
            ++ ([0x05] ++ TrueStreaming.write_number (Z.of_nat (length fs))
                ++ TrueStreaming.names fs)
            ++ E
            ++ (TrueStreaming.mtimes fs ++ [0x00; 0x00])
          /\ empty_stream_property TrueStreaming.write_number
                                   (map TrueStreaming.is_directory fs) E).
Proof.
  split.
  - intros b pack_size fs. exists (ArchiveCreate.empty_stream fs).
    split; [|apply empty_stream_property_ac].
    unfold ArchiveCreate.build_header, ArchiveCreate.files_info. fold fs.
    rewrite <- !app_assoc. reflexivity.
  - intros b data_size fs. exists (TrueStreaming.empty_stream fs).
    split; [|apply empty_stream_property_ts].
    unfold TrueStreaming.build_header. fold fs.
    rewrite <- !app_assoc. reflexivity.
Qed.

(** The header block of a directory followed by an empty regular file. *)
Definition dir_and_empty_file_builder : ArchiveCreate.SevenZArchiveBuilder :=
  {| ArchiveCreate.files := dir_and_empty_file;
     ArchiveCreate.props := @Lzma2EncProps_Init no_encoder;
     ArchiveCreate.lzma2_prop_byte := 0;
     ArchiveCreate.use_copy_codec := true |}.

Lemma C4_empty_stream_marks_directories_witness :
  exists E,
    ArchiveCreate.build_header dir_and_empty_file_builder 0
    = ([k7zIdHeader; k7zIdMainStreamsInfo]
       ++ ArchiveCreate.pack_info 0
       ++ ArchiveCreate.unpack_info dir_and_empty_file_builder
       ++ ArchiveCreate.substreams_info dir_and_empty_file ++ [k7zIdEnd])
      ++ ([k7zIdFilesInfo] ++ ArchiveCreate.WriteNumber 2)
      ++ E
      ++ (ArchiveCreate.names dir_and_empty_file
          ++ ArchiveCreate.mtimes dir_and_empty_file
          ++ ArchiveCreate.attribs dir_and_empty_file ++ [k7zIdEnd; k7zIdEnd])
    /\ empty_stream_property ArchiveCreate.WriteNumber [true; false] E.
Proof.
  exact (proj1 C4_empty_stream_marks_directories dir_and_empty_file_builder 0).
Defined.

(** The property of that header block is 0E 01 80. *)
Example empty_stream_of_dir_and_empty_file :
  ArchiveCreate.empty_stream dir_and_empty_file = [0x0E; 1; 0x80].
Proof. vm_compute. reflexivity. Qed.


(** ** Key derivation *)

Section KeyDerivation.
Context `{Encryption.Sha256}.

Lemma rehash_iter (fuel : nat) (i iterations : Z) (hash : list Z) :
  1 <= i -> iterations < 2 ^ 32 ->
  (Z.to_nat (iterations - i) <= fuel)%nat ->
  Encryption.rehash fuel i iterations hash
  = Nat.iter (Z.to_nat (iterations - i)) Encryption.sha256_digest hash.
Proof.
  revert i hash. induction fuel as [|fuel IH]; intros i hash Hi Hn Hf.
  - replace (Z.to_nat (iterations - i)) with 0%nat by lia. reflexivity.
  - cbn [Encryption.rehash].
    destruct (Z.ltb_spec i iterations) as [Hlt|Hge].
    + assert (Hw : u32 (i + 1) = i + 1) by (unfold u32; apply Z.mod_small; lia).
      rewrite Hw, IH by lia.
      replace (Z.to_nat (iterations - i)) with (S (Z.to_nat (iterations - (i + 1)))) by lia.
      rewrite Nat.iter_succ_r. reflexivity.
    + replace (Z.to_nat (iterations - i)) with 0%nat by lia. reflexivity.
Qed.

Lemma iter_digest_length (n : nat) (m : list Z) :
  length (Nat.iter n Encryption.sha256_digest (Encryption.sha256_digest m)) = 32%nat.
Proof.
  destruct n as [|n]; [apply Encryption.sha256_digest_length|].
  rewrite Nat.iter_succ. apply Encryption.sha256_digest_length.
Qed.

(** C9: for every password and salt, the key that [derive_key_from_password]
    delivers with the iteration count 262144 and the key length 32 (the
    call of both init functions) is the digest chain: SHA-256 of the password
    bytes followed by the salt, rehashed 262143 more times, the 32-byte
    result being the key as it is. *)
Theorem C9_key_is_iterated_sha256 (password : string) (salt : list Z) :
  Encryption.derive_key_from_password password salt
    Encryption.PBKDF2_ITERATIONS Encryption.AES_KEY_SIZE
  = Nat.iter (Z.to_nat (262144 - 1)) Encryption.sha256_digest
      (Encryption.sha256_digest (string_bytes password ++ salt))
  /\ length (Encryption.derive_key_from_password password salt
               Encryption.PBKDF2_ITERATIONS Encryption.AES_KEY_SIZE) = 32%nat.
Proof.
  assert (Hk : Encryption.derive_key_from_password password salt
                 Encryption.PBKDF2_ITERATIONS Encryption.AES_KEY_SIZE
               = Nat.iter (Z.to_nat (262144 - 1)) Encryption.sha256_digest
                   (Encryption.sha256_digest (string_bytes password ++ salt))).
  { unfold Encryption.derive_key_from_password, Encryption.PBKDF2_ITERATIONS,
      Encryption.AES_KEY_SIZE, Encryption.SHA256_DIGEST_SIZE,
      Encryption.Sha256_Final, Encryption.Sha256_Update, Encryption.Sha256_Init.
    rewrite rehash_iter by lia. cbn [app].
    change (if 32 <? 32 then 32 else 32) with 32.
    apply take_ge. rewrite iter_digest_length. lia. }
  split; [exact Hk|]. rewrite Hk. apply iter_digest_length.
Qed.

End KeyDerivation.

(** A stand-in hash with 32-byte digests (the first 32 bytes of the message
    padded with zeros): enough to run the key derivation. *)
Definition prefix_digest (m : list Z) : list Z := take 32 (m ++ replicate 32 0).

Lemma prefix_digest_length m : length (prefix_digest m) = 32%nat.
Proof.
  unfold prefix_digest. rewrite length_take, length_app, length_replicate. lia.
Qed.

Definition prefix_hash : Encryption.Sha256 :=
  {| Encryption.sha256_digest := prefix_digest;
     Encryption.sha256_digest_length := prefix_digest_length |}.

Lemma C9_key_is_iterated_sha256_witness :
  length (@Encryption.derive_key_from_password prefix_hash "pw" [1; 2; 3]
            Encryption.PBKDF2_ITERATIONS Encryption.AES_KEY_SIZE) = 32%nat.
Proof. apply (@C9_key_is_iterated_sha256 prefix_hash "pw" [1; 2; 3]). Defined.

(** ** PKCS#7 padding on decryption *)

(** A cipher that leaves every block as it is: enough to run the padding
    logic on chosen decrypted bytes. *)
Definition plain_aes : Encryption.Aes :=
  {| Encryption.aes_context := unit;
     Encryption.Aes_SetKey_Enc := fun _ => tt;
     Encryption.Aes_SetKey_Dec := fun _ => tt;
     Encryption.AesCbc_Encode := fun _ _ d => d;
     Encryption.AesCbc_Decode := fun _ _ d => d;
     Encryption.AesCbc_Encode_length := fun _ _ _ => eq_refl;
     Encryption.AesCbc_Decode_length := fun _ _ _ => eq_refl |}.

Lemma padding_ok_all bytes p :
  Encryption.padding_ok bytes p = true <-> Forall (fun b => b = p) bytes.
Proof.
  induction bytes as [|b bytes IH]; cbn [Encryption.padding_ok].
  - split; [constructor|reflexivity].
  - destruct (Z.eqb_spec b p) as [->|Hne].
    + rewrite IH. split; [intros; constructor; auto|].
      intros Hf. apply Forall_cons in Hf as [_ Hf]. exact Hf.
    + split; [discriminate|]. intros Hf. apply Forall_cons in Hf as [Hb _]. contradiction.
Qed.




(** ** Opening the volumes of a split archive *)

Lemma open_volumes_from_spec (fuel : nat) (d : disk) (base : string) (i : Z)
    (opened : list (list Z)) :
  exists tail : list (list Z),
    ExtractSplit.open_volumes_from fuel d base i opened = opened ++ tail
    /\ (length tail <= fuel)%nat
    /\ (forall k : nat, (k < length tail)%nat ->
          i + Z.of_nat k <= 999
          /\ ExtractSplit.open_volume d base (i + Z.of_nat k) = tail !! k)
    /\ ((length tail < fuel)%nat -> i + Z.of_nat (length tail) <= 999 ->
        ExtractSplit.open_volume d base (i + Z.of_nat (length tail)) = None).
Proof.
  revert i opened. induction fuel as [|fuel IH]; intros i opened.
  - exists []. cbn. rewrite app_nil_r. repeat split; intros; lia.
  - cbn [ExtractSplit.open_volumes_from].
    destruct (Z.leb_spec i 999) as [Hi|Hi].
    + destruct (ExtractSplit.open_volume d base i) as [f|] eqn:Hopen.
      * destruct (IH (i + 1) (opened ++ [f])) as (tail & Heq & Hlen & Hall & Hstop).
        exists (f :: tail). rewrite Heq, <- app_assoc. cbn [app length].
        split; [reflexivity|]. split; [lia|]. split.
        -- intros [|k] Hk.
           ++ rewrite Z.add_0_r. split; [lia|]. exact Hopen.
           ++ destruct (Hall k ltac:(lia)) as [Hb Ho]. split; [lia|].
              replace (i + Z.of_nat (S k)) with (i + 1 + Z.of_nat k) by lia. exact Ho.
        -- intros Hl Hb.
           replace (i + Z.of_nat (S (length tail))) with (i + 1 + Z.of_nat (length tail)) by lia.
           apply Hstop; lia.
      * exists []. rewrite app_nil_r. cbn [length].
        split; [reflexivity|]. split; [lia|]. split; [intros; lia|].
        intros _ _. rewrite Z.add_0_r. exact Hopen.
    + exists []. rewrite app_nil_r. cbn [length].
      split; [reflexivity|]. split; [lia|]. split; intros; lia.
Qed.

(** A disk with the volumes 001 and 003 of a.7z and no volume 002. *)
Definition disk_with_gap : disk :=
  {[ "a.7z.001" := [1; 2]; "a.7z.003" := [5; 6] ]}.



(** ** The read path and the password *)

(** C10: [sevenzip_extract] and [sevenzip_list] never consult their password
    argument: for every archive, output directory and file system, any two
    passwords (NULL included) give the same result code, the same file
    system afterwards (every directory made and every byte written), the
    same calls of the progress callback, and the same listing. *)
Theorem C10_password_is_ignored `{SzArchive} `{FileSystem} (d : disk)
    (st : fs_state) (archive_path output_dir : option string)
    (has_callback has_list : bool) (password1 password2 : option string) :
  ArchiveRead.sevenzip_extract d st archive_path output_dir password1 has_callback
  = ArchiveRead.sevenzip_extract d st archive_path output_dir password2 has_callback
  /\ ArchiveRead.sevenzip_list d archive_path password1 has_list
     = ArchiveRead.sevenzip_list d archive_path password2 has_list.
Proof. split; reflexivity. Qed.

(** ** Volumes *)

(** A stream written from its start to its end. *)
Definition closed (d : list Z) : FILE := {| f_data := d; f_pos := length d |}.

Lemma fwrite_closed d bs : fwrite bs (closed d) = closed (d ++ bs).
Proof. rewrite fwrite_at_end by reflexivity. reflexivity. Qed.

(** What the volumes of a context hold: [full] in the volumes that are
    complete, each of [max_volume_size] bytes, and [cur] in the volume
    opened last, which is not empty. *)
Definition volumes_hold (ctx : MultiVolume.MultiVolumeContext)
    (full : list (list Z)) (cur : list Z) : Prop :=
  MultiVolume.volumes ctx = map closed full ++ [closed cur]
  /\ Forall (fun d => Z.of_nat (length d) = MultiVolume.max_volume_size ctx) full
  /\ Z.of_nat (length cur) = MultiVolume.current_volume_size ctx
  /\ 0 < MultiVolume.current_volume_size ctx <= MultiVolume.max_volume_size ctx.

(** The volumes of [ctx], one after the other, hold [D]. *)
Definition written (ctx : MultiVolume.MultiVolumeContext) (D : list Z) : Prop :=
  exists full cur, volumes_hold ctx full cur /\ concat full ++ cur = D.

(** What a write leaves as it is. *)
Definition same_setup (ctx ctx' : MultiVolume.MultiVolumeContext) : Prop :=
  MultiVolume.max_volume_size ctx' = MultiVolume.max_volume_size ctx
  /\ MultiVolume.base_path ctx' = MultiVolume.base_path ctx
  /\ MultiVolume.total_packed_size ctx' = MultiVolume.total_packed_size ctx.

Lemma same_setup_refl ctx : same_setup ctx ctx.
Proof. repeat split. Qed.

Lemma same_setup_trans c1 c2 c3 :
  same_setup c1 c2 -> same_setup c2 c3 -> same_setup c1 c3.
Proof.
  intros (A1 & A2 & A3) (B1 & B2 & B3).
  repeat split; congruence.
Qed.

Lemma u64_small z : 0 <= z < 2 ^ 64 -> u64 z = z.
Proof. intros Hz. unfold u64. apply Z.mod_small. exact Hz. Qed.

Lemma write_current_volumes ctx full cur bs :
  MultiVolume.volumes ctx = map closed full ++ [closed cur] ->
  MultiVolume.volumes (MultiVolume.write_current ctx bs)
  = map closed full ++ [closed (cur ++ bs)].
Proof.
  intros Hv. unfold MultiVolume.write_current. cbn [MultiVolume.volumes].
  rewrite Hv, length_app, length_map. cbn [length].
  replace (length full + 1 - 1)%nat with (length (map closed full) + 0)%nat
    by (rewrite length_map; lia).
  rewrite alter_app_r. cbn [alter list_alter]. rewrite fwrite_closed.
  reflexivity.
Qed.

(** One turn of the loop of [write_across_volumes]. *)
Lemma write_step ctx src D :
  MultiVolume.max_volume_size ctx < 2 ^ 64 ->
  written ctx D ->
  (0 < length src)%nat ->
  let ctx1 :=
    if (length (MultiVolume.volumes ctx) =? 0)%nat
       || (MultiVolume.max_volume_size ctx <=? MultiVolume.current_volume_size ctx)
    then MultiVolume.open_new_volume ctx else ctx in
  let space_in_volume :=
    u64 (MultiVolume.max_volume_size ctx1 - MultiVolume.current_volume_size ctx1) in
  let to_write := if Z.of_nat (length src) <? space_in_volume
                  then Z.of_nat (length src) else space_in_volume in
  let ctx2 := MultiVolume.write_current ctx1 (take (Z.to_nat to_write) src) in
  written ctx2 (D ++ take (Z.to_nat to_write) src)
  /\ same_setup ctx ctx2
  /\ (0 < Z.to_nat to_write)%nat.
Proof.
  intros Hmax (full & cur & (Hv & Hfull & Hcur & Hrange) & HD) Hsrc.
  assert (Hlen : (length (MultiVolume.volumes ctx) =? 0)%nat = false).
  { apply Nat.eqb_neq. rewrite Hv, length_app. cbn [length]. lia. }
  rewrite Hlen, orb_false_l.
  destruct (MultiVolume.max_volume_size ctx <=? MultiVolume.current_volume_size ctx)
    eqn:Hfullq; cbv zeta.
  - apply Z.leb_le in Hfullq.
    cbn [MultiVolume.open_new_volume MultiVolume.max_volume_size
         MultiVolume.current_volume_size].
    rewrite Z.sub_0_r, u64_small by lia.
    set (n := if Z.of_nat (length src) <? MultiVolume.max_volume_size ctx
              then Z.of_nat (length src) else MultiVolume.max_volume_size ctx).
    assert (Hn : 0 < n <= MultiVolume.max_volume_size ctx
                 /\ n <= Z.of_nat (length src)).
    { unfold n. destruct (Z.ltb_spec (Z.of_nat (length src))
                            (MultiVolume.max_volume_size ctx)); lia. }
    assert (Hlt : length (take (Z.to_nat n) src) = Z.to_nat n).
    { rewrite length_take. lia. }
    split; [|split; [repeat split|lia]].
    exists (full ++ [cur]), (take (Z.to_nat n) src). split.
    + split; [|split; [|split]].
      * rewrite (write_current_volumes _ (full ++ [cur]) []).
        { reflexivity. }
        cbn [MultiVolume.open_new_volume MultiVolume.volumes].
        rewrite Hv, map_app, <- !app_assoc. reflexivity.
      * cbn [MultiVolume.write_current MultiVolume.open_new_volume
             MultiVolume.max_volume_size].
        apply Forall_app. split; [exact Hfull|].
        constructor; [lia|constructor].
      * cbn [MultiVolume.write_current MultiVolume.open_new_volume
             MultiVolume.current_volume_size].
        rewrite Hlt, u64_small by lia. lia.
      * cbn [MultiVolume.write_current MultiVolume.open_new_volume
             MultiVolume.current_volume_size MultiVolume.max_volume_size].
        rewrite Hlt, u64_small by lia. lia.
    + rewrite concat_app. cbn [concat]. rewrite app_nil_r, HD. reflexivity.
  - apply Z.leb_gt in Hfullq.
    rewrite u64_small by lia.
    set (space := MultiVolume.max_volume_size ctx
                  - MultiVolume.current_volume_size ctx).
    set (n := if Z.of_nat (length src) <? space
              then Z.of_nat (length src) else space).
    assert (Hn : 0 < n <= space /\ n <= Z.of_nat (length src)).
    { unfold n. destruct (Z.ltb_spec (Z.of_nat (length src)) space);
        unfold space in *; lia. }
    assert (Hlt : length (take (Z.to_nat n) src) = Z.to_nat n).
    { rewrite length_take. lia. }
    split; [|split; [repeat split|lia]].
    exists full, (cur ++ take (Z.to_nat n) src). split.
    + split; [|split; [|split]].
      * apply write_current_volumes. exact Hv.
      * exact Hfull.
      * cbn [MultiVolume.write_current MultiVolume.current_volume_size].
        rewrite Hlt, u64_small by (unfold space in Hn; lia).
        rewrite length_app, Hlt. lia.
      * cbn [MultiVolume.write_current MultiVolume.current_volume_size
             MultiVolume.max_volume_size].
        rewrite Hlt, u64_small by (unfold space in Hn; lia).
        unfold space in Hn. lia.
    + rewrite app_assoc, HD. reflexivity.
Qed.

(** [write_across_volumes] appends the data to what the volumes hold. *)
Lemma write_across_volumes_spec fuel : forall ctx src D,
  (length src < fuel)%nat ->
  MultiVolume.max_volume_size ctx < 2 ^ 64 ->
  written ctx D ->
  written (MultiVolume.write_across_volumes fuel ctx src) (D ++ src)
  /\ same_setup ctx (MultiVolume.write_across_volumes fuel ctx src).
Proof.
  induction fuel as [|fuel IH]; intros ctx src D Hfuel Hmax Hw; [lia|].
  cbn [MultiVolume.write_across_volumes].
  destruct (0 <? length src)%nat eqn:Hsrc.
  - apply Nat.ltb_lt in Hsrc.
    destruct (write_step ctx src D Hmax Hw Hsrc) as (Hw2 & Hs2 & Hpos).
    cbv zeta in Hw2, Hs2, Hpos.
    match goal with
    | |- written (MultiVolume.write_across_volumes fuel ?c ?r) _ /\ _ =>
        assert (Hl : (length r < fuel)%nat) by (rewrite length_drop; lia);
        assert (Hm : MultiVolume.max_volume_size c < 2 ^ 64)
          by (destruct Hs2 as (-> & _); exact Hmax);
        destruct (IH c r _ Hl Hm Hw2) as (Hw3 & Hs3)
    end.
    split.
    + rewrite <- app_assoc, take_drop in Hw3. exact Hw3.
    + eapply same_setup_trans; eassumption.
  - apply Nat.ltb_ge in Hsrc.
    assert (src = []) as -> by (destruct src; [reflexivity|cbn in Hsrc; lia]).
    rewrite app_nil_r. split; [exact Hw|apply same_setup_refl].
Qed.

Lemma write_all_spec ctx src D :
  MultiVolume.max_volume_size ctx < 2 ^ 64 ->
  written ctx D ->
  written (MultiVolume.write_all ctx src) (D ++ src)
  /\ same_setup ctx (MultiVolume.write_all ctx src).
Proof.
  intros Hmax Hw. unfold MultiVolume.write_all.
  apply write_across_volumes_spec; [lia|exact Hmax|exact Hw].
Qed.


(** ** The buffered output stream *)

Lemma STREAM_BUFFER_SIZE_pos : 0 < MultiVolume.STREAM_BUFFER_SIZE.
Proof. reflexivity. Qed.

Lemma u64_add_l a b : u64 (u64 a + b) = u64 (a + b).
Proof. unfold u64. apply Zplus_mod_idemp_l. Qed.

(** The stream [s], started when the volumes held [start], has taken [out]
    from the encoder: a part of it is in the volumes and counted, the rest is
    in the buffer. *)
Definition stream_state (start : list Z) (s : MultiVolume.VolumeOutStream)
    (out : list Z) : Prop :=
  exists done,
    written (MultiVolume.vos_ctx s) (start ++ done)
    /\ out = done ++ MultiVolume.vos_buffer s
    /\ MultiVolume.vos_packed_size s = u64 (Z.of_nat (length done)).

Definition stream_inv (start : list Z) (s : MultiVolume.VolumeOutStream)
    (out : list Z) : Prop :=
  stream_state start s out
  /\ Z.of_nat (length (MultiVolume.vos_buffer s)) < MultiVolume.STREAM_BUFFER_SIZE.

Lemma VolumeOutStream_Flush_spec start s out :
  MultiVolume.max_volume_size (MultiVolume.vos_ctx s) < 2 ^ 64 ->
  stream_state start s out ->
  written (MultiVolume.vos_ctx (MultiVolume.VolumeOutStream_Flush s)) (start ++ out)
  /\ MultiVolume.vos_packed_size (MultiVolume.VolumeOutStream_Flush s)
     = u64 (Z.of_nat (length out))
  /\ MultiVolume.vos_buffer (MultiVolume.VolumeOutStream_Flush s) = []
  /\ same_setup (MultiVolume.vos_ctx s)
                (MultiVolume.vos_ctx (MultiVolume.VolumeOutStream_Flush s)).
Proof.
  intros Hmax (done & Hw & -> & Hp). unfold MultiVolume.VolumeOutStream_Flush.
  destruct (0 <? length (MultiVolume.vos_buffer s))%nat eqn:Hb.
  - cbn [MultiVolume.vos_ctx MultiVolume.vos_packed_size MultiVolume.vos_buffer].
    destruct (write_all_spec _ (MultiVolume.vos_buffer s) _ Hmax Hw) as (Hw' & Hs).
    split; [|split; [|split]].
    + rewrite app_assoc. exact Hw'.
    + rewrite Hp, u64_add_l, length_app. f_equal. lia.
    + reflexivity.
    + exact Hs.
  - apply Nat.ltb_ge in Hb.
    assert (Hnil : MultiVolume.vos_buffer s = []).
    { destruct (MultiVolume.vos_buffer s); [reflexivity|cbn in Hb; lia]. }
    rewrite Hnil, app_nil_r.
    split; [exact Hw|split; [exact Hp|split; [reflexivity|apply same_setup_refl]]].
Qed.

Lemma flushed_inv start s out :
  MultiVolume.max_volume_size (MultiVolume.vos_ctx s) < 2 ^ 64 ->
  stream_state start s out ->
  stream_inv start (MultiVolume.VolumeOutStream_Flush s) out.
Proof.
  intros Hmax Hs.
  destruct (VolumeOutStream_Flush_spec start s out Hmax Hs) as (Hw & Hp & Hb & _).
  split.
  - exists out. rewrite Hb, app_nil_r. auto.
  - rewrite Hb. exact STREAM_BUFFER_SIZE_pos.
Qed.

Local Opaque MultiVolume.STREAM_BUFFER_SIZE.

Lemma buffer_writes_spec start fuel : forall s src out,
  (length src < fuel)%nat ->
  MultiVolume.max_volume_size (MultiVolume.vos_ctx s) < 2 ^ 64 ->
  stream_inv start s out ->
  stream_inv start (MultiVolume.buffer_writes fuel s src) (out ++ src)
  /\ same_setup (MultiVolume.vos_ctx s)
                (MultiVolume.vos_ctx (MultiVolume.buffer_writes fuel s src)).
Proof.
  induction fuel as [|fuel IH]; intros s src out Hfuel Hmax Hinv; [lia|].
  cbn [MultiVolume.buffer_writes].
  destruct (0 <? length src)%nat eqn:Hsrc.
  - apply Nat.ltb_lt in Hsrc. cbv zeta.
    destruct Hinv as ((done & Hw & -> & Hp) & Hb).
    set (space := MultiVolume.STREAM_BUFFER_SIZE
                  - Z.of_nat (length (MultiVolume.vos_buffer s))).
    set (copy := if Z.of_nat (length src) <? space
                 then Z.of_nat (length src) else space).
    assert (Hcopy : 0 < copy <= space /\ copy <= Z.of_nat (length src)).
    { unfold copy. destruct (Z.ltb_spec (Z.of_nat (length src)) space);
        unfold space in *; lia. }
    set (s1 := {| MultiVolume.vos_ctx := MultiVolume.vos_ctx s;
                  MultiVolume.vos_packed_size := MultiVolume.vos_packed_size s;
                  MultiVolume.vos_buffer :=
                    MultiVolume.vos_buffer s ++ take (Z.to_nat copy) src |}).
    assert (Hs1 : stream_state start s1
                    ((done ++ MultiVolume.vos_buffer s) ++ take (Z.to_nat copy) src)).
    { exists done. unfold s1. cbn [MultiVolume.vos_ctx MultiVolume.vos_buffer
                                   MultiVolume.vos_packed_size].
      rewrite <- app_assoc. auto. }
    assert (Hl1 : Z.of_nat (length (MultiVolume.vos_buffer s1))
                  = Z.of_nat (length (MultiVolume.vos_buffer s)) + copy).
    { unfold s1. cbn [MultiVolume.vos_buffer].
      rewrite length_app, length_take. lia. }
    set (s2 := if MultiVolume.STREAM_BUFFER_SIZE
                  <=? Z.of_nat (length (MultiVolume.vos_buffer s1))
               then MultiVolume.VolumeOutStream_Flush s1 else s1).
    assert (Hs2 : stream_inv start s2
                    ((done ++ MultiVolume.vos_buffer s) ++ take (Z.to_nat copy) src)
                  /\ same_setup (MultiVolume.vos_ctx s) (MultiVolume.vos_ctx s2)).
    { unfold s2.
      destruct (Z.leb_spec MultiVolume.STREAM_BUFFER_SIZE
                  (Z.of_nat (length (MultiVolume.vos_buffer s1)))).
      - split; [apply flushed_inv; [exact Hmax|exact Hs1]|].
        apply (VolumeOutStream_Flush_spec start s1 _ Hmax Hs1).
      - split; [split; [exact Hs1|assumption]|apply same_setup_refl]. }
    destruct Hs2 as (Hinv2 & Hsame2).
    assert (Hl : (length (drop (Z.to_nat copy) src) < fuel)%nat)
      by (rewrite length_drop; lia).
    assert (Hm : MultiVolume.max_volume_size (MultiVolume.vos_ctx s2) < 2 ^ 64)
      by (destruct Hsame2 as (-> & _); exact Hmax).
    destruct (IH s2 _ _ Hl Hm Hinv2) as (Hinv3 & Hsame3).
    split.
    + rewrite <- app_assoc, take_drop in Hinv3. exact Hinv3.
    + eapply same_setup_trans; eassumption.
  - apply Nat.ltb_ge in Hsrc.
    assert (src = []) as -> by (destruct src; [reflexivity|cbn in Hsrc; lia]).
    rewrite app_nil_r. split; [exact Hinv|apply same_setup_refl].
Qed.

(** [VolumeOutStream_Write] takes the whole buffer, in order. *)
Lemma VolumeOutStream_Write_spec start s buf out :
  MultiVolume.max_volume_size (MultiVolume.vos_ctx s) < 2 ^ 64 ->
  stream_inv start s out ->
  stream_inv start (MultiVolume.VolumeOutStream_Write s buf) (out ++ buf)
  /\ same_setup (MultiVolume.vos_ctx s)
                (MultiVolume.vos_ctx (MultiVolume.VolumeOutStream_Write s buf)).
Proof.
  intros Hmax Hinv. unfold MultiVolume.VolumeOutStream_Write.
  destruct (MultiVolume.STREAM_BUFFER_SIZE <=? Z.of_nat (length buf)).
  - cbv zeta. destruct Hinv as (Hst & _).
    destruct (VolumeOutStream_Flush_spec start s out Hmax Hst)
      as (Hw & Hp & Hb & Hsame).
    assert (Hm : MultiVolume.max_volume_size
                   (MultiVolume.vos_ctx (MultiVolume.VolumeOutStream_Flush s))
                 < 2 ^ 64)
      by (destruct Hsame as (-> & _); exact Hmax).
    destruct (write_all_spec _ buf _ Hm Hw) as (Hw' & Hsame').
    split; [|cbn [MultiVolume.vos_ctx]; eapply same_setup_trans; eassumption].
    split.
    + exists (out ++ buf).
      cbn [MultiVolume.vos_ctx MultiVolume.vos_buffer MultiVolume.vos_packed_size].
      rewrite Hb, app_nil_r, Hp, u64_add_l, app_assoc, length_app.
      split; [exact Hw'|split; [reflexivity|f_equal; lia]].
    + cbn [MultiVolume.vos_buffer]. rewrite Hb. exact STREAM_BUFFER_SIZE_pos.
  - apply buffer_writes_spec; [lia|exact Hmax|exact Hinv].
Qed.

Lemma VolumeOutStream_Writes_spec start (writes : list (list Z)) : forall s out,
  MultiVolume.max_volume_size (MultiVolume.vos_ctx s) < 2 ^ 64 ->
  stream_inv start s out ->
  stream_inv start (fold_left MultiVolume.VolumeOutStream_Write writes s)
             (out ++ concat writes)
  /\ same_setup (MultiVolume.vos_ctx s)
       (MultiVolume.vos_ctx (fold_left MultiVolume.VolumeOutStream_Write writes s)).
Proof.
  induction writes as [|buf writes IH]; intros s out Hmax Hinv.
  - cbn [fold_left concat]. rewrite app_nil_r.
    split; [exact Hinv|apply same_setup_refl].
  - cbn [fold_left concat].
    destruct (VolumeOutStream_Write_spec start s buf out Hmax Hinv) as (Hinv1 & Hs1).
    assert (Hm : MultiVolume.max_volume_size
                   (MultiVolume.vos_ctx (MultiVolume.VolumeOutStream_Write s buf))
                 < 2 ^ 64)
      by (destruct Hs1 as (-> & _); exact Hmax).
    destruct (IH _ _ Hm Hinv1) as (Hinv2 & Hs2).
    split; [rewrite app_assoc; exact Hinv2|].
    eapply same_setup_trans; eassumption.
Qed.

Local Transparent MultiVolume.STREAM_BUFFER_SIZE.


(** ** Files written to the volumes *)

Lemma CrcUpdate_app c a b : CrcUpdate c (a ++ b) = CrcUpdate (CrcUpdate c a) b.
Proof. unfold CrcUpdate. apply fold_left_app. Qed.

(** The chunk loop stores the first [remaining] bytes of the input, or the
    whole input when it is shorter. *)
Lemma store_chunks_spec buf_size fuel : forall input remaining crc ctx D,
  0 < buf_size ->
  (Z.to_nat remaining < fuel)%nat ->
  MultiVolume.max_volume_size ctx < 2 ^ 64 ->
  written ctx D ->
  written (MultiVolume.store_chunks fuel input buf_size remaining crc ctx).2
          (D ++ take (Z.to_nat remaining) input)
  /\ same_setup ctx (MultiVolume.store_chunks fuel input buf_size remaining crc ctx).2
  /\ (MultiVolume.store_chunks fuel input buf_size remaining crc ctx).1
     = CrcUpdate crc (take (Z.to_nat remaining) input).
Proof.
  intros input remaining crc ctx D Hbuf. revert input remaining crc ctx D.
  induction fuel as [|fuel IH]; intros input remaining crc ctx D Hfuel Hmax Hw;
    [lia|].
  cbn [MultiVolume.store_chunks].
  destruct (Z.ltb_spec 0 remaining) as [Hrem|Hrem].
  - set (to_read := if remaining <? buf_size then remaining else buf_size).
    assert (Hto : 0 < to_read <= remaining).
    { unfold to_read. destruct (Z.ltb_spec remaining buf_size); lia. }
    destruct (length (take (Z.to_nat to_read) input) =? 0)%nat eqn:Hgot.
    + apply Nat.eqb_eq in Hgot. rewrite length_take in Hgot.
      assert (input = []) as ->
        by (destruct input; [reflexivity|cbn [length] in Hgot; lia]).
      rewrite take_nil, app_nil_r. cbn [fst snd].
      split; [exact Hw|split; [apply same_setup_refl|reflexivity]].
    + apply Nat.eqb_neq in Hgot.
      set (got := take (Z.to_nat to_read) input) in *.
      destruct (write_all_spec ctx got D Hmax Hw) as (Hw1 & Hs1).
      assert (Hm : MultiVolume.max_volume_size (MultiVolume.write_all ctx got)
                   < 2 ^ 64)
        by (destruct Hs1 as (-> & _); exact Hmax).
      assert (Hl : (Z.to_nat (remaining - Z.of_nat (length got)) < fuel)%nat) by lia.
      destruct (IH (drop (Z.to_nat to_read) input)
                   (remaining - Z.of_nat (length got)) (CrcUpdate crc got)
                   _ _ Hl Hm Hw1) as (Hw2 & Hs2 & Hc2).
      assert (Hsplit : got ++ take (Z.to_nat (remaining - Z.of_nat (length got)))
                                (drop (Z.to_nat to_read) input)
                       = take (Z.to_nat remaining) input).
      { unfold got. rewrite length_take.
        destruct (Nat.le_gt_cases (Z.to_nat to_read) (length input)) as [Hle|Hgt].
        - rewrite Nat.min_l by exact Hle. rewrite take_take_drop. f_equal. lia.
        - rewrite drop_ge by lia. rewrite take_nil, app_nil_r.
          rewrite !take_ge by lia. reflexivity. }
      split; [|split].
      * rewrite <- Hsplit, app_assoc. exact Hw2.
      * eapply same_setup_trans; eassumption.
      * rewrite Hc2, <- Hsplit, CrcUpdate_app. reflexivity.
  - replace (Z.to_nat remaining) with 0%nat by lia.
    rewrite take_0, app_nil_r. cbn [fst snd].
    split; [exact Hw|split; [apply same_setup_refl|reflexivity]].
Qed.

(** [store_file_uncompressed] on a file that is read in chunks. *)
Lemma store_file_uncompressed_spec read file_path file_size ctx D res ctx' crc packed :
  MultiVolume.max_volume_size ctx < 2 ^ 64 ->
  written ctx D ->
  MultiVolume.store_file_uncompressed read file_path None file_size ctx
  = (res, ctx', crc, packed) ->
  res = SZ_OK ->
  exists input,
    read file_path = Some input
    /\ written ctx' (D ++ take (Z.to_nat file_size) input)
    /\ same_setup ctx ctx'
    /\ crc = CrcCalc (take (Z.to_nat file_size) input)
    /\ packed = file_size.
Proof.
  intros Hmax Hw Hrun ->. unfold MultiVolume.store_file_uncompressed in Hrun.
  destruct (read file_path) as [input|]; [|discriminate].
  exists input. split; [reflexivity|].
  match type of Hrun with
  | context [MultiVolume.store_chunks ?fuel ?i ?b ?r ?c ?x] =>
      destruct (store_chunks_spec b fuel i r c x D) as (Hw' & Hs' & Hc');
        [ destruct (4 * 1024 * 1024 * 1024 <? file_size); reflexivity
        | lia | exact Hmax | exact Hw | ];
      destruct (MultiVolume.store_chunks fuel i b r c x) as [crc1 ctx1]
  end.
  cbn [fst snd] in Hw', Hs', Hc'.
  injection Hrun as <- <- <-. subst crc1.
  split; [exact Hw'|split; [exact Hs'|split; reflexivity]].
Qed.

(** The encoder run: what the encoder handed over is in the volumes and
    counted. *)
Lemma encode_to_volumes_spec `{Lzma2Enc} props input ctx D ctx' crc packed prop :
  MultiVolume.max_volume_size ctx < 2 ^ 64 ->
  written ctx D ->
  MultiVolume.encode_to_volumes props input ctx = (SZ_OK, ctx', crc, packed, prop) ->
  exists out,
    written ctx' (D ++ out)
    /\ same_setup ctx ctx'
    /\ crc = CrcCalc input
    /\ packed = u64 (Z.of_nat (length out)).
Proof.
  intros Hmax Hw Hrun. unfold MultiVolume.encode_to_volumes in Hrun.
  destruct (negb (Lzma2Enc_SetProps props)); [discriminate|].
  destruct (Lzma2Enc_Encode2_stream props input) as [res writes].
  set (s0 := {| MultiVolume.vos_ctx := ctx; MultiVolume.vos_packed_size := 0;
                MultiVolume.vos_buffer := [] |}) in Hrun.
  assert (Hinv0 : stream_inv D s0 []).
  { split; [|exact STREAM_BUFFER_SIZE_pos].
    exists []. rewrite app_nil_r. auto. }
  destruct (VolumeOutStream_Writes_spec D writes s0 [] Hmax Hinv0) as (Hinv1 & Hs1).
  cbn [app] in Hinv1. cbn [MultiVolume.vos_ctx s0] in Hs1.
  set (s1 := fold_left MultiVolume.VolumeOutStream_Write writes s0) in *.
  assert (Hm : MultiVolume.max_volume_size (MultiVolume.vos_ctx s1) < 2 ^ 64).
  { destruct Hs1 as (Hs1 & _). unfold s0 in Hs1. cbn [MultiVolume.vos_ctx] in Hs1.
    rewrite Hs1. exact Hmax. }
  destruct (VolumeOutStream_Flush_spec D s1 (concat writes) Hm (proj1 Hinv1))
    as (Hw2 & Hp2 & _ & Hs2).
  destruct res; try discriminate.
  injection Hrun as <- <- <- <-.
  exists (concat writes).
  split; [exact Hw2|split; [|split; [reflexivity|exact Hp2]]].
  eapply same_setup_trans; [|exact Hs2]. exact Hs1.
Qed.

Lemma u64_idem z : u64 (u64 z) = u64 z.
Proof. unfold u64. apply Zmod_mod. Qed.

(** [compress_file_streaming]: what was added to the volumes is counted, and
    the checksum is that of the file. *)
Lemma compress_file_streaming_spec `{Lzma2Enc} read file_path ctx props D
    ctx' crc packed prop :
  MultiVolume.max_volume_size ctx < 2 ^ 64 ->
  written ctx D ->
  MultiVolume.compress_file_streaming read file_path ctx props
  = (SZ_OK, ctx', crc, packed, prop) ->
  exists input out,
    read file_path = Some input
    /\ written ctx' (D ++ out)
    /\ same_setup ctx ctx'
    /\ crc = CrcCalc input
    /\ u64 packed = u64 (Z.of_nat (length out)).
Proof.
  intros Hmax Hw Hrun. unfold MultiVolume.compress_file_streaming in Hrun.
  destruct (read file_path) as [mapped|]; [|discriminate].
  exists mapped.
  destruct (Z.of_nat (length mapped) =? 0).
  { destruct (encode_to_volumes_spec _ _ _ D _ _ _ _ Hmax Hw Hrun)
      as (out & ? & ? & ? & ->).
    exists out. rewrite u64_idem. auto. }
  destruct ((1024 * 1024 <? Z.of_nat (length mapped))
            && negb (MultiVolume.is_data_compressible mapped)).
  - cbn [MultiVolume.store_file_uncompressed] in Hrun.
    injection Hrun as <- <- <- <-.
    destruct (write_all_spec ctx mapped D Hmax Hw) as (Hw' & Hs').
    exists mapped.
    split; [reflexivity|split; [exact Hw'|split; [exact Hs'|split; reflexivity]]].
  - destruct (encode_to_volumes_spec _ _ _ D _ _ _ _ Hmax Hw Hrun)
      as (out & ? & ? & ? & ->).
    exists out. rewrite u64_idem. auto.
Qed.

(** A file whose length is the size that [stat] gave. *)
Definition unchanged (read : string -> option (list Z))
    (f : MultiVolume.MV_FileEntry) : Prop :=
  forall c, read (MultiVolume.full_path f) = Some c ->
            Z.of_nat (length c) = MultiVolume.size f.

Lemma u64_add_r a b : u64 (a + u64 b) = u64 (a + b).
Proof. unfold u64. apply Zplus_mod_idemp_r. Qed.

Lemma u64_add_congr a b c : u64 b = u64 c -> u64 (a + b) = u64 (a + c).
Proof. intros Hbc. rewrite <- (u64_add_r a b), <- (u64_add_r a c), Hbc. reflexivity. Qed.

(** The loop over the files: what it adds to the volumes, and the packed
    size it reports when no file changed its size after [stat]. *)
Lemma process_files_spec `{Lzma2Enc} read use_store_mode props :
  forall fs done ctx D files' ctx',
  MultiVolume.max_volume_size ctx < 2 ^ 64 ->
  0 <= MultiVolume.total_packed_size ctx < 2 ^ 64 ->
  written ctx D ->
  MultiVolume.process_files read use_store_mode props fs done ctx
  = (SZ_OK, files', ctx') ->
  exists body,
    written ctx' (D ++ body)
    /\ MultiVolume.max_volume_size ctx' = MultiVolume.max_volume_size ctx
    /\ MultiVolume.base_path ctx' = MultiVolume.base_path ctx
    /\ (Forall (unchanged read) fs ->
        MultiVolume.total_packed_size ctx'
        = u64 (MultiVolume.total_packed_size ctx + Z.of_nat (length body))).
Proof.
  induction fs as [|file rest IH];
    intros done ctx D files' ctx' Hmax Hpk Hw Hrun.
  - cbn [MultiVolume.process_files] in Hrun. injection Hrun as <- <-.
    exists []. rewrite app_nil_r. cbn [length]. rewrite Z.add_0_r.
    rewrite u64_small by exact Hpk. auto.
  - cbn [MultiVolume.process_files] in Hrun.
    destruct (MultiVolume.is_dir file).
    { destruct (IH _ _ D _ _ Hmax Hpk Hw Hrun) as (body & Hw' & Hm' & Hb' & Hp').
      exists body. split; [exact Hw'|split; [exact Hm'|split; [exact Hb'|]]].
      intros Hun. apply Forall_cons in Hun. destruct Hun as (_ & Hun). auto. }
    set (run := if use_store_mode
                then let '(res, ctx', crc, packed) :=
                       MultiVolume.store_file_uncompressed read
                         (MultiVolume.full_path file) None
                         (MultiVolume.size file) ctx in
                     (res, ctx', crc, packed, 0)
                else MultiVolume.compress_file_streaming read
                       (MultiVolume.full_path file) ctx props) in Hrun.
    assert (Hone : forall res ctx1 crc packed prop,
      run = (res, ctx1, crc, packed, prop) ->
      res = SZ_OK ->
      exists out, written ctx1 (D ++ out) /\ same_setup ctx ctx1
                  /\ (unchanged read file ->
                      u64 packed = u64 (Z.of_nat (length out)))).
    { unfold run. intros res ctx1 crc packed prop Hone ->. destruct use_store_mode.
      - destruct (MultiVolume.store_file_uncompressed read
                    (MultiVolume.full_path file) None (MultiVolume.size file) ctx)
          as [[[res0 ctx0] crc0] packed0] eqn:Hstore.
        injection Hone as -> <- <- <- <-.
        destruct (store_file_uncompressed_spec _ _ _ _ D _ _ _ _
                    Hmax Hw Hstore eq_refl)
          as (input & Hread & Hw1 & Hs1 & _ & ->).
        eexists. split; [exact Hw1|split; [exact Hs1|]].
        intros Hun. rewrite <- (Hun input Hread).
        rewrite length_take. f_equal. lia.
      - destruct (compress_file_streaming_spec _ _ _ _ D _ _ _ _ Hmax Hw Hone)
          as (input & out & _ & Hw1 & Hs1 & _ & Hp1).
        exists out. auto. }
    destruct run as [[[[res ctx1] crc] packed] prop].
    specialize (Hone res ctx1 crc packed prop eq_refl).
    destruct res; try discriminate.
    destruct (Hone eq_refl) as (out & Hw1 & (Hm1 & Hb1 & Hp1) & Hlen).
    assert (Hm2 : MultiVolume.max_volume_size (MultiVolume.add_packed ctx1 packed)
                  < 2 ^ 64).
    { cbn [MultiVolume.add_packed MultiVolume.max_volume_size]. lia. }
    assert (Hpk2 : 0 <= MultiVolume.total_packed_size
                          (MultiVolume.add_packed ctx1 packed) < 2 ^ 64).
    { cbn [MultiVolume.add_packed MultiVolume.total_packed_size].
      unfold u64. apply Z.mod_pos_bound. lia. }
    assert (Hw2 : written (MultiVolume.add_packed ctx1 packed) (D ++ out)).
    { destruct Hw1 as (full & cur & Hh & HD). exists full, cur.
      split; [exact Hh|exact HD]. }
    destruct (IH _ _ _ _ _ Hm2 Hpk2 Hw2 Hrun) as (body & Hw' & Hm' & Hb' & Hp').
    exists (out ++ body). rewrite app_assoc.
    split; [exact Hw'|split; [|split]].
    + rewrite Hm'. cbn [MultiVolume.add_packed MultiVolume.max_volume_size].
      exact Hm1.
    + rewrite Hb'. cbn [MultiVolume.add_packed MultiVolume.base_path].
      exact Hb1.
    + intros Hun. apply Forall_cons in Hun. destruct Hun as (Hun0 & Hun).
      rewrite (Hp' Hun).
      cbn [MultiVolume.add_packed MultiVolume.total_packed_size].
      rewrite Hp1, u64_add_l, length_app, Nat2Z.inj_add.
      set (T := MultiVolume.total_packed_size ctx).
      replace (T + packed + Z.of_nat (length body))
        with (T + Z.of_nat (length body) + packed) by lia.
      replace (T + (Z.of_nat (length out) + Z.of_nat (length body)))
        with (T + Z.of_nat (length body) + Z.of_nat (length out)) by lia.
      apply u64_add_congr. exact (Hlen Hun0).
Qed.

(** ** The volumes of a finished multi-volume archive *)

(** The start header written over the placeholder of the first volume. *)
Lemma patch_data (d r : list Z) (c : Z) (shb : list Z) :
  d = k7zSignature ++ [0; 4] ++ replicate 24 0 ++ r ->
  length shb = 20%nat ->
  f_data (fwrite shb (fwrite (le_bytes 4 c) (fseek_set (closed d) 8)))
  = k7zSignature ++ [0; 4] ++ le_bytes 4 c ++ shb ++ r.
Proof.
  intros -> Hsh.
  destruct (fwrite_inplace (fseek_set (closed (k7zSignature ++ [0; 4]
                                                 ++ replicate 24 0 ++ r)) 8)
              (k7zSignature ++ [0; 4]) (replicate 4 0) (replicate 20 0 ++ r)
              (le_bytes 4 c)) as (Hd1 & Hp1).
  { reflexivity. }
  { reflexivity. }
  { rewrite length_le_bytes. reflexivity. }
  set (f1 := fwrite (le_bytes 4 c) _) in *.
  destruct (fwrite_inplace f1 ((k7zSignature ++ [0; 4]) ++ le_bytes 4 c)
              (replicate 20 0) r shb) as (Hd2 & _).
  { rewrite Hd1, <- !app_assoc. reflexivity. }
  { exact Hp1. }
  { rewrite Hsh. reflexivity. }
  rewrite Hd2, <- !app_assoc. reflexivity.
Qed.

Lemma patch_first_volume_spec ctx (rest : list Z) (c : Z) (shb : list Z) :
  32 <= MultiVolume.max_volume_size ctx ->
  length shb = 20%nat ->
  written ctx (k7zSignature ++ [0; 4] ++ replicate 24 0 ++ rest) ->
  exists full last,
    map f_data (MultiVolume.volumes (MultiVolume.patch_first_volume ctx c shb))
    = full ++ [last]
    /\ Forall (fun d => Z.of_nat (length d) = MultiVolume.max_volume_size ctx) full
    /\ 0 < Z.of_nat (length last) <= MultiVolume.max_volume_size ctx
    /\ concat full ++ last = k7zSignature ++ [0; 4] ++ le_bytes 4 c ++ shb ++ rest.
Proof.
  intros Hmax Hsh (full & cur & (Hv & Hfull & Hcur & Hrange) & HD).
  unfold MultiVolume.patch_first_volume. cbn [MultiVolume.volumes]. rewrite Hv.
  destruct full as [|d0 full].
  - cbn [map app concat] in *. cbn [alter list_alter map].
    rewrite (patch_data cur rest c shb HD Hsh).
    exists [], (k7zSignature ++ [0; 4] ++ le_bytes 4 c ++ shb ++ rest).
    split; [reflexivity|split; [constructor|split; [|reflexivity]]].
    rewrite <- Hcur in Hrange. rewrite HD in Hrange.
    rewrite length_app in Hrange. rewrite length_app.
    cbn [length] in *.
    rewrite !length_app, length_le_bytes, Hsh.
    rewrite !length_app, length_replicate in Hrange. cbn [length] in *. lia.
  - apply Forall_cons in Hfull. destruct Hfull as (Hd0 & Hfull).
    cbn [map app concat] in *. cbn [alter list_alter].
    assert (Hpre : d0 = k7zSignature ++ [0; 4] ++ replicate 24 0 ++ drop 32 d0).
    { rewrite <- (take_drop 32 d0) at 1.
      rewrite !(app_assoc _ _ (drop 32 d0)). f_equal.
      assert (Ht : take 32 ((d0 ++ concat full) ++ cur) = take 32 d0).
      { rewrite <- app_assoc. rewrite take_app_le by lia. reflexivity. }
      rewrite <- Ht, HD. reflexivity. }
    exists ((k7zSignature ++ [0; 4] ++ le_bytes 4 c ++ shb ++ drop 32 d0)
            :: full), cur.
    split; [|split; [|split]].
    + cbn [map app]. rewrite (patch_data d0 (drop 32 d0) c shb Hpre Hsh).
      f_equal. rewrite map_app. cbn [map].
      rewrite <- list_fmap_compose. f_equal.
      clear. induction full as [|x l IH]; [reflexivity|].
      cbn. f_equal. exact IH.
    + constructor; [|exact Hfull].
      rewrite <- Hd0. rewrite Hpre at 2.
      rewrite !length_app, length_le_bytes, length_replicate, Hsh. reflexivity.
    + lia.
    + cbn [concat]. rewrite <- !app_assoc. do 4 f_equal.
      assert (Hdr : drop 32 ((d0 ++ concat full) ++ cur)
                    = drop 32 d0 ++ concat full ++ cur).
      { rewrite <- app_assoc. rewrite drop_app_le by lia. reflexivity. }
      rewrite HD in Hdr. rewrite <- Hdr. reflexivity.
Qed.

Lemma written_start archive_path split_size total :
  32 <= split_size ->
  written (MultiVolume.start_context archive_path split_size total)
          (k7zSignature ++ [0; 4] ++ replicate 24 0).
Proof.
  intros Hs. exists [], (k7zSignature ++ [0; 4] ++ replicate 24 0).
  split; [|reflexivity].
  split; [reflexivity|split; [constructor|split; [reflexivity|]]].
  cbn [MultiVolume.start_context MultiVolume.current_volume_size
       MultiVolume.max_volume_size]. lia.
Qed.

(** The volumes on disk, by name. *)
Definition volume_outputs (archive_path : string) (vols : list (list Z)) : outputs :=
  list_to_map
    (imap (fun k d => (MultiVolume.get_volume_filename archive_path (Z.of_nat k), d))
          vols).

Lemma volume_files_outputs ctx :
  MultiVolume.volume_files ctx
  = volume_outputs (MultiVolume.base_path ctx) (map f_data (MultiVolume.volumes ctx)).
Proof.
  unfold MultiVolume.volume_files, volume_outputs.
  rewrite imap_fmap. reflexivity.
Qed.

(** The layout of the volumes that [sevenzip_create_multivolume_7z_complete]
    leaves when it returns [SEVENZIP_OK]: every volume but the last holds
    [split_size] bytes, and one after the other they hold the signature
    header, the packed streams and the header block. *)
Definition multivolume_archive (read : string -> option (list Z))
    (input_paths : list input) (split_size : Z) (vols : list (list Z)) : Prop :=
  exists full last entries body packed,
    vols = full ++ [last]
    /\ Forall (fun d => Z.of_nat (length d) = split_size) full
    /\ 0 < Z.of_nat (length last) <= split_size
    /\ concat vols
       = signature_header packed (MultiVolume.header_bytes entries packed)
         ++ body ++ MultiVolume.header_bytes entries packed
    /\ (Forall (unchanged read) (fold_left MultiVolume.gather_input input_paths []) ->
        packed = u64 (Z.of_nat (length body))).

Local Opaque CrcCalc le_bytes MultiVolume.header_bytes.

Lemma multivolume_layout `{Lzma2Enc} read archive_path input_paths level o outs :
  32 <= so_split_size o < 2 ^ 64 ->
  MultiVolume.sevenzip_create_multivolume_7z_complete read archive_path
    input_paths level (Some o) = Some (SEVENZIP_OK, outs) ->
  exists vols,
    outs = volume_outputs archive_path vols
    /\ multivolume_archive read input_paths (so_split_size o) vols.
Proof.
  intros Hsplit Hrun.
  unfold MultiVolume.sevenzip_create_multivolume_7z_complete in Hrun.
  destruct (so_split_size o =? 0); [discriminate|].
  set (files := fold_left MultiVolume.gather_input input_paths []) in *.
  destruct (length files =? 0)%nat; [discriminate|].
  cbv zeta in Hrun.
  set (ctx0 := MultiVolume.start_context archive_path (so_split_size o) _) in Hrun.
  destruct (MultiVolume.process_files read (level =? SEVENZIP_LEVEL_STORE)
              (MultiVolume.encoder_props level o) files [] ctx0)
    as [[res entries] ctx1] eqn:Hfiles.
  destruct res; try discriminate.
  unfold MultiVolume.build_7z_header in Hrun.
  set (packed := MultiVolume.total_packed_size ctx1) in *.
  set (header := MultiVolume.header_bytes entries packed) in *.
  destruct (MultiVolume.header_capacity <? Z.of_nat (length header));
    [discriminate|].
  injection Hrun as <-.
  assert (Hm0 : MultiVolume.max_volume_size ctx0 < 2 ^ 64).
  { cbn [ctx0 MultiVolume.start_context MultiVolume.max_volume_size]. lia. }
  assert (Hp0 : 0 <= MultiVolume.total_packed_size ctx0 < 2 ^ 64).
  { cbn [ctx0 MultiVolume.start_context MultiVolume.total_packed_size]. lia. }
  assert (Hw0 : written ctx0 (k7zSignature ++ [0; 4] ++ replicate 24 0)).
  { apply written_start. lia. }
  destruct (process_files_spec read _ _ files [] ctx0 _ entries ctx1
              Hm0 Hp0 Hw0 Hfiles)
    as (body & Hw1 & Hm1 & Hb1 & Hp1).
  cbn [ctx0 MultiVolume.start_context MultiVolume.max_volume_size
       MultiVolume.base_path MultiVolume.total_packed_size] in Hm1, Hb1, Hp1.
  fold packed in Hp1.
  assert (Hm1' : MultiVolume.max_volume_size ctx1 < 2 ^ 64) by (rewrite Hm1; lia).
  destruct (write_all_spec ctx1 header _ Hm1' Hw1) as (Hw2 & Hm2 & Hb2 & Hp2).
  fold packed in Hp2. rewrite Hp2.
  set (ctx2 := MultiVolume.write_all ctx1 header) in *.
  set (shb := le_bytes 8 packed ++ le_bytes 8 (Z.of_nat (length header))
              ++ le_bytes 4 (CrcCalc header)).
  destruct (patch_first_volume_spec ctx2 (body ++ header) (CrcCalc shb) shb)
    as (full & last & Hvols & Hfull & Hlast & Hcat).
  { rewrite Hm2, Hm1. lia. }
  { unfold shb. rewrite !length_app, !length_le_bytes. reflexivity. }
  { rewrite <- !app_assoc in Hw2. exact Hw2. }
  rewrite Hm2, Hm1 in Hfull, Hlast.
  exists (full ++ [last]). split.
  - rewrite volume_files_outputs.
    rewrite Hvols.
    cbn [MultiVolume.patch_first_volume MultiVolume.base_path].
    rewrite Hb2, Hb1. reflexivity.
  - exists full, last, entries, body, packed.
    split; [reflexivity|split; [exact Hfull|split; [exact Hlast|split]]].
    + rewrite concat_app. cbn [concat]. rewrite app_nil_r, Hcat.
      unfold signature_header, start_header. fold header. fold shb.
      rewrite <- !app_assoc. reflexivity.
    + intros Hun. rewrite (Hp1 Hun). reflexivity.
Qed.

Local Transparent CrcCalc le_bytes MultiVolume.header_bytes.


(** ** Split archives *)

(** The options with splitting turned off. *)
Definition without_split (o : SevenZipStreamOptions) : SevenZipStreamOptions :=
  {| so_num_threads := so_num_threads o; so_dict_size := so_dict_size o;
     so_solid := so_solid o; so_password := so_password o;
     so_split_size := 0; so_chunk_size := so_chunk_size o;
     so_temp_dir := so_temp_dir o;
     so_delete_temp_on_error := so_delete_temp_on_error o |}.

(** One regular file of 1100 bytes. *)
Definition split_content : list Z := replicate 1100 65.

Definition split_inputs : list input :=
  [("a.bin", Some (Reg "a.bin" 0x81A4 0 split_content))].

Definition split_read (path : string) : option (list Z) :=
  if String.eqb path "a.bin" then Some split_content else None.

Definition split_options (split_size : Z) : SevenZipStreamOptions :=
  {| so_num_threads := 2; so_dict_size := 0; so_solid := 1; so_password := None;
     so_split_size := split_size; so_chunk_size := 0; so_temp_dir := None;
     so_delete_temp_on_error := 1 |}.

(** The file that a call left at [path], when the call returned
    [SEVENZIP_OK]. *)
Definition created_file (r : option (SevenZipErrorCode * outputs))
    (path : string) : option (list Z) :=
  match r with
  | Some (SEVENZIP_OK, outs) => outs !! path
  | _ => None
  end.





(** ** More on the multi-volume writer *)

(** [write_across_volumes] keeps the volumes in shape: the data is appended
    to what the volumes hold one after the other, every volume that has been
    left behind holds [max_volume_size] bytes and the volume opened last is
    not empty and not longer than that. *)
Theorem write_across_volumes_fills_volumes (ctx : MultiVolume.MultiVolumeContext)
    (full : list (list Z)) (cur src : list Z) :
  MultiVolume.max_volume_size ctx < 2 ^ 64 ->
  volumes_hold ctx full cur ->
  exists full' cur',
    volumes_hold (MultiVolume.write_all ctx src) full' cur'
    /\ concat full' ++ cur' = concat full ++ cur ++ src
    /\ MultiVolume.max_volume_size (MultiVolume.write_all ctx src)
       = MultiVolume.max_volume_size ctx.
Proof.
  intros Hmax Hhold.
  destruct (write_all_spec ctx src (concat full ++ cur) Hmax)
    as ((full' & cur' & Hh & Hd) & Hm & _).
  { exists full, cur. split; [exact Hhold|reflexivity]. }
  exists full', cur'. rewrite <- app_assoc in Hd. auto.
Qed.

Lemma start_context_holds archive_path split_size total :
  32 <= split_size ->
  volumes_hold (MultiVolume.start_context archive_path split_size total)
               [] (k7zSignature ++ [0; 4] ++ replicate 24 0).
Proof.
  intros Hs.
  split; [reflexivity|split; [constructor|split; [reflexivity|]]].
  cbn [MultiVolume.start_context MultiVolume.current_volume_size
       MultiVolume.max_volume_size]. lia.
Defined.

Lemma write_across_volumes_fills_volumes_witness :
  let ctx := MultiVolume.start_context "a.7z" 40 0 in
  exists full' cur',
    volumes_hold (MultiVolume.write_all ctx (replicate 100 1)) full' cur'
    /\ concat full' ++ cur'
       = concat [] ++ (k7zSignature ++ [0; 4] ++ replicate 24 0) ++ replicate 100 1
    /\ MultiVolume.max_volume_size (MultiVolume.write_all ctx (replicate 100 1))
       = MultiVolume.max_volume_size ctx.
Proof.
  intros ctx.
  apply (write_across_volumes_fills_volumes ctx []
           (k7zSignature ++ [0; 4] ++ replicate 24 0) (replicate 100 1)).
  - cbn [ctx MultiVolume.start_context MultiVolume.max_volume_size]. lia.
  - apply start_context_holds. lia.
Defined.

(** The buffered output stream loses nothing and keeps the order: after the
    encoder's writes and the flush the volumes hold every buffer handed to
    [VolumeOutStream_Write], the buffer is empty and the packed size is the
    number of bytes handed over, mod 2^64. *)
Theorem buffered_stream_delivers_all (ctx : MultiVolume.MultiVolumeContext)
    (D : list Z) (writes : list (list Z)) :
  MultiVolume.max_volume_size ctx < 2 ^ 64 ->
  written ctx D ->
  let s := MultiVolume.VolumeOutStream_Flush
             (fold_left MultiVolume.VolumeOutStream_Write writes
                {| MultiVolume.vos_ctx := ctx; MultiVolume.vos_packed_size := 0;
                   MultiVolume.vos_buffer := [] |}) in
  written (MultiVolume.vos_ctx s) (D ++ concat writes)
  /\ MultiVolume.vos_buffer s = []
  /\ MultiVolume.vos_packed_size s = u64 (Z.of_nat (length (concat writes))).
Proof.
  intros Hmax Hw.
  set (s0 := {| MultiVolume.vos_ctx := ctx; MultiVolume.vos_packed_size := 0;
                MultiVolume.vos_buffer := [] |}).
  assert (Hinv0 : stream_inv D s0 []).
  { split; [|exact STREAM_BUFFER_SIZE_pos].
    exists []. rewrite app_nil_r. auto. }
  destruct (VolumeOutStream_Writes_spec D writes s0 [] Hmax Hinv0) as (Hinv1 & Hs1).
  cbn [app] in Hinv1.
  assert (Hm : MultiVolume.max_volume_size
                 (MultiVolume.vos_ctx
                    (fold_left MultiVolume.VolumeOutStream_Write writes s0))
               < 2 ^ 64).
  { destruct Hs1 as (Hs1 & _). rewrite Hs1. exact Hmax. }
  destruct (VolumeOutStream_Flush_spec D _ (concat writes) Hm (proj1 Hinv1))
    as (Hw2 & Hp2 & Hb2 & _).
  cbv zeta. fold s0. auto.
Qed.

Lemma buffered_stream_delivers_all_witness :
  let ctx := MultiVolume.start_context "a.7z" 40 0 in
  let s := MultiVolume.VolumeOutStream_Flush
             (fold_left MultiVolume.VolumeOutStream_Write [[1; 2]; [3]]
                {| MultiVolume.vos_ctx := ctx; MultiVolume.vos_packed_size := 0;
                   MultiVolume.vos_buffer := [] |}) in
  written (MultiVolume.vos_ctx s)
          ((k7zSignature ++ [0; 4] ++ replicate 24 0) ++ concat [[1; 2]; [3]])
  /\ MultiVolume.vos_buffer s = []
  /\ MultiVolume.vos_packed_size s = u64 (Z.of_nat (length (concat [[1; 2]; [3]]))).
Proof.
  intros ctx.
  apply (buffered_stream_delivers_all ctx
           (k7zSignature ++ [0; 4] ++ replicate 24 0) [[1; 2]; [3]]).
  - cbn [ctx MultiVolume.start_context MultiVolume.max_volume_size]. lia.
  - exists [], (k7zSignature ++ [0; 4] ++ replicate 24 0).
    split; [apply start_context_holds; lia|reflexivity].
Defined.

(** [store_file_uncompressed] on a file that is read in chunks: it succeeds
    whenever the file can be opened, appends the first [file_size] bytes of
    the file to the volumes (the whole file when it is shorter), reports
    their CRC and reports [file_size] as the packed size. *)
Theorem store_file_uncompressed_stores (read : string -> option (list Z))
    (file_path : string) (file_size : Z) (ctx : MultiVolume.MultiVolumeContext)
    (D input : list Z) :
  MultiVolume.max_volume_size ctx < 2 ^ 64 ->
  written ctx D ->
  read file_path = Some input ->
  exists ctx',
    MultiVolume.store_file_uncompressed read file_path None file_size ctx
    = (SZ_OK, ctx', CrcCalc (take (Z.to_nat file_size) input), file_size)
    /\ written ctx' (D ++ take (Z.to_nat file_size) input).
Proof.
  intros Hmax Hw Hread.
  destruct (MultiVolume.store_file_uncompressed read file_path None file_size ctx)
    as [[[res ctx'] crc] packed] eqn:Hrun.
  assert (Hres : res = SZ_OK).
  { unfold MultiVolume.store_file_uncompressed in Hrun. rewrite Hread in Hrun.
    destruct (MultiVolume.store_chunks _ _ _ _ _ _) in Hrun.
    injection Hrun as <- _ _ _. reflexivity. }
  destruct (store_file_uncompressed_spec read file_path file_size ctx D
              res ctx' crc packed Hmax Hw Hrun Hres)
    as (input' & Hread' & Hw' & _ & -> & ->).
  rewrite Hread in Hread'. injection Hread' as <-. subst res.
  exists ctx'. split; [reflexivity|exact Hw'].
Qed.

Lemma store_file_uncompressed_stores_witness :
  let ctx := MultiVolume.start_context "a.7z" 40 0 in
  exists ctx',
    MultiVolume.store_file_uncompressed (fun _ => Some [7; 8; 9]) "f" None 3 ctx
    = (SZ_OK, ctx', CrcCalc (take (Z.to_nat 3) [7; 8; 9]), 3)
    /\ written ctx' ((k7zSignature ++ [0; 4] ++ replicate 24 0)
                     ++ take (Z.to_nat 3) [7; 8; 9]).
Proof.
  intros ctx.
  apply (store_file_uncompressed_stores (fun _ => Some [7; 8; 9]) "f" 3 ctx
           (k7zSignature ++ [0; 4] ++ replicate 24 0) [7; 8; 9]).
  - cbn [ctx MultiVolume.start_context MultiVolume.max_volume_size]. lia.
  - exists [], (k7zSignature ++ [0; 4] ++ replicate 24 0).
    split; [apply start_context_holds; lia|reflexivity].
  - reflexivity.
Defined.

(** An entry for a regular file, with the attribute 0x20, or 0x21 when the
    owner may not write the file. *)
Definition plain_file_entry (e : MultiVolume.MV_FileEntry) : Prop :=
  MultiVolume.is_dir e = false
  /\ (MultiVolume.attrib e = 0x20 \/ MultiVolume.attrib e = 0x21).

Lemma file_entry_plain full_path relative_name n :
  plain_file_entry (MultiVolume.file_entry full_path relative_name n).
Proof.
  split; [reflexivity|]. cbn [MultiVolume.file_entry MultiVolume.attrib].
  destruct (Z.land (st_mode n) MultiVolume.S_IWUSR =? 0); [right|left]; reflexivity.
Qed.

Lemma visit_member_plain base_dir_name base_path_len current_dir state m :
  Forall plain_file_entry state.2 ->
  Forall plain_file_entry
    (MultiVolume.visit_member base_dir_name base_path_len current_dir state m).2.
Proof.
  destruct state as [stack entries]. cbn [snd]. intros He.
  unfold MultiVolume.visit_member.
  destruct (is_dot_entry (d_name m)); [exact He|].
  destruct m; cbn [snd]; try exact He.
  apply Forall_app. split; [exact He|].
  constructor; [apply file_entry_plain|constructor].
Qed.

Lemma visit_members_plain base_dir_name base_path_len current_dir members :
  forall state,
    Forall plain_file_entry state.2 ->
    Forall plain_file_entry
      (fold_left (MultiVolume.visit_member base_dir_name base_path_len current_dir)
                 members state).2.
Proof.
  induction members as [|m members IH]; intros state He; [exact He|].
  cbn [fold_left]. apply IH. apply visit_member_plain. exact He.
Qed.

Lemma walk_stack_plain fuel base_dir_name base_path_len :
  forall stack entries,
    Forall plain_file_entry entries ->
    Forall plain_file_entry
      (MultiVolume.walk_stack fuel base_dir_name base_path_len stack entries).
Proof.
  induction fuel as [|fuel IH]; intros stack entries He; [exact He|].
  cbn [MultiVolume.walk_stack].
  destruct (last stack) as [[current_dir members]|]; [|exact He].
  pose proof (visit_members_plain base_dir_name base_path_len current_dir members
                (removelast stack, entries) He) as Hv.
  destruct (fold_left _ members (removelast stack, entries)) as [stack' entries'].
  apply IH. exact Hv.
Qed.

Lemma gather_input_plain entries i :
  Forall plain_file_entry entries ->
  Forall plain_file_entry (MultiVolume.gather_input entries i).
Proof.
  intros He. destruct i as [path [n|]]; [|exact He].
  destruct n; cbn [MultiVolume.gather_input]; try exact He.
  - apply Forall_app. split; [exact He|].
    constructor; [apply file_entry_plain|constructor].
  - apply walk_stack_plain. exact He.
Qed.

(** The entries that [sevenzip_create_multivolume_7z_complete] gathers are
    never directories: an input directory gives its regular files only, and
    every entry has the attribute 0x20 or 0x21, whatever the mode of the
    file. *)
Theorem multivolume_entries_are_files (input_paths : list input) :
  Forall plain_file_entry (fold_left MultiVolume.gather_input input_paths []).
Proof.
  assert (H : forall entries, Forall plain_file_entry entries ->
            Forall plain_file_entry
              (fold_left MultiVolume.gather_input input_paths entries)).
  { induction input_paths as [|i rest IH]; intros entries He; [exact He|].
    cbn [fold_left]. apply IH. apply gather_input_plain. exact He. }
  apply H. constructor.
Qed.

(** The judgment of archive_create_multivolume.c, which sees every mapped
    file: a payload shorter than 1024 bytes is compressible; a longer one is
    compressible exactly when fewer than 200 byte values occur more than
    [sample_len / 512] times in its first [min(len, 64 KiB)] bytes. *)
Theorem multivolume_judgment (data : list Z) :
  Forall is_byte data ->
  MultiVolume.is_data_compressible data
  = (Z.of_nat (length data) <? 1024) || (frequent_values (sample_of data) <? 200).
Proof.
  intros Hd. destruct (Z.ltb_spec (Z.of_nat (length data)) 1024) as [Hs|Hl].
  - unfold MultiVolume.is_data_compressible.
    destruct (Z.ltb_spec (Z.of_nat (length data)) 1024); [reflexivity|lia].
  - rewrite is_data_compressible_mv by assumption. reflexivity.
Qed.

Lemma multivolume_judgment_witness :
  MultiVolume.is_data_compressible small_payload
  = (Z.of_nat (length small_payload) <? 1024)
    || (frequent_values (sample_of small_payload) <? 200).
Proof. apply (multivolume_judgment small_payload (cycles_are_bytes 8)). Defined.


(** ** More on the single-file writers *)

(** The copy loop of the streaming writer appends the first [data_size]
    bytes of the temporary file to the archive, or the whole temporary file
    when it is shorter, and leaves the stream at its end. *)
Theorem copy_temp_copies (temp : list Z) (data_size : Z) (archive : FILE) :
  at_end archive -> 0 <= data_size ->
  let archive' := TrueStreaming.copy_temp (S (Z.to_nat data_size)) temp
                                          data_size archive in
  f_data archive' = f_data archive ++ take (Z.to_nat data_size) temp
  /\ at_end archive'.
Proof.
  intros He Hs. apply copy_temp_spec; [exact He|exact Hs|lia].
Qed.

Lemma copy_temp_copies_witness :
  let archive' := TrueStreaming.copy_temp (S (Z.to_nat 2)) [5; 6; 7] 2
                    (fwrite [1] fopen_wb) in
  f_data archive' = f_data (fwrite [1] fopen_wb) ++ take (Z.to_nat 2) [5; 6; 7]
  /\ at_end archive'.
Proof.
  apply (copy_temp_copies [5; 6; 7] 2 (fwrite [1] fopen_wb)).
  - reflexivity.
  - lia.
Defined.

(** The whole file that [write_7z_archive] of archive_create.c leaves: after
    the 32 bytes of the signature header come the packed stream, from offset
    32, and the header block, and nothing else. *)
Theorem archive_is_header_pack_header (E : Lzma2Enc)
    (b : ArchiveCreate.SevenZArchiveBuilder) (f : FILE) :
  ArchiveCreate.write_7z_archive b = Some (SEVENZIP_OK, f) ->
  exists b' pack_data,
    ArchiveCreate.compress_all_files b = (SEVENZIP_OK, b', pack_data)
    /\ let pack := default [] pack_data in
       let header := ArchiveCreate.build_header b' (Z.of_nat (length pack)) in
       length (f_data f) = (32 + length pack + length header)%nat
       /\ take (length pack) (drop 32 (f_data f)) = pack
       /\ drop (32 + length pack) (f_data f) = header.
Proof.
  intros Hw.
  destruct (archive_create_layout b f Hw) as (b' & pack_data & Hc & _ & Hd).
  exists b', pack_data. split; [exact Hc|]. cbv zeta in *.
  set (pack := default [] pack_data) in *.
  set (header := ArchiveCreate.build_header b' (Z.of_nat (length pack))) in *.
  pose proof (length_signature_header (Z.of_nat (length pack)) header) as Hlen.
  rewrite Hd. split; [|split].
  - rewrite !length_app, Hlen. lia.
  - rewrite drop_app_length' by exact Hlen. apply take_app_length.
  - rewrite app_assoc. apply drop_app_length'. rewrite length_app, Hlen. reflexivity.
Qed.

Lemma archive_is_header_pack_header_witness :
  exists f b' pack_data,
    @ArchiveCreate.write_7z_archive no_encoder one_file_builder
    = Some (SEVENZIP_OK, f)
    /\ @ArchiveCreate.compress_all_files no_encoder one_file_builder
       = (SEVENZIP_OK, b', pack_data)
    /\ let pack := default [] pack_data in
       let header := ArchiveCreate.build_header b' (Z.of_nat (length pack)) in
       length (f_data f) = (32 + length pack + length header)%nat
       /\ take (length pack) (drop 32 (f_data f)) = pack
       /\ drop (32 + length pack) (f_data f) = header.
Proof.
  destruct (@ArchiveCreate.write_7z_archive no_encoder one_file_builder)
    as [[code f]|] eqn:Hw.
  - assert (Hcode : code = SEVENZIP_OK).
    { vm_compute in Hw. injection Hw as <- _. reflexivity. }
    subst code.
    destruct (archive_is_header_pack_header no_encoder one_file_builder f Hw)
      as (b' & pack_data & Hc & Hl).
    exists f, b', pack_data. auto.
  - vm_compute in Hw. discriminate Hw.
Defined.

(** ** Encryption round trip *)

Lemma padded_length n : 0 <= n -> 1 <= (n / 16 + 1) * 16 - n <= 16.
Proof.
  intros Hn. pose proof (Z.div_mod n 16 ltac:(lia)).
  pose proof (Z.mod_pos_bound n 16 ltac:(lia)). lia.
Qed.

(** With a cipher whose decoding undoes its encoding, [sevenzip_decrypt_data]
    gives back what [sevenzip_encrypt_data] was given, whatever its length:
    the ciphertext holds [(n / 16 + 1) * 16] bytes, between 1 and 16 more
    than the [n] bytes of the plaintext, and decryption returns [n] and the
    plaintext in the first [n] bytes of its buffer. *)
Theorem encrypt_decrypt_round_trip (A : Encryption.Aes)
    (enc dec : Encryption.aes_context) (iv plaintext : list Z)
    (capacity capacity' : Z) :
  (forall d, Encryption.AesCbc_Decode dec iv (Encryption.AesCbc_Encode enc iv d) = d) ->
  let n := Z.of_nat (length plaintext) in
  (n / 16 + 1) * 16 <= capacity ->
  (n / 16 + 1) * 16 <= capacity' ->
  let e := Encryption.sevenzip_encrypt_data enc iv plaintext capacity in
  let r := Encryption.sevenzip_decrypt_data dec iv e.1.2 capacity' in
  e.1.1 = SEVENZIP_OK
  /\ e.2 = (n / 16 + 1) * 16
  /\ Z.of_nat (length e.1.2) = e.2
  /\ r.1.1 = SEVENZIP_OK
  /\ r.2 = n
  /\ take (Z.to_nat r.2) r.1.2 = plaintext.
Proof.
  intros Hinv n Hcap Hcap' e r.
  pose proof (padded_length n ltac:(lia)) as Hpad.
  set (padded_len := (n / 16 + 1) * 16) in *.
  assert (Hbyte : Byte (padded_len - n) = padded_len - n).
  { unfold Byte. apply Z.mod_small. lia. }
  set (pad := padded_len - n) in *.
  set (padded := plaintext ++ replicate (Z.to_nat pad) pad).
  assert (He : e = (SEVENZIP_OK, Encryption.AesCbc_Encode enc iv padded, padded_len)).
  { unfold e, Encryption.sevenzip_encrypt_data, Encryption.AES_BLOCK_SIZE.
    fold n. fold padded_len.
    destruct (Z.ltb_spec capacity padded_len) as [|_]; [lia|].
    fold pad. rewrite Hbyte. reflexivity. }
  assert (Hlen : Z.of_nat (length padded) = padded_len).
  { unfold padded. rewrite length_app, length_replicate. unfold pad, n. lia. }
  assert (Hclen : Z.of_nat (length (Encryption.AesCbc_Encode enc iv padded))
                  = padded_len).
  { rewrite Encryption.AesCbc_Encode_length. exact Hlen. }
  unfold r. rewrite He. cbn [fst snd].
  split; [reflexivity|]. split; [reflexivity|]. split; [exact Hclen|].
  unfold Encryption.sevenzip_decrypt_data, Encryption.AES_BLOCK_SIZE.
  rewrite Hclen, Hinv.
  assert (Hmod : padded_len mod 16 = 0) by (unfold padded_len; apply Z.mod_mul; lia).
  rewrite Hmod. cbn [Z.eqb negb].
  destruct (Z.ltb_spec capacity' padded_len) as [|_]; [lia|].
  assert (Hlast : padded !!! Z.to_nat (padded_len - 1) = pad).
  { unfold padded. rewrite lookup_total_app_r by (unfold pad, n in *; lia).
    apply lookup_total_replicate_2. unfold pad, n in *. lia. }
  rewrite Hlast.
  destruct (Z.ltb_spec 0 pad) as [_|]; [|lia].
  destruct (Z.leb_spec pad 16) as [_|]; [|lia].
  cbn [andb].
  assert (Hdrop : drop (Z.to_nat (padded_len - pad)) padded
                  = replicate (Z.to_nat pad) pad).
  { unfold padded. replace (Z.to_nat (padded_len - pad)) with (length plaintext)
      by (unfold pad, n; lia).
    apply drop_app_length. }
  rewrite Hdrop.
  assert (Hok : Encryption.padding_ok (replicate (Z.to_nat pad) pad) pad = true).
  { apply padding_ok_all. apply Forall_replicate. reflexivity. }
  rewrite Hok. cbn [fst snd].
  split; [reflexivity|]. split; [unfold pad; lia|].
  replace (Z.to_nat (padded_len - pad)) with (length plaintext)
    by (unfold pad, n; lia).
  unfold padded. apply take_app_length.
Qed.

Lemma encrypt_decrypt_round_trip_witness :
  let e := @Encryption.sevenzip_encrypt_data plain_aes tt [] [1; 2; 3] 16 in
  let r := @Encryption.sevenzip_decrypt_data plain_aes tt [] e.1.2 16 in
  e.1.1 = SEVENZIP_OK
  /\ e.2 = (Z.of_nat (length [1; 2; 3]) / 16 + 1) * 16
  /\ Z.of_nat (length e.1.2) = e.2
  /\ r.1.1 = SEVENZIP_OK
  /\ r.2 = Z.of_nat (length [1; 2; 3])
  /\ take (Z.to_nat r.2) r.1.2 = [1; 2; 3].
Proof.
  apply (encrypt_decrypt_round_trip plain_aes tt tt [] [1; 2; 3] 16 16).
  - intros d. reflexivity.
  - vm_compute. discriminate.
  - vm_compute. discriminate.
Defined.


(** ** Reading across the volumes of a split archive *)

(** The stream over the volumes [vols], at position [pos]: what
    [open_split_volumes] builds, after any number of reads and seeks. *)
Definition stream_over (vols : list (list Z)) (pos : Z)
    : ExtractSplit.MultiVolumeInStream :=
  {| ExtractSplit.volumes := vols;
     ExtractSplit.volume_sizes := map (fun v => Z.of_nat (length v)) vols;
     ExtractSplit.volume_offsets :=
       ExtractSplit.cumulative_offsets 0 (map (fun v => Z.of_nat (length v)) vols);
     ExtractSplit.total_size := Z.of_nat (length (concat vols));
     ExtractSplit.current_pos := pos |}.

Lemma cumulative_offsets_lookup (pre : list (list Z)) v post : forall start,
  0 <= start ->
  start + Z.of_nat (length (concat (pre ++ v :: post))) < 2 ^ 64 ->
  ExtractSplit.cumulative_offsets start
    (map (fun v => Z.of_nat (length v)) (pre ++ v :: post)) !!! length pre
  = start + Z.of_nat (length (concat pre)).
Proof.
  induction pre as [|v0 pre IH]; intros start Hs Hlim.
  - cbn. lia.
  - cbn [app map ExtractSplit.cumulative_offsets length concat].
    cbn [app concat] in Hlim. rewrite length_app in Hlim.
    rewrite u64_small by lia.
    change ((start :: ?l) !!! S ?n) with (l !!! n).
    rewrite IH by lia. rewrite length_app. lia.
Qed.

Lemma cumulative_offsets_head start sizes :
  ExtractSplit.cumulative_offsets start sizes
  = start :: drop 1 (ExtractSplit.cumulative_offsets start sizes).
Proof. destruct sizes; reflexivity. Qed.

(** The search finds the volume that holds [pos]. *)
Lemma find_volume_spec (pos : Z) (vols : list (list Z)) : forall start i,
  0 <= start ->
  start + Z.of_nat (length (concat vols)) < 2 ^ 64 ->
  start <= pos < start + Z.of_nat (length (concat vols)) ->
  exists pre v post,
    vols = pre ++ v :: post
    /\ ExtractSplit.find_volume
         (drop 1 (ExtractSplit.cumulative_offsets start
                    (map (fun v => Z.of_nat (length v)) vols))) pos i
       = (i + length pre)%nat
    /\ start + Z.of_nat (length (concat pre)) <= pos
       < start + Z.of_nat (length (concat pre)) + Z.of_nat (length v).
Proof.
  induction vols as [|v0 rest IH]; intros start i Hs Hlim Hpos.
  - cbn in Hpos. lia.
  - cbn [concat] in Hlim, Hpos. rewrite length_app in Hlim, Hpos.
    cbn [map ExtractSplit.cumulative_offsets drop]. rewrite drop_0.
    rewrite u64_small by lia.
    rewrite (cumulative_offsets_head (start + Z.of_nat (length v0))).
    cbn [ExtractSplit.find_volume].
    destruct (Z.ltb_spec pos (start + Z.of_nat (length v0))) as [Hin|Hout].
    + exists [], v0, rest. split; [reflexivity|]. split.
      * cbn [length]. lia.
      * cbn [concat length]. lia.
    + destruct (IH (start + Z.of_nat (length v0)) (S i)) as (pre & v & post & -> & Hf & Hr);
        [lia|lia|lia|].
      exists (v0 :: pre), v, post. split; [reflexivity|]. split.
      * rewrite Hf. cbn [length]. lia.
      * cbn [concat]. rewrite length_app. lia.
Qed.

Lemma read_loop_spec (vols : list (list Z)) (pos0 : Z) (fuel : nat) :
  Z.of_nat (length (concat vols)) < 2 ^ 64 ->
  forall remaining got pos,
    0 <= remaining -> (Z.to_nat remaining < fuel)%nat ->
    0 <= pos <= Z.of_nat (length (concat vols)) ->
    let bytes := take (Z.to_nat remaining) (drop (Z.to_nat pos) (concat vols)) in
    ExtractSplit.read_loop fuel (stream_over vols pos0) remaining got pos
    = (SZ_OK, got ++ bytes, pos + Z.of_nat (length bytes)).
Proof.
  intros Hlim. induction fuel as [|fuel IH]; intros remaining got pos Hrem Hfuel Hpos;
    [lia|].
  cbn [ExtractSplit.read_loop]. cbv zeta.
  cbn [stream_over ExtractSplit.total_size ExtractSplit.volume_offsets
       ExtractSplit.volume_sizes ExtractSplit.volumes].
  destruct (Z.ltb_spec 0 remaining) as [Hpos_rem|Hzero]; cbn [andb].
  2:{ replace (Z.to_nat remaining) with 0%nat by lia.
      rewrite take_0, app_nil_r. cbn [length]. f_equal. lia. }
  destruct (Z.ltb_spec pos (Z.of_nat (length (concat vols)))) as [Hin|Hend].
  2:{ rewrite drop_ge by lia. rewrite take_nil, app_nil_r. cbn [length].
      f_equal. lia. }
  destruct (find_volume_spec pos vols 0 0%nat) as (pre & v & post & Hv & Hf & Hr);
    [lia|lia|lia|].
  rewrite Hf. cbn [Nat.add]. subst vols.
  rewrite cumulative_offsets_lookup by lia. rewrite Z.add_0_l in *.
  rewrite map_app. cbn [map].
  rewrite (list_lookup_total_middle (map (fun v => Z.of_nat (length v)) pre) _ _
             (length pre)) by (rewrite length_map; reflexivity).
  rewrite (list_lookup_total_middle pre post v (length pre) eq_refl).
  assert (Htotal : Z.of_nat (length (concat (pre ++ v :: post)))
                   = Z.of_nat (length (concat pre)) + Z.of_nat (length v)
                     + Z.of_nat (length (concat post))).
  { rewrite concat_app. cbn [concat]. rewrite !length_app. lia. }
  set (o := Z.of_nat (length (concat pre))) in *.
  rewrite u64_small by lia.
  set (vrem := Z.of_nat (length v) - (pos - o)).
  set (to_read := if vrem <? remaining then vrem else remaining).
  assert (Hto : 0 < to_read <= remaining /\ to_read <= vrem).
  { unfold to_read. destruct (Z.ltb_spec vrem remaining); unfold vrem in *; lia. }
  set (bytes := take (Z.to_nat to_read) (drop (Z.to_nat (pos - o)) v)).
  assert (Hbl : length bytes = Z.to_nat to_read).
  { unfold bytes. rewrite length_take, length_drop. unfold vrem in Hto. lia. }
  destruct (Nat.eqb_spec (length bytes) 0) as [Hz|_]; [lia|]. cbn [andb].
  rewrite IH by lia.
  assert (Hdrop : drop (Z.to_nat pos) (concat (pre ++ v :: post))
                  = drop (Z.to_nat (pos - o)) v ++ concat post).
  { rewrite concat_app. cbn [concat].
    replace (Z.to_nat pos) with (length (concat pre) + Z.to_nat (pos - o))%nat
      by (unfold o; lia).
    rewrite drop_app_add. rewrite drop_app_le by (unfold vrem in Hto; lia).
    reflexivity. }
  assert (Hsplit : take (Z.to_nat remaining) (drop (Z.to_nat pos)
                                                   (concat (pre ++ v :: post)))
                   = bytes
                     ++ take (Z.to_nat (remaining - Z.of_nat (length bytes)))
                          (drop (Z.to_nat (pos + Z.of_nat (length bytes)))
                                (concat (pre ++ v :: post)))).
  { replace (Z.to_nat (pos + Z.of_nat (length bytes)))
      with (Z.to_nat pos + Z.to_nat to_read)%nat by lia.
    rewrite <- drop_drop.
    replace (Z.to_nat remaining)
      with (Z.to_nat to_read
            + Z.to_nat (remaining - Z.of_nat (length bytes)))%nat by lia.
    rewrite <- take_take_drop. f_equal.
    rewrite Hdrop. unfold bytes.
    rewrite take_app_le; [reflexivity|].
    rewrite length_drop. unfold vrem in Hto. lia. }
  cbv zeta. rewrite Hsplit, <- app_assoc, length_app. f_equal. lia.
Qed.

(** [MultiVolumeInStream_Read] treats the volumes as one file: a read of
    [size] bytes at position [pos] delivers the next [size] bytes of the
    volumes' concatenation, fewer at its end, whatever the sizes of the
    volumes (empty ones included), and advances the position by what it
    delivered. *)
Theorem read_crosses_volumes (vols : list (list Z)) (pos size : Z) :
  Z.of_nat (length (concat vols)) < 2 ^ 64 ->
  0 <= pos <= Z.of_nat (length (concat vols)) ->
  0 <= size ->
  let bytes := take (Z.to_nat size) (drop (Z.to_nat pos) (concat vols)) in
  ExtractSplit.MultiVolumeInStream_Read (stream_over vols pos) size
  = (SZ_OK, bytes, stream_over vols (pos + Z.of_nat (length bytes))).
Proof.
  intros Hlim Hpos Hsize bytes.
  unfold ExtractSplit.MultiVolumeInStream_Read.
  cbn [stream_over ExtractSplit.current_pos].
  fold (stream_over vols pos).
  rewrite (read_loop_spec vols pos (S (Z.to_nat size)) Hlim size [] pos)
    by lia.
  cbn [app]. reflexivity.
Qed.

Lemma read_crosses_volumes_witness :
  ExtractSplit.MultiVolumeInStream_Read (stream_over [[1; 2]; []; [3; 4; 5]] 1) 3
  = (SZ_OK, take (Z.to_nat 3) (drop (Z.to_nat 1) (concat [[1; 2]; []; [3; 4; 5]])),
     stream_over [[1; 2]; []; [3; 4; 5]]
       (1 + Z.of_nat (length (take (Z.to_nat 3)
                                (drop (Z.to_nat 1)
                                      (concat [[1; 2]; []; [3; 4; 5]])))))).
Proof.
  apply (read_crosses_volumes [[1; 2]; []; [3; 4; 5]] 1 3).
  - vm_compute. reflexivity.
  - vm_compute. split; discriminate.
  - lia.
Defined.

Lemma cumulative_offsets_last (vols : list (list Z)) : forall start,
  0 <= start ->
  start + Z.of_nat (length (concat vols)) < 2 ^ 64 ->
  last (ExtractSplit.cumulative_offsets start
          (map (fun v => Z.of_nat (length v)) vols))
  = Some (start + Z.of_nat (length (concat vols))).
Proof.
  induction vols as [|v vols IH]; intros start Hs Hlim.
  - cbn. f_equal. lia.
  - cbn [concat] in *. rewrite length_app in *.
    cbn [map ExtractSplit.cumulative_offsets].
    rewrite u64_small by lia.
    rewrite (cumulative_offsets_head (start + Z.of_nat (length v))).
    rewrite last_cons_cons.
    rewrite <- cumulative_offsets_head. rewrite IH by lia. f_equal. lia.
Qed.

(** The stream that [open_split_volumes] hands out stands at position 0 over
    the volumes it opened: the sizes are the lengths of the volumes, the
    offsets their running sums and the total size the length of the
    volumes' concatenation, as long as this is below 2^64. *)
Theorem opened_stream_is_over_volumes (d : disk) (path : string)
    (s : ExtractSplit.MultiVolumeInStream) :
  ExtractSplit.open_split_volumes d path = Some s ->
  Z.of_nat (length (concat (ExtractSplit.volumes s))) < 2 ^ 64 ->
  s = stream_over (ExtractSplit.volumes s) 0.
Proof.
  unfold ExtractSplit.open_split_volumes.
  set (vols := ExtractSplit.open_volumes_from 999 d _ 1 []).
  destruct (length vols =? 0)%nat; [discriminate|].
  intros Hs. injection Hs as <-. cbn [ExtractSplit.volumes]. intros Hlim.
  unfold stream_over. f_equal.
  rewrite cumulative_offsets_last by lia. reflexivity.
Qed.

Lemma opened_stream_is_over_volumes_witness :
  exists s,
    ExtractSplit.open_split_volumes disk_with_gap "a.7z" = Some s
    /\ s = stream_over (ExtractSplit.volumes s) 0.
Proof.
  destruct (ExtractSplit.open_split_volumes disk_with_gap "a.7z") as [s|] eqn:Ho.
  - exists s. split; [reflexivity|].
    apply (opened_stream_is_over_volumes disk_with_gap "a.7z" s Ho).
    vm_compute in Ho. injection Ho as <-. vm_compute. reflexivity.
  - vm_compute in Ho. discriminate Ho.
Defined.

